(** * A console weather client: input classification, fetching and report rendering

    Shallow embedding of [weather_app.py] (class [WeatherApp]) and the
    properties of its specification.

    Python values are modelled as they are at run time: a [str] is a sequence
    of Unicode code points, a parsed JSON document is a tree of [None], [bool],
    [int], [float], [str], [list] and [dict] values, and a method of the class
    is a computation that reads the console, prints, sends HTTP requests and
    may raise. *)

From Stdlib Require Import ZArith NArith List Bool Ascii String Lia.
From Stdlib Require Import DecimalString.
Import ListNotations.

Local Open Scope Z_scope.

(** ** Python strings *)

(** A character is its Unicode code point. *)
Definition char := N.
Definition str := list char.

(** ASCII text of the source, as a [str]. *)
Definition lit (s : string) : str := map N_of_ascii (list_ascii_of_string s).

Definition char_eqb (a b : char) : bool := N.eqb a b.

Fixpoint str_eqb (a b : str) : bool :=
  match a, b with
  | [], [] => true
  | x :: a', y :: b' => char_eqb x y && str_eqb a' b'
  | _, _ => false
  end.

Definition is_ascii (c : char) : bool := (c <? 128)%N.

(** [c.isspace()] on the ASCII range: TAB..CR, FS..US and the blank. *)
Definition ascii_isspace (c : char) : bool :=
  ((9 <=? c) && (c <=? 13) || (28 <=? c) && (c <=? 32))%N.

Definition ascii_isdigit (c : char) : bool := ((48 <=? c) && (c <=? 57))%N.
Definition ascii_isupper (c : char) : bool := ((65 <=? c) && (c <=? 90))%N.
Definition ascii_islower (c : char) : bool := ((97 <=? c) && (c <=? 122))%N.

Definition ascii_lower (c : char) : char :=
  if ascii_isupper c then (c + 32)%N else c.
Definition ascii_upper (c : char) : char :=
  if ascii_islower c then (c - 32)%N else c.

(** [str.title()] on ASCII text: a cased character is upper-cased when the one
    before it is not cased, and lower-cased otherwise. *)
Fixpoint ascii_title_from (previous_is_cased : bool) (s : str) : str :=
  match s with
  | [] => []
  | c :: s' =>
      (if previous_is_cased then ascii_lower c else ascii_upper c)
        :: ascii_title_from (ascii_isupper c || ascii_islower c) s'
  end.

Definition ascii_title (s : str) : str := ascii_title_from false s.

(** [s.replace(old, new)] for a one-character [old]. *)
Definition str_replace (old : char) (new : str) (s : str) : str :=
  flat_map (fun c => if char_eqb c old then new else [c]) s.

Definition hyphen : char := 45%N.

(** [str(n)] for an [int]. *)
Definition str_of_int (n : Z) : str := lit (NilZero.string_of_int (Z.to_int n)).

(** ** Python values *)

(** A [float] is a NaN, an infinity, or the finite value
    [(-1)^neg * m * 2^e]. *)
Inductive pyfloat :=
| FNan
| FInf (neg : bool)
| FFin (neg : bool) (m : Z) (e : Z).

#[local] Set Warnings "-register-all".

Inductive pyval :=
| PNone
| PBool (b : bool)
| PInt (n : Z)
| PFloat (f : pyfloat)
| PStr (s : str)
| PList (l : list pyval)
| PDict (d : list (str * pyval)).

#[local] Set Warnings "+register-all".

Definition pdict := list (str * pyval).

Inductive exn :=
| AttributeError
| IndexError
| KeyError
| TypeError
| ValueError
| OverflowError
| ZeroDivisionError
| OSError
| EOFError
| RecursionError
| UnicodeEncodeError.

Inductive result (A : Type) :=
| Ok (a : A)
| Raise (e : exn).
Arguments Ok {A} a.
Arguments Raise {A} e.

(** ** The world outside the program *)

(** What [requests.get(url, params=params)] is called with. *)
Record request := {
  req_url : str;
  req_params : list (str * str)
}.

(** What comes back: the call raises a [RequestException] (no connection,
    time-out, ...), or there is a response with a status code and a body, or
    the call raises an exception that is no [RequestException] (a
    [UnicodeEncodeError] for a parameter with a lone surrogate, for one). *)
Inductive http_result :=
| ConnectionFailed (message : str)
| Responded (status : Z) (reason : str) (body : str)
| Raised (e : exn).

(** The interpreter, the libraries and the platform the program runs on.
    None of it is code of the repository: the Unicode tables beyond ASCII,
    [repr] of floats and containers, the platform's local time, the JSON
    parser and the network. *)
Record Runtime := {
  uni_isspace : char -> bool;
  uni_isdigit : char -> bool;
  uni_lower : str -> str;
  uni_title : str -> str;
  py_repr : pyval -> str;
  (** [localtime] gives hour, minute and second of the local wall clock at an
      epoch, or the exception raised when the platform cannot represent that
      instant. *)
  localtime : Z -> result (Z * Z * Z);
  (** what [response.json()] returns for a body, when it returns *)
  json_loads : str -> option pyval;
  (** for a body [response.json()] does not return for: the exception it
      raises, when that is not the [JSONDecodeError] of the library (which
      is a [RequestException]): a [ValueError] for a number of more digits
      than [int] takes from text, a [RecursionError] for brackets nested too
      deep *)
  json_raises : str -> option exn;
  (** [str(e)] of the [RequestException] raised for an outcome *)
  error_text : request -> http_result -> str;
  (** the answer to a request, given the requests sent before it *)
  network : list request -> request -> http_result
}.

Section Strings.

Context (rt : Runtime).

Definition char_isspace (c : char) : bool :=
  if is_ascii c then ascii_isspace c else uni_isspace rt c.

Definition char_isdigit (c : char) : bool :=
  if is_ascii c then ascii_isdigit c else uni_isdigit rt c.

(** [s.isspace()]: at least one character, all of them whitespace. *)
Definition isspace (s : str) : bool :=
  match s with
  | [] => false
  | _ => forallb char_isspace s
  end.

(** [s.isdigit()]: at least one character, all of them digits. *)
Definition isdigit (s : str) : bool :=
  match s with
  | [] => false
  | _ => forallb char_isdigit s
  end.

Fixpoint lstrip (s : str) : str :=
  match s with
  | c :: s' => if char_isspace c then lstrip s' else s
  | [] => []
  end.

(** [s.strip()] *)
Definition strip (s : str) : str := rev (lstrip (rev (lstrip s))).

(** [s.lower()] and [s.title()]: ASCII text is mapped here, other text by the
    interpreter's Unicode tables. *)
Definition lower (s : str) : str :=
  if forallb is_ascii s then map ascii_lower s else uni_lower rt s.

Definition title (s : str) : str :=
  if forallb is_ascii s then ascii_title s else uni_title rt s.

(** *** [WeatherApp.validate_input] *)

Definition validate_input (input_str : str) : bool * str :=
  if match input_str with [] => true | _ => false end || isspace input_str then
    (false, lit "Input cannot be empty.")
  else if isdigit (str_replace hyphen [] input_str) then
    let clean_zip := str_replace hyphen [] input_str in
    if 5 <=? Z.of_nat (List.length clean_zip) then (true, lit "zip")
    else (true, lit "city")
  else
    (true, lit "city").

End Strings.

(** ** Numbers *)

(** The quotient [a / b] rounded to the nearest integer, ties to the even one
    ([0 < b]). *)
Definition div_half_even (a b : Z) : Z :=
  let q := a / b in
  let r := a mod b in
  if 2 * r <? b then q
  else if b <? 2 * r then q + 1
  else if Z.even q then q else q + 1.

(** [floor (log2 (n / d))] for [0 < n] and [0 < d]. *)
Definition binade (n d : Z) : Z :=
  let s := Z.log2 n - Z.log2 d in
  if n * 2 ^ Z.max 0 (- s) <? d * 2 ^ Z.max 0 s then s - 1 else s.

(** The binary64 value nearest to [n / d] (ties to even), as a mantissa of at
    most 53 bits and an exponent; below [2^-1022] the exponent stays at that
    of the subnormal numbers. *)
Definition round_binary64 (n d : Z) : Z * Z :=
  let e := Z.max (binade n d - 52) (- 1074) in
  (div_half_even (n * 2 ^ Z.max 0 (- e)) (d * 2 ^ Z.max 0 e), e).

(** Whether [m * 2^e], a rounded value, is beyond the largest binary64. *)
Definition too_large (m e : Z) : bool :=
  (971 <? e) || ((e =? 971) && (2 ^ 53 <=? m)).

(** [a / b] on two [int]s: the correctly rounded quotient. *)
Definition int_truediv (a b : Z) : result pyfloat :=
  if b =? 0 then Raise ZeroDivisionError
  else if a =? 0 then Ok (FFin (b <? 0) 0 0)
  else
    let (m, e) := round_binary64 (Z.abs a) (Z.abs b) in
    if too_large m e then Raise OverflowError
    else Ok (FFin (xorb (a <? 0) (b <? 0)) m e).

(** [x / b] for a [float] [x] and an [int] [b] that is a binary64 value, as
    45 is. *)
Definition float_truediv (x : pyfloat) (b : Z) : result pyfloat :=
  if b =? 0 then Raise ZeroDivisionError
  else
    match x with
    | FNan => Ok FNan
    | FInf neg => Ok (FInf (xorb neg (b <? 0)))
    | FFin neg m e =>
        if m =? 0 then Ok (FFin (xorb neg (b <? 0)) 0 0)
        else
          let (m', e') :=
            round_binary64 (m * 2 ^ Z.max 0 e) (Z.abs b * 2 ^ Z.max 0 (- e)) in
          if too_large m' e' then Ok (FInf (xorb neg (b <? 0)))
          else Ok (FFin (xorb neg (b <? 0)) m' e')
    end.

(** [round(x)] for a [float]: the nearest [int], ties to even. *)
Definition py_round (x : pyfloat) : result Z :=
  match x with
  | FNan => Raise ValueError
  | FInf _ => Raise OverflowError
  | FFin neg m e =>
      let v := if 0 <=? e then m * 2 ^ e else div_half_even m (2 ^ (- e)) in
      Ok (if neg then - v else v)
  end.

(** The whole seconds [datetime.fromtimestamp] reads from a [float]: the
    value is cut into integral and fractional part, the fraction is turned
    into microseconds (rounded, ties to even), and a full or a negative count
    of microseconds carries into the seconds. *)
Definition float_seconds (x : pyfloat) : result Z :=
  match x with
  | FNan => Raise ValueError
  | FInf _ => Raise OverflowError
  | FFin neg m e =>
      let den := 2 ^ Z.max 0 (- e) in
      let num := m * 2 ^ Z.max 0 e in
      let intpart := num / den in
      let frac := num mod den in
      let us :=
        if frac =? 0 then 0
        else
          let (m', e') := round_binary64 (frac * 1000000) den in
          if 0 <=? e' then m' * 2 ^ e' else div_half_even m' (2 ^ (- e')) in
      if neg then
        Ok (if 0 <? us then - intpart - 1 else - intpart)
      else
        Ok (if 1000000 <=? us then intpart + 1 else intpart)
  end.

(** Two digits, as [%H], [%M] and [%S] print them. *)
Definition two_digits (n : Z) : str :=
  if n <? 10 then lit "0" ++ str_of_int n else str_of_int n.

(** [strftime('%H:%M:%S')] *)
Definition strftime_HMS (t : Z * Z * Z) : str :=
  let '(h, m, s) := t in
  two_digits h ++ lit ":" ++ two_digits m ++ lit ":" ++ two_digits s.

(** ** Operations on Python values *)

Fixpoint dict_get (key : str) (d : pdict) : option pyval :=
  match d with
  | [] => None
  | (k, v) :: d' => if str_eqb k key then Some v else dict_get key d'
  end.

(** Truth value of an object, as [if x:] and [not x] take it. *)
Definition truthy (v : pyval) : bool :=
  match v with
  | PNone => false
  | PBool b => b
  | PInt n => negb (n =? 0)
  | PFloat (FFin _ m _) => negb (m =? 0)
  | PFloat _ => true
  | PStr s => match s with [] => false | _ => true end
  | PList l => match l with [] => false | _ => true end
  | PDict d => match d with [] => false | _ => true end
  end.

(** [x.get(key, default)]: only a [dict] has the method. *)
Definition py_get (x : pyval) (key : str) (default : pyval) : result pyval :=
  match x with
  | PDict d =>
      match dict_get key d with
      | Some v => Ok v
      | None => Ok default
      end
  | _ => Raise AttributeError
  end.

(** [x.get(outer, {}).get(inner, default)] *)
Definition py_get2 (x : pyval) (outer inner : str) (default : pyval)
  : result pyval :=
  match py_get x outer (PDict []) with
  | Ok section => py_get section inner default
  | Raise e => Raise e
  end.

(** [x[0]].  The keys of a parsed JSON object are strings, so [0] is never
    one of them. *)
Definition py_item0 (x : pyval) : result pyval :=
  match x with
  | PList (v :: _) => Ok v
  | PList [] => Raise IndexError
  | PStr (c :: _) => Ok (PStr [c])
  | PStr [] => Raise IndexError
  | PDict _ => Raise KeyError
  | _ => Raise TypeError
  end.

(** [x == n] for an [int] literal [n]. *)
Definition py_eq_int (x : pyval) (n : Z) : bool :=
  match x with
  | PInt k => k =? n
  | PBool b => (if b then 1 else 0) =? n
  | PFloat (FFin neg m e) =>
      (if neg then - m else m) * 2 ^ Z.max 0 e =? n * 2 ^ Z.max 0 (- e)
  | _ => false
  end.

(** [x == s] for a [str] literal [s]. *)
Definition py_eq_str (x : pyval) (s : str) : bool :=
  match x with
  | PStr t => str_eqb t s
  | _ => false
  end.

(** [x / b] for an [int] literal [b]. *)
Definition py_truediv (x : pyval) (b : Z) : result pyfloat :=
  match x with
  | PInt n => int_truediv n b
  | PBool c => int_truediv (if c then 1 else 0) b
  | PFloat f => float_truediv f b
  | _ => Raise TypeError
  end.

Section Values.

Context (rt : Runtime).

(** [str(x)], which is what an f-string puts for [{x}]. *)
Definition py_str (x : pyval) : str :=
  match x with
  | PNone => lit "None"
  | PBool true => lit "True"
  | PBool false => lit "False"
  | PInt n => str_of_int n
  | PStr s => s
  | _ => py_repr rt x
  end.

(** [x.title()] and [x.lower()]: only a [str] has the methods. *)
Definition py_title (x : pyval) : result str :=
  match x with
  | PStr s => Ok (title rt s)
  | _ => Raise AttributeError
  end.

Definition py_lower (x : pyval) : result str :=
  match x with
  | PStr s => Ok (lower rt s)
  | _ => Raise AttributeError
  end.

(** [datetime.fromtimestamp(x).strftime('%H:%M:%S')] *)
Definition fromtimestamp_HMS (x : pyval) : result str :=
  let at_seconds (t : result Z) :=
    match t with
    | Ok secs =>
        match localtime rt secs with
        | Ok hms => Ok (strftime_HMS hms)
        | Raise e => Raise e
        end
    | Raise e => Raise e
    end in
  match x with
  | PInt n => at_seconds (Ok n)
  | PBool b => at_seconds (Ok (if b then 1 else 0))
  | PFloat f => at_seconds (float_seconds f)
  | _ => Raise TypeError
  end.

End Values.

(** ** The program's state and effects *)

(** The fields of a [WeatherApp] object. *)
Record WeatherApp := {
  api_key : str;
  base_url : str;
  units : str
}.

(** What the console shows: a [print]ed line, or the prompt of an [input]. *)
Inductive output :=
| Print (line : str)
| Prompt (text : str).

Record world := {
  self : WeatherApp;
  stdin : list str;
  stdout : list output;
  sent : list request
}.

(** A computation runs in a world, leaves a world, and returns or raises. *)
Definition IO (A : Type) : Type := world -> world * result A.

Definition ret {A} (a : A) : IO A := fun w => (w, Ok a).

Definition bind {A B} (c : IO A) (k : A -> IO B) : IO B :=
  fun w =>
    match c w with
    | (w', Ok a) => k a w'
    | (w', Raise e) => (w', Raise e)
    end.

Declare Scope io_scope.
Delimit Scope io_scope with io.
Notation "x <- c ;; k" := (bind c (fun x => k))
  (at level 61, c at next level, right associativity) : io_scope.
Notation "c ;; k" := (bind c (fun _ => k))
  (at level 61, right associativity) : io_scope.
Local Open Scope io_scope.

(** A step that computes without touching the world. *)
Definition lift {A} (r : result A) : IO A := fun w => (w, r).

(** [print(line)]; the console is taken to show every character. *)
Definition print (line : str) : IO unit :=
  fun w =>
    ({| self := self w; stdin := stdin w;
        stdout := stdout w ++ [Print line]; sent := sent w |}, Ok tt).

(** [input(prompt)]: the next line of the console, [EOFError] at its end. *)
Definition input (prompt : str) : IO str :=
  fun w =>
    match stdin w with
    | [] =>
        ({| self := self w; stdin := [];
            stdout := stdout w ++ [Prompt prompt]; sent := sent w |},
         Raise EOFError)
    | l :: rest =>
        ({| self := self w; stdin := rest;
            stdout := stdout w ++ [Prompt prompt]; sent := sent w |}, Ok l)
    end.

Definition get_self : IO WeatherApp := fun w => (w, Ok (self w)).

Definition set_self_units (u : str) : IO unit :=
  fun w =>
    ({| self := {| api_key := api_key (self w); base_url := base_url (self w);
                   units := u |};
        stdin := stdin w; stdout := stdout w; sent := sent w |}, Ok tt).

(** [s * n] *)
Definition str_repeat (s : str) (n : nat) : str := List.concat (repeat s n).

Definition newline : str := [10%N].

(** ** The class [WeatherApp] *)

Section Methods.

Context (rt : Runtime).

(** [WeatherApp.__init__] *)
Definition init (key : str) : WeatherApp :=
  {| api_key := key;
     base_url := lit "http://api.openweathermap.org/data/2.5/weather";
     units := lit "metric" |}.

(** [requests.get(url, params=params)] followed by [raise_for_status()] and
    [json()], inside the [try] of the two fetching methods.  Each of the
    three steps can raise a [RequestException]: [requests.get] without a
    response, [raise_for_status] on a status from 400 to 599, and [json]
    (its [JSONDecodeError] is one) on a body that is not JSON.  The handler
    prints the exception and returns [None].  An exception that is no
    [RequestException], from [requests.get] or from [json], is not handled
    here and leaves the method. *)
Definition fetch (params : list (str * str)) : IO pyval :=
  fun w =>
    let rq := {| req_url := base_url (self w); req_params := params |} in
    let w' := {| self := self w; stdin := stdin w; stdout := stdout w;
                 sent := sent w ++ [rq] |} in
    let failed (r : http_result) :=
      (print (lit "Error fetching weather data: " ++ error_text rt rq r) ;;
       ret PNone) w' in
    match network rt (sent w) rq with
    | ConnectionFailed message => failed (ConnectionFailed message)
    | Responded status reason body =>
        if (400 <=? status) && (status <? 600) then
          failed (Responded status reason body)
        else
          match json_loads rt body with
          | Some data => (w', Ok data)
          | None =>
              match json_raises rt body with
              | Some e => (w', Raise e)
              | None => failed (Responded status reason body)
              end
          end
    | Raised e => (w', Raise e)
    end.

(** [WeatherApp.get_weather_by_city] *)
Definition get_weather_by_city (city_name : str) : IO pyval :=
  app <- get_self ;;
  fetch [ (lit "q", city_name);
          (lit "appid", api_key app);
          (lit "units", units app);
          (lit "lang", lit "en") ].

(** [WeatherApp.get_weather_by_zip] *)
Definition get_weather_by_zip (zip_code country_code : str) : IO pyval :=
  app <- get_self ;;
  fetch [ (lit "zip", zip_code ++ lit "," ++ country_code);
          (lit "appid", api_key app);
          (lit "units", units app);
          (lit "lang", lit "en") ].

Definition str_in (s : str) (l : list str) : bool := existsb (str_eqb s) l.

(** [WeatherApp.set_units] *)
Definition set_units (u : str) : IO unit :=
  if str_in (lower rt u) [lit "c"; lit "celsius"; lit "metric"] then
    set_self_units (lit "metric")
  else if str_in (lower rt u) [lit "f"; lit "fahrenheit"; lit "imperial"] then
    set_self_units (lit "imperial")
  else
    print (lit "Invalid unit. Using Celsius (metric) by default.") ;;
    set_self_units (lit "metric").

(** The table [icons] of [display_weather]. *)
Definition icons : list (str * str) :=
  [ (lit "clear", [0x2600; 0xFE0F]%N);
    (lit "clouds", [0x2601; 0xFE0F]%N);
    (lit "rain", [0x1F327; 0xFE0F]%N);
    (lit "drizzle", [0x1F326; 0xFE0F]%N);
    (lit "thunderstorm", [0x26C8; 0xFE0F]%N);
    (lit "snow", [0x2744; 0xFE0F]%N);
    (lit "mist", [0x1F32B; 0xFE0F]%N);
    (lit "smoke", [0x1F4A8]%N);
    (lit "haze", [0x1F636; 0x200D; 0x1F32B; 0xFE0F]%N);
    (lit "dust", [0x1F32A; 0xFE0F]%N);
    (lit "fog", [0x1F301]%N) ].

Fixpoint icons_get (key : str) (table : list (str * str)) (default : str) : str :=
  match table with
  | [] => default
  | (k, v) :: table' => if str_eqb k key then v else icons_get key table' default
  end.

Definition directions : list str :=
  [lit "N"; lit "NE"; lit "E"; lit "SE"; lit "S"; lit "SW"; lit "W"; lit "NW"].

(** [directions[round(wind_dir / 45) % 8]] *)
Definition wind_direction (wind_dir : pyval) : result str :=
  match py_truediv wind_dir 45 with
  | Raise e => Raise e
  | Ok x =>
      match py_round x with
      | Raise e => Raise e
      | Ok r =>
          match nth_error directions (Z.to_nat (r mod 8)) with
          | Some d => Ok d
          | None => Raise IndexError
          end
      end
  end.

Definition degree_sign : str := [0xB0%N].
Definition NA : pyval := PStr (lit "N/A").

(** [WeatherApp.display_weather] *)
Definition display_weather (weather_data : pyval) : IO unit :=
  if negb (truthy weather_data) then
    print (lit "No weather data to display.")
  else
    cod <- lift (py_get weather_data (lit "cod") PNone) ;;
    if negb (py_eq_int cod 200) then
      message <- lift (py_get weather_data (lit "message")
                              (PStr (lit "Unknown error"))) ;;
      print (lit "Error: " ++ py_str rt message)
    else
      (* Extract relevant data *)
      city <- lift (py_get weather_data (lit "name") (PStr (lit "Unknown"))) ;;
      country <- lift (py_get2 weather_data (lit "sys") (lit "country") (PStr [])) ;;
      temp <- lift (py_get2 weather_data (lit "main") (lit "temp") NA) ;;
      feels_like <- lift (py_get2 weather_data (lit "main") (lit "feels_like") NA) ;;
      humidity <- lift (py_get2 weather_data (lit "main") (lit "humidity") NA) ;;
      pressure <- lift (py_get2 weather_data (lit "main") (lit "pressure") NA) ;;
      weather <- lift (py_get weather_data (lit "weather") (PList [PDict []])) ;;
      weather0 <- lift (py_item0 weather) ;;
      description <- lift (py_get weather0 (lit "description") NA) ;;
      weather_desc <- lift (py_title rt description) ;;
      wind_speed <- lift (py_get2 weather_data (lit "wind") (lit "speed") NA) ;;
      wind_dir <- lift (py_get2 weather_data (lit "wind") (lit "deg") NA) ;;
      visibility <- lift (py_get weather_data (lit "visibility") NA) ;;
      (* Get sunrise and sunset times *)
      sunrise <- lift (py_get2 weather_data (lit "sys") (lit "sunrise") PNone) ;;
      sunset <- lift (py_get2 weather_data (lit "sys") (lit "sunset") PNone) ;;
      (* Convert timestamps if available *)
      sunrise_time <- (if truthy sunrise then lift (fromtimestamp_HMS rt sunrise)
                       else ret (lit "N/A")) ;;
      sunset_time <- (if truthy sunset then lift (fromtimestamp_HMS rt sunset)
                      else ret (lit "N/A")) ;;
      (* Determine temperature unit symbol *)
      app <- get_self ;;
      let unit_symbol :=
        if str_eqb (units app) (lit "metric") then degree_sign ++ lit "C"
        else degree_sign ++ lit "F" in
      (* Display header *)
      print (newline ++ str_repeat (lit "=") 50) ;;
      print (lit "WEATHER FORECAST - " ++ py_str rt city ++ lit ", "
             ++ py_str rt country) ;;
      print (str_repeat (lit "=") 50) ;;
      (* Display weather information *)
      print (newline ++ [0x1F324; 0xFE0F]%N ++ lit "  Current Conditions: "
             ++ weather_desc) ;;
      print ([0x1F321; 0xFE0F]%N ++ lit "  Temperature: " ++ py_str rt temp
             ++ unit_symbol ++ lit " (Feels like: " ++ py_str rt feels_like
             ++ unit_symbol ++ lit ")") ;;
      print ([0x1F4A7]%N ++ lit " Humidity: " ++ py_str rt humidity ++ lit "%") ;;
      print ([0x1F4CA]%N ++ lit " Pressure: " ++ py_str rt pressure ++ lit " hPa") ;;
      print ([0x1F4A8]%N ++ lit " Wind Speed: " ++ py_str rt wind_speed
             ++ lit " m/s") ;;
      (if negb (py_eq_str wind_dir (lit "N/A")) then
         (* Convert wind direction degrees to compass direction *)
         direction <- lift (wind_direction wind_dir) ;;
         print ([0x1F9ED]%N ++ lit " Wind Direction: " ++ direction ++ lit " ("
                ++ py_str rt wind_dir ++ degree_sign ++ lit ")")
       else ret tt) ;;
      print (if negb (py_eq_str visibility (lit "N/A")) then
               [0x1F441; 0xFE0F]%N ++ lit "  Visibility: " ++ py_str rt visibility
               ++ lit " meters"
             else [0x1F441; 0xFE0F]%N ++ lit "  Visibility: N/A") ;;
      print ([0x1F305]%N ++ lit " Sunrise: " ++ sunrise_time) ;;
      print ([0x1F307]%N ++ lit " Sunset: " ++ sunset_time) ;;
      (* Additional weather details *)
      print (newline ++ str_repeat (lit "-") 30) ;;
      print (lit "Additional Details:") ;;
      print (str_repeat (lit "-") 30) ;;
      (* Weather icon based on description *)
      weather' <- lift (py_get weather_data (lit "weather") (PList [PDict []])) ;;
      weather0' <- lift (py_item0 weather') ;;
      main <- lift (py_get weather0' (lit "main") (PStr [])) ;;
      weather_main <- lift (py_lower rt main) ;;
      let icon := icons_get weather_main icons [0x1F308%N] in
      print (lit "Weather Icon: " ++ icon) ;;
      (* Cloud coverage *)
      clouds <- lift (py_get2 weather_data (lit "clouds") (lit "all") NA) ;;
      print ([0x2601; 0xFE0F]%N ++ lit "  Cloud Coverage: " ++ py_str rt clouds
             ++ lit "%") ;;
      print (str_repeat (lit "=") 50 ++ newline).

(** [WeatherApp.check_weather] *)
Definition check_weather : IO unit :=
  line <- input (newline ++ lit "Enter city name or ZIP code: ") ;;
  let location := strip rt line in
  (* Validate input *)
  let '(is_valid, input_type) := validate_input rt location in
  if negb is_valid then
    print (lit "Invalid input. Please try again.")
  else
    (* Fetch weather data based on input type *)
    weather_data <-
      (if str_eqb input_type (lit "zip") then
         (* Ask for country code for ZIP code searches *)
         answer <- input (lit "Enter country code (e.g., US, UK, IN) or press Enter for US: ") ;;
         let country := strip rt answer in
         let country := match country with [] => lit "US" | _ => country end in
         get_weather_by_zip location country
       else
         get_weather_by_city location) ;;
    (* Display results *)
    if truthy weather_data then display_weather weather_data
    else print (lit "Could not retrieve weather data. Please check your input and try again.").

(** [WeatherApp.change_units] *)
Definition change_units : IO unit :=
  print (newline ++ str_repeat (lit "-") 30) ;;
  print (lit "TEMPERATURE UNITS") ;;
  print (str_repeat (lit "-") 30) ;;
  print (lit "1. Celsius (" ++ degree_sign ++ lit "C)") ;;
  print (lit "2. Fahrenheit (" ++ degree_sign ++ lit "F)") ;;
  line <- input (newline ++ lit "Choose temperature unit (1 or 2): ") ;;
  let choice := strip rt line in
  if str_eqb choice (lit "1") then
    set_units (lit "celsius") ;;
    print (lit "Temperature units changed to Celsius (" ++ degree_sign ++ lit "C)")
  else if str_eqb choice (lit "2") then
    set_units (lit "fahrenheit") ;;
    print (lit "Temperature units changed to Fahrenheit (" ++ degree_sign ++ lit "F)")
  else
    print (lit "Invalid choice. Keeping current units.").

End Methods.

(** ** Vocabulary of the specification *)

Section Vocabulary.

Context (rt : Runtime).

(** An input that is empty or made of whitespace only. *)
Definition blank (s : str) : Prop :=
  Forall (fun c => char_isspace rt c = true) s.

(** An input made of digits and hyphens only. *)
Definition digits_and_hyphens (s : str) : Prop :=
  Forall (fun c => char_isdigit rt c = true \/ c = hyphen) s.

(** The input with its hyphens taken out. *)
Definition without_hyphens (s : str) : str :=
  filter (fun c => negb (N.eqb c hyphen)) s.

(** Tables in which no digit is whitespace, as it is in Unicode. *)
Definition digits_are_not_spaces : Prop :=
  forall c, char_isdigit rt c = true -> char_isspace rt c = false.

(** The compass point shown for a whole number of degrees. *)
Definition compass (d : Z) : result str := wind_direction (PInt d).

End Vocabulary.

(** The range of whole degrees on which the quotient by 45 is rounded to a
    binary64 value without reaching a half: [45 * 2^47 - 360]. *)
Definition compass_range : Z := 6333186975989400.


(** *** Responses and reports *)

(** The world after some more console output. *)
Definition printed (w : world) (out : list output) : world :=
  {| self := self w; stdin := stdin w; stdout := stdout w ++ out;
     sent := sent w |}.

(** The world after one more request. *)
Definition requested (w : world) (rq : request) : world :=
  {| self := self w; stdin := stdin w; stdout := stdout w;
     sent := sent w ++ [rq] |}.

(** The member [inner] of the section [outer] of a response. *)
Definition field (d : pdict) (outer inner : str) : option pyval :=
  match dict_get outer d with
  | Some (PDict section) => dict_get inner section
  | _ => None
  end.

(** The member [key] of the first entry of the [weather] list. *)
Definition condition (d : pdict) (key : str) : option pyval :=
  match dict_get (lit "weather") d with
  | Some (PList (PDict c :: _)) => dict_get key c
  | _ => None
  end.

Definition is_dict (v : pyval) : bool :=
  match v with PDict _ => true | _ => false end.

Definition is_str (v : pyval) : bool :=
  match v with PStr _ => true | _ => false end.

Definition is_ok {A} (r : result A) : bool :=
  match r with Ok _ => true | Raise _ => false end.

Definition absent_or {A} (p : A -> bool) (o : option A) : bool :=
  match o with None => true | Some v => p v end.

(** The lines of the report. *)
Definition rule (c : string) (n : nat) : str := str_repeat (lit c) n.

Definition forecast_line (city country : str) : str :=
  lit "WEATHER FORECAST - " ++ city ++ lit ", " ++ country.

Definition conditions_line (description : str) : str :=
  newline ++ [0x1F324; 0xFE0F]%N ++ lit "  Current Conditions: " ++ description.

Definition temperature_line (temp symbol feels_like : str) : str :=
  [0x1F321; 0xFE0F]%N ++ lit "  Temperature: " ++ temp ++ symbol
    ++ lit " (Feels like: " ++ feels_like ++ symbol ++ lit ")".

Definition humidity_line (humidity : str) : str :=
  [0x1F4A7]%N ++ lit " Humidity: " ++ humidity ++ lit "%".

Definition pressure_line (pressure : str) : str :=
  [0x1F4CA]%N ++ lit " Pressure: " ++ pressure ++ lit " hPa".

Definition wind_speed_line (speed : str) : str :=
  [0x1F4A8]%N ++ lit " Wind Speed: " ++ speed ++ lit " m/s".

Definition wind_direction_prefix : str := [0x1F9ED]%N ++ lit " Wind Direction: ".

Definition wind_direction_line (point degrees : str) : str :=
  wind_direction_prefix ++ point ++ lit " (" ++ degrees ++ degree_sign ++ lit ")".

Definition visibility_line (visibility : str) : str :=
  [0x1F441; 0xFE0F]%N ++ lit "  Visibility: " ++ visibility.

Definition sunrise_line (time : str) : str := [0x1F305]%N ++ lit " Sunrise: " ++ time.
Definition sunset_line (time : str) : str := [0x1F307]%N ++ lit " Sunset: " ++ time.
Definition icon_line (icon : str) : str := lit "Weather Icon: " ++ icon.

Definition cloud_line (clouds : str) : str :=
  [0x2601; 0xFE0F]%N ++ lit "  Cloud Coverage: " ++ clouds ++ lit "%".

Definition error_line (message : str) : str := lit "Error: " ++ message.

Definition fahrenheit_sign : str := degree_sign ++ lit "F".
Definition celsius_sign : str := degree_sign ++ lit "C".
Definition rainbow : str := [0x1F308%N].

Fixpoint starts_with (prefix s : str) : bool :=
  match prefix, s with
  | [], _ => true
  | p :: prefix', c :: s' => char_eqb p c && starts_with prefix' s'
  | _ :: _, [] => false
  end.

Definition is_wind_direction_line (o : output) : bool :=
  match o with
  | Print l => starts_with wind_direction_prefix l
  | Prompt _ => false
  end.

Section Reports.

Context (rt : Runtime).

(** The text of a field with the placeholder for an absent one. *)
Definition shown (o : option pyval) : str :=
  match o with
  | Some v => py_str rt v
  | None => lit "N/A"
  end.

Definition shown_time (o : option pyval) : str :=
  match o with
  | Some v =>
      if truthy v then
        match fromtimestamp_HMS rt v with
        | Ok t => t
        | Raise _ => []
        end
      else lit "N/A"
  | None => lit "N/A"
  end.

(** A timestamp, when there is one and the branch on its truth value takes
    it for present, is one the platform converts. *)
Definition time_ok (o : option pyval) : bool :=
  absent_or (fun v => negb (truthy v) || is_ok (fromtimestamp_HMS rt v)) o.

(** A timestamp, when there is one, has a true truth value. *)
Definition time_present (o : option pyval) : bool := absent_or truthy o.

(** A wind degree, when there is one, is the placeholder text or a number the
    compass point can be computed from. *)
Definition degrees_ok (o : option pyval) : bool :=
  absent_or (fun v => py_eq_str v (lit "N/A") || is_ok (wind_direction v)) o.

(** The [weather] member, when there is one, is a list that starts with an
    object whose description, when there, is a string. *)
Definition description_ok (d : pdict) : bool :=
  match dict_get (lit "weather") d with
  | None => true
  | Some (PList (PDict c :: _)) => absent_or is_str (dict_get (lit "description") c)
  | Some _ => false
  end.

(** A response whose fields the renderer can extract: the sections it reads
    are objects, the description is a string, the timestamps it is to convert
    can be converted.  Any member may be absent. *)
Definition extractable (d : pdict) : bool :=
  absent_or is_dict (dict_get (lit "sys") d)
  && absent_or is_dict (dict_get (lit "main") d)
  && absent_or is_dict (dict_get (lit "wind") d)
  && description_ok d
  && time_ok (field d (lit "sys") (lit "sunrise"))
  && time_ok (field d (lit "sys") (lit "sunset")).

(** A response the renderer gets through: its fields can be extracted, and
    so can the compass point, the condition keyword and the cloud coverage. *)
Definition renderable (d : pdict) : bool :=
  extractable d
  && degrees_ok (field d (lit "wind") (lit "deg"))
  && absent_or is_str (condition d (lit "main"))
  && absent_or is_dict (dict_get (lit "clouds") d).

(** A response of the shape the renderer counts on: it gets through it, and
    the timestamps that are there are not taken for absent. *)
Definition well_shaped (d : pdict) : bool :=
  renderable d
  && time_present (field d (lit "sys") (lit "sunrise"))
  && time_present (field d (lit "sys") (lit "sunset")).

(** A response whose [cod] is the success sentinel. *)
Definition successful (d : pdict) : bool :=
  match dict_get (lit "cod") d with
  | Some c => py_eq_int c 200
  | None => false
  end.

Definition unit_symbol (app : WeatherApp) : str :=
  if str_eqb (units app) (lit "metric") then celsius_sign else fahrenheit_sign.

(** The report of a well-shaped successful response, line by line. *)
Definition report (app : WeatherApp) (d : pdict) : list output :=
  [ Print (newline ++ rule "=" 50);
    Print (forecast_line
             (match dict_get (lit "name") d with
              | Some v => py_str rt v
              | None => lit "Unknown"
              end)
             (match field d (lit "sys") (lit "country") with
              | Some v => py_str rt v
              | None => []
              end));
    Print (rule "=" 50);
    Print (conditions_line
             (match condition d (lit "description") with
              | Some (PStr s) => title rt s
              | _ => lit "N/A"
              end));
    Print (temperature_line (shown (field d (lit "main") (lit "temp")))
             (unit_symbol app)
             (shown (field d (lit "main") (lit "feels_like"))));
    Print (humidity_line (shown (field d (lit "main") (lit "humidity"))));
    Print (pressure_line (shown (field d (lit "main") (lit "pressure"))));
    Print (wind_speed_line (shown (field d (lit "wind") (lit "speed")))) ]
  ++ match field d (lit "wind") (lit "deg") with
     | None => []
     | Some v =>
         if py_eq_str v (lit "N/A") then []
         else
           [ Print (wind_direction_line
                      (match wind_direction v with Ok p => p | Raise _ => [] end)
                      (py_str rt v)) ]
     end
  ++ [ Print (match dict_get (lit "visibility") d with
              | None => visibility_line (lit "N/A")
              | Some v =>
                  if py_eq_str v (lit "N/A") then visibility_line (lit "N/A")
                  else visibility_line (py_str rt v ++ lit " meters")
              end);
       Print (sunrise_line (shown_time (field d (lit "sys") (lit "sunrise"))));
       Print (sunset_line (shown_time (field d (lit "sys") (lit "sunset"))));
       Print (newline ++ rule "-" 30);
       Print (lit "Additional Details:");
       Print (rule "-" 30);
       Print (icon_line
                (match condition d (lit "main") with
                 | Some (PStr s) => icons_get (lower rt s) icons rainbow
                 | _ => rainbow
                 end));
       Print (cloud_line (shown (field d (lit "clouds") (lit "all"))));
       Print (rule "=" 50 ++ newline) ].

End Reports.

(** *** A runtime and a world for examples *)

(** ASCII text only, a platform whose local time is UTC, a parser that takes
    nothing for JSON, and a network that always gives the same answer. *)
Definition runtime_answering (answer : http_result) : Runtime :=
  {| uni_isspace := fun _ => false;
     uni_isdigit := fun _ => false;
     uni_lower := fun s => s;
     uni_title := fun s => s;
     py_repr := fun _ => lit "<object>";
     localtime := fun t =>
       Ok ((t mod 86400) / 3600, ((t mod 3600) / 60), t mod 60);
     json_loads := fun _ => None;
     json_raises := fun _ => None;
     error_text := fun _ _ => lit "request failed";
     network := fun _ _ => answer |}.

(** The same with a network that is down. *)
Definition sample_runtime : Runtime :=
  runtime_answering (ConnectionFailed (lit "connection refused")).

Definition sample_world (lines : list str) : world :=
  {| self := init (lit "KEY"); stdin := lines; stdout := []; sent := [] |}.

(** The value a lookup with a default gives. *)
Definition or_default (o : option pyval) (default : pyval) : pyval :=
  match o with
  | Some v => v
  | None => default
  end.

(** A computation that only prints: wherever the object is [app], it adds
    [out] to the console and ends in [r]. *)
Definition emits {A} (c : IO A) (app : WeatherApp) (out : list output)
  (r : result A) : Prop :=
  forall w, self w = app -> c w = (printed w out, r).

(** *** What a call leaves unchanged *)

Definition thermometer : str := [0x1F321; 0xFE0F]%N.

(** A console output that, if it is a temperature line, carries the unit
    symbol of [app]. *)
Definition line_ok (app : WeatherApp) (o : output) : Prop :=
  forall l, o = Print l -> starts_with thermometer l = true ->
  exists temp feels_like, l = temperature_line temp (unit_symbol app) feels_like.

(** A request that asks for the units of [app]. *)
Definition req_ok (app : WeatherApp) (rq : request) : Prop :=
  In (lit "units", units app) (req_params rq).

(** From [w] to [w'] the object stayed [app], and what was printed and
    requested in between went by its units. *)
Definition keeps (app : WeatherApp) (w w' : world) : Prop :=
  self w' = app
  /\ exists out rqs,
       stdout w' = stdout w ++ out /\ sent w' = sent w ++ rqs
       /\ Forall (line_ok app) out /\ Forall (req_ok app) rqs.

Definition safe {A} (app : WeatherApp) (c : IO A) : Prop :=
  forall w, self w = app -> keeps app w (fst (c w)).

(** A computation that only prints: first [out], then outputs with the
    property [P]. *)
Definition emits_first {A} (P : output -> Prop) (c : IO A) (app : WeatherApp)
  (out : list output) : Prop :=
  forall w, self w = app ->
  exists more r, c w = (printed w (out ++ more), r) /\ Forall P more.

(** A computation that only prints, and prints nothing but outputs with the
    property [P], wherever the object is [app]. *)
Definition prints_only {A} (P : output -> Prop) (app : WeatherApp) (c : IO A)
  : Prop :=
  forall w, self w = app ->
  exists out r, c w = (printed w out, r) /\ Forall P out.

(** The calls a session is made of; the menu loop of [run] goes on after a
    call that raised. *)
Inductive call :=
| GetWeatherByCity (city_name : str)
| GetWeatherByZip (zip_code country_code : str)
| DisplayWeather (weather_data : pyval)
| CheckWeather
| SetUnits (u : str)
| ChangeUnits.

Definition changes_units (c : call) : bool :=
  match c with
  | SetUnits _ | ChangeUnits => true
  | _ => false
  end.

Section Sessions.

Context (rt : Runtime).

Definition perform (c : call) : IO unit :=
  match c with
  | GetWeatherByCity city_name => _ <- get_weather_by_city rt city_name ;; ret tt
  | GetWeatherByZip zip_code country_code =>
      _ <- get_weather_by_zip rt zip_code country_code ;; ret tt
  | DisplayWeather weather_data => display_weather rt weather_data
  | CheckWeather => check_weather rt
  | SetUnits u => set_units rt u
  | ChangeUnits => change_units rt
  end.

Fixpoint session (calls : list call) (w : world) : world :=
  match calls with
  | [] => w
  | c :: calls' => session calls' (fst (perform c w))
  end.

(** The three ways a fetch fails with a [RequestException]: no connection,
    an error status (the ones [raise_for_status] raises for, 400 to 599), a
    body that is not JSON and for which [json] raises its
    [JSONDecodeError]. *)
Inductive fetch_failure : http_result -> Prop :=
| failure_connection message :
    fetch_failure (ConnectionFailed message)
| failure_status status reason body :
    400 <= status < 600 -> fetch_failure (Responded status reason body)
| failure_body status reason body :
    json_loads rt body = None -> json_raises rt body = None ->
    fetch_failure (Responded status reason body).

(** The country a postal code is sent with, given the answer to the prompt. *)
Definition country_of (answer : str) : str :=
  match strip rt answer with
  | [] => lit "US"
  | _ => strip rt answer
  end.

(** The request [get_weather_by_city] sends. *)
Definition city_request (app : WeatherApp) (city_name : str) : request :=
  {| req_url := base_url app;
     req_params := [ (lit "q", city_name); (lit "appid", api_key app);
                     (lit "units", units app); (lit "lang", lit "en") ] |}.

(** The request [get_weather_by_zip] sends. *)
Definition zip_request (app : WeatherApp) (zip_code country_code : str) : request :=
  {| req_url := base_url app;
     req_params := [ (lit "zip", zip_code ++ lit "," ++ country_code);
                     (lit "appid", api_key app);
                     (lit "units", units app); (lit "lang", lit "en") ] |}.

End Sessions.

(** The unit preference [unit_name], shown as [symbol], holds from the world
    [w1] through the calls [calls]: the object still has it afterwards, every
    request sent meanwhile asks for it and every temperature line printed
    meanwhile shows it, and so do the next fetch and the next rendering of a
    well-shaped successful response. *)
Definition preference_holds (rt : Runtime) (unit_name symbol : str)
  (w1 : world) (calls : list call) : Prop :=
  let w2 := session rt calls w1 in
  units (self w2) = unit_name
  /\ (exists out rqs,
        stdout w2 = stdout w1 ++ out /\ sent w2 = sent w1 ++ rqs
        /\ Forall (fun rq => In (lit "units", unit_name) (req_params rq)) rqs
        /\ Forall (fun o => forall l, o = Print l ->
                            starts_with thermometer l = true ->
                            exists temp feels_like,
                              l = temperature_line temp symbol feels_like) out)
  /\ (forall city_name,
        exists rq, sent (fst (get_weather_by_city rt city_name w2)) = sent w2 ++ [rq]
                   /\ In (lit "units", unit_name) (req_params rq))
  /\ (forall zip_code country_code,
        exists rq,
          sent (fst (get_weather_by_zip rt zip_code country_code w2)) = sent w2 ++ [rq]
          /\ In (lit "units", unit_name) (req_params rq))
  /\ (forall d, successful d = true -> well_shaped rt d = true ->
        exists temp feels_like lines,
          display_weather rt (PDict d) w2 = (printed w2 lines, Ok tt)
          /\ In (Print (temperature_line temp symbol feels_like)) lines).

(** ** The menu loop and the start of the program *)

(** What these take from outside besides the [Runtime]: [str(e)] of an
    exception caught by a handler, which failures of a request are a
    [requests.exceptions.ConnectionError], and whether the user interrupts
    the program.  An interrupt is taken to arrive while the menu waits for
    the choice, and nowhere else: the turns and the runs of [main] described
    here are those in which no interrupt arrives inside an action of the
    menu, during the probe or at the prompt of the demo mode.  Every
    exception of [exn] is of the class [Exception], so [except Exception]
    catches all of them. *)
Record Host := {
  exception_text : exn -> str;
  is_connection_error : http_result -> bool;
  interrupted : world -> bool
}.

(** [try: body except Exception as e: handler(e)] *)
Definition try_except {A} (body : IO A) (handler : exn -> IO A) : IO A :=
  fun w =>
    match body w with
    | (w', Raise e) => handler e w'
    | (w', Ok a) => (w', Ok a)
    end.

(** An [input(prompt)] that is interrupted: the prompt is shown, no line is
    read. *)
Definition interrupted_input (prompt : str) : IO unit :=
  fun w =>
    ({| self := self w; stdin := stdin w;
        stdout := stdout w ++ [Prompt prompt]; sent := sent w |}, Ok tt).

(** [app = WeatherApp(key)] *)
Definition new_app (key : str) : IO unit :=
  fun w =>
    ({| self := {| api_key := key;
                   base_url := lit "http://api.openweathermap.org/data/2.5/weather";
                   units := lit "metric" |};
        stdin := stdin w; stdout := stdout w; sent := sent w |}, Ok tt).

(** [display_demo_weather] *)
Definition display_demo_weather : IO unit :=
  print (newline ++ str_repeat (lit "=") 50) ;;
  print (lit "DEMO WEATHER DATA - LONDON (Sample)") ;;
  print (str_repeat (lit "=") 50) ;;
  print (newline ++ [0x1F324; 0xFE0F]%N ++ lit "  Current Conditions: Clear Sky") ;;
  print ([0x1F321; 0xFE0F]%N ++ lit "  Temperature: 22" ++ [0xB0]%N
         ++ lit "C (Feels like: 21" ++ [0xB0]%N ++ lit "C)") ;;
  print ([0x1F4A7]%N ++ lit " Humidity: 65%") ;;
  print ([0x1F4CA]%N ++ lit " Pressure: 1013 hPa") ;;
  print ([0x1F4A8]%N ++ lit " Wind Speed: 5.5 m/s") ;;
  print ([0x1F9ED]%N ++ lit " Wind Direction: NW (315" ++ [0xB0]%N ++ lit ")") ;;
  print ([0x1F441; 0xFE0F]%N ++ lit "  Visibility: 10000 meters") ;;
  print ([0x1F305]%N ++ lit " Sunrise: 06:45:00") ;;
  print ([0x1F307]%N ++ lit " Sunset: 18:30:00") ;;
  print (newline ++ str_repeat (lit "-") 30) ;;
  print (lit "Additional Details:") ;;
  print (str_repeat (lit "-") 30) ;;
  print (lit "Weather Icon: " ++ [0x2600; 0xFE0F]%N) ;;
  print ([0x2601; 0xFE0F]%N ++ lit "  Cloud Coverage: 0%") ;;
  print (str_repeat (lit "=") 50).

Section Program.

Context (rt : Runtime) (host : Host).

(** One turn of the [while True] of [WeatherApp.run]: the [try] with its two
    handlers.  The result tells whether the loop is left ([break]). *)
Definition run_turn : IO bool :=
  fun w =>
    if interrupted host w then
      (print (newline ++ str_repeat (lit "-") 30) ;;
       print (lit "MAIN MENU") ;;
       print (str_repeat (lit "-") 30) ;;
       print (lit "1. Check weather by location") ;;
       print (lit "2. Change temperature units") ;;
       print (lit "3. Exit") ;;
       interrupted_input (newline ++ lit "Enter your choice (1-3): ") ;;
       (* except KeyboardInterrupt *)
       print (newline ++ newline ++ lit "Program interrupted. Exiting...") ;;
       ret true) w
    else
      try_except
        (print (newline ++ str_repeat (lit "-") 30) ;;
         print (lit "MAIN MENU") ;;
         print (str_repeat (lit "-") 30) ;;
         print (lit "1. Check weather by location") ;;
         print (lit "2. Change temperature units") ;;
         print (lit "3. Exit") ;;
         line <- input (newline ++ lit "Enter your choice (1-3): ") ;;
         let choice := strip rt line in
         if str_eqb choice (lit "1") then
           check_weather rt ;; ret false
         else if str_eqb choice (lit "2") then
           change_units rt ;; ret false
         else if str_eqb choice (lit "3") then
           print (newline ++ lit "Thank you for using the Weather App! Goodbye! "
                  ++ [0x1F44B]%N) ;;
           ret true
         else
           print (lit "Invalid choice. Please enter 1, 2, or 3.") ;;
           ret false)
        (* except Exception as e *)
        (fun e =>
           print (lit "An unexpected error occurred: " ++ exception_text host e) ;;
           ret false) w.

(** The loop of [run], for at most [turns] turns; the result tells whether
    the loop was left within them. *)
Fixpoint run_loop (turns : nat) : IO bool :=
  match turns with
  | O => ret false
  | S turns' =>
      stop <- run_turn ;;
      if stop then ret true else run_loop turns'
  end.

(** [WeatherApp.run], for at most [turns] turns of its loop. *)
Definition run (turns : nat) : IO bool :=
  print (str_repeat (lit "=") 50) ;;
  print ([0x1F324; 0xFE0F]%N ++ lit "  BASIC WEATHER APPLICATION "
         ++ [0x1F324; 0xFE0F]%N) ;;
  print (str_repeat (lit "=") 50) ;;
  print (newline ++ lit "Welcome to the Weather App!") ;;
  print (lit "You can search weather by city name or ZIP code.") ;;
  run_loop turns.

Definition API_KEY : str := lit "YOUR_API_KEY_HERE".

Definition test_url : str :=
  lit "http://api.openweathermap.org/data/2.5/weather?q=London&appid=" ++ API_KEY.

(** The request of the probe: [requests.get(test_url, timeout=10)]. *)
Definition probe_request : request := {| req_url := test_url; req_params := [] |}.

(** [main], with at most [turns] turns of the menu loop.  The result tells
    whether [main] came to its end within them. *)
Definition main (turns : nat) : IO bool :=
  print ([0x1F510]%N ++ lit " Testing your OpenWeatherMap API key...") ;;
  fun w =>
    let w' := {| self := self w; stdin := stdin w; stdout := stdout w;
                 sent := sent w ++ [probe_request] |} in
    let on_exception (text : str) : IO bool :=
      print ([0x274C]%N ++ lit " Error: " ++ text) ;;
      print (newline ++ lit "Trying demo mode...") ;;
      display_demo_weather ;;
      ret true in
    match network rt (sent w) probe_request with
    | ConnectionFailed message =>
        if is_connection_error host (ConnectionFailed message) then
          (print ([0x274C]%N
                  ++ lit " No internet connection. Please check your network.") ;;
           ret true) w'
        else
          on_exception (error_text rt probe_request (ConnectionFailed message)) w'
    | Responded status reason body =>
        try_except
          (if status =? 200 then
             print ([0x2705]%N ++ lit " API key is VALID and working!") ;;
             print (lit "Starting Weather App..." ++ newline) ;;
             (* Create and run the weather app *)
             new_app API_KEY ;;
             run turns
           else if status =? 401 then
             print ([0x274C]%N ++ lit " ERROR 401: Invalid API Key") ;;
             print (newline ++ lit "Don't worry! This usually means:") ;;
             print (lit "1. Your key needs 10-15 minutes to activate (just wait)") ;;
             print (lit "2. Check if you verified your email") ;;
             print (lit "3. Make sure you're using HTTP (not HTTPS)") ;;
             print (newline ++ lit "Your key: YOUR_API_KEY_HERE") ;;
             print (lit "Key length: 32 characters " ++ [0x2713]%N) ;;
             (* Offer to test in browser *)
             print (newline ++ [0x1F4A1]%N ++ lit " Quick test in browser:") ;;
             print (lit "Open: http://api.openweathermap.org/data/2.5/weather?q=London&appid="
                    ++ API_KEY) ;;
             (* Try demo mode *)
             line <- input (newline ++ lit "Use demo mode while waiting? (yes/no): ") ;;
             let choice := lower rt (strip rt line) in
             if str_eqb choice (lit "yes") then display_demo_weather ;; ret true
             else ret true
           else
             print ([0x26A0; 0xFE0F]%N ++ lit "  Status " ++ str_of_int status
                    ++ lit ": " ++ firstn 100 body) ;;
             ret true)
          (fun e => on_exception (exception_text host e)) w'
    | Raised e => on_exception (exception_text host e) w'
    end.

End Program.

(** *** What the menu loop and the start of the program show and send *)

(** The banner [run] starts with. *)
Definition banner_lines : list output :=
  [ Print (rule "=" 50);
    Print ([0x1F324; 0xFE0F]%N ++ lit "  BASIC WEATHER APPLICATION "
           ++ [0x1F324; 0xFE0F]%N);
    Print (rule "=" 50);
    Print (newline ++ lit "Welcome to the Weather App!");
    Print (lit "You can search weather by city name or ZIP code.") ].

(** The menu with the prompt for the choice. *)
Definition menu_lines : list output :=
  [ Print (newline ++ rule "-" 30);
    Print (lit "MAIN MENU");
    Print (rule "-" 30);
    Print (lit "1. Check weather by location");
    Print (lit "2. Change temperature units");
    Print (lit "3. Exit");
    Prompt (newline ++ lit "Enter your choice (1-3): ") ].

Definition farewell_line : str :=
  newline ++ lit "Thank you for using the Weather App! Goodbye! " ++ [0x1F44B]%N.

Definition invalid_choice_line : str := lit "Invalid choice. Please enter 1, 2, or 3.".

Definition interrupted_line : str :=
  newline ++ newline ++ lit "Program interrupted. Exiting...".

Definition unexpected_error_line (text : str) : str :=
  lit "An unexpected error occurred: " ++ text.

(** The menu of the units with its prompt. *)
Definition units_menu_lines : list output :=
  [ Print (newline ++ rule "-" 30);
    Print (lit "TEMPERATURE UNITS");
    Print (rule "-" 30);
    Print (lit "1. Celsius (" ++ celsius_sign ++ lit ")");
    Print (lit "2. Fahrenheit (" ++ fahrenheit_sign ++ lit ")");
    Prompt (newline ++ lit "Choose temperature unit (1 or 2): ") ].

(** The static report of the demo mode. *)
Definition demo_lines : list output :=
  [ Print (newline ++ rule "=" 50);
    Print (lit "DEMO WEATHER DATA - LONDON (Sample)");
    Print (rule "=" 50);
    Print (conditions_line (lit "Clear Sky"));
    Print (temperature_line (lit "22") celsius_sign (lit "21"));
    Print (humidity_line (lit "65"));
    Print (pressure_line (lit "1013"));
    Print (wind_speed_line (lit "5.5"));
    Print (wind_direction_line (lit "NW") (lit "315"));
    Print (visibility_line (lit "10000 meters"));
    Print (sunrise_line (lit "06:45:00"));
    Print (sunset_line (lit "18:30:00"));
    Print (newline ++ rule "-" 30);
    Print (lit "Additional Details:");
    Print (rule "-" 30);
    Print (icon_line [0x2600; 0xFE0F]%N);
    Print (cloud_line (lit "0"));
    Print (rule "=" 50) ].

Definition probe_line : str :=
  [0x1F510]%N ++ lit " Testing your OpenWeatherMap API key...".

(** What [main] prints on the status 401 before it asks about the demo
    mode. *)
Definition invalid_key_lines : list output :=
  [ Print ([0x274C]%N ++ lit " ERROR 401: Invalid API Key");
    Print (newline ++ lit "Don't worry! This usually means:");
    Print (lit "1. Your key needs 10-15 minutes to activate (just wait)");
    Print (lit "2. Check if you verified your email");
    Print (lit "3. Make sure you're using HTTP (not HTTPS)");
    Print (newline ++ lit "Your key: YOUR_API_KEY_HERE");
    Print (lit "Key length: 32 characters " ++ [0x2713]%N);
    Print (newline ++ [0x1F4A1]%N ++ lit " Quick test in browser:");
    Print (lit "Open: " ++ test_url);
    Prompt (newline ++ lit "Use demo mode while waiting? (yes/no): ") ].

(** What the last handler of [main] prints for an exception with the text
    [text]: the error, and the demo report. *)
Definition fallback_lines (text : str) : list output :=
  [ Print ([0x274C]%N ++ lit " Error: " ++ text);
    Print (newline ++ lit "Trying demo mode...") ] ++ demo_lines.

Definition status_line (status : Z) (body : str) : str :=
  [0x26A0; 0xFE0F]%N ++ lit "  Status " ++ str_of_int status ++ lit ": "
    ++ firstn 100 body.

Definition no_connection_line : str :=
  [0x274C]%N ++ lit " No internet connection. Please check your network.".

(** The world [w] with the lines [rest] left to read. *)
Definition reading (w : world) (rest : list str) : world :=
  {| self := self w; stdin := rest; stdout := stdout w; sent := sent w |}.

(** The endpoint every [WeatherApp] object is made with. *)
Definition endpoint : str := lit "http://api.openweathermap.org/data/2.5/weather".

(** An object as [WeatherApp(key)] makes it and the menu may leave it: the
    key and the endpoint as made, the units one of the two names. *)
Definition app_ok (key : str) (app : WeatherApp) : Prop :=
  api_key app = key /\ base_url app = endpoint
  /\ (units app = lit "metric" \/ units app = lit "imperial").

(** A request for the weather of a city or a postal code, made with the key
    [key]. *)
Definition weather_request (key : str) (rq : request) : Prop :=
  req_url rq = endpoint
  /\ exists selector location unit_name,
       (selector = lit "q" \/ selector = lit "zip")
       /\ (unit_name = lit "metric" \/ unit_name = lit "imperial")
       /\ req_params rq = [ (selector, location); (lit "appid", key);
                            (lit "units", unit_name); (lit "lang", lit "en") ].

(** From [w] to [w'] the object stayed one made with [key], and all that was
    sent were requests for the weather made with that key. *)
Definition steady (key : str) (w w' : world) : Prop :=
  app_ok key (self w')
  /\ exists rqs, sent w' = sent w ++ rqs /\ Forall (weather_request key) rqs.

(** A computation that keeps to that wherever it is run. *)
Definition orderly {A} (key : str) (c : IO A) : Prop :=
  forall w, app_ok key (self w) -> steady key w (fst (c w)).

(** A choice of the main menu that is none of its three. *)
Definition no_choice (rt : Runtime) (line : str) : Prop :=
  strip rt line <> lit "1" /\ strip rt line <> lit "2" /\ strip rt line <> lit "3".

(** A runtime like [runtime_answering], whose parser reads [data] from every
    body. *)
Definition runtime_parsing (answer : http_result) (data : pyval) : Runtime :=
  {| uni_isspace := fun _ => false;
     uni_isdigit := fun _ => false;
     uni_lower := fun s => s;
     uni_title := fun s => s;
     py_repr := fun _ => lit "<object>";
     localtime := fun t =>
       Ok ((t mod 86400) / 3600, ((t mod 3600) / 60), t mod 60);
     json_loads := fun _ => Some data;
     json_raises := fun _ => None;
     error_text := fun _ _ => lit "request failed";
     network := fun _ _ => answer |}.

(** A body that is no JSON for the parser: a list with one number of 4301
    digits, one more than [int] takes from text. *)
Definition long_number_body : str := lit "[" ++ repeat 49%N 4301 ++ lit "]".

(** A runtime like [runtime_answering], whose parser raises [e] on the body
    [bad], and its [JSONDecodeError] on every other one. *)
Definition runtime_choking (answer : http_result) (bad : str) (e : exn)
  : Runtime :=
  {| uni_isspace := fun _ => false;
     uni_isdigit := fun _ => false;
     uni_lower := fun s => s;
     uni_title := fun s => s;
     py_repr := fun _ => lit "<object>";
     localtime := fun t =>
       Ok ((t mod 86400) / 3600, ((t mod 3600) / 60), t mod 60);
     json_loads := fun _ => None;
     json_raises := fun body => if str_eqb body bad then Some e else None;
     error_text := fun _ _ => lit "request failed";
     network := fun _ _ => answer |}.

(** A host on which nobody interrupts, every failed request is a connection
    error, and an exception prints as a fixed text. *)
Definition sample_host : Host :=
  {| exception_text := fun e =>
       match e with
       | EOFError => lit "EOF when reading a line"
       | AttributeError => lit "'list' object has no attribute 'get'"
       | _ => lit "error"
       end;
     is_connection_error := fun _ => true;
     interrupted := fun _ => false |}.

(** * Properties *)

(** ** Computations that only print *)

Lemma printed_nil (w : world) : printed w [] = w.
Proof. destruct w. unfold printed. simpl. now rewrite app_nil_r. Qed.

Lemma printed_app (w : world) (a b : list output) :
  printed (printed w a) b = printed w (a ++ b).
Proof. unfold printed. simpl. now rewrite app_assoc. Qed.

Lemma prints_only_lift {A} (P : output -> Prop) (app : WeatherApp)
  (r : result A) :
  prints_only P app (lift r).
Proof.
  intros w _. exists [], r. rewrite printed_nil. split; [reflexivity | constructor].
Qed.

Lemma prints_only_ret {A} (P : output -> Prop) (app : WeatherApp) (a : A) :
  prints_only P app (ret a).
Proof.
  intros w _. exists [], (Ok a). rewrite printed_nil.
  split; [reflexivity | constructor].
Qed.

Lemma prints_only_print (P : output -> Prop) (app : WeatherApp) (l : str) :
  P (Print l) -> prints_only P app (print l).
Proof.
  intros H w _. exists [Print l], (Ok tt).
  split; [reflexivity | now constructor].
Qed.

Lemma prints_only_bind {A B} (P : output -> Prop) (app : WeatherApp)
  (c : IO A) (k : A -> IO B) :
  prints_only P app c -> (forall a, prints_only P app (k a)) ->
  prints_only P app (bind c k).
Proof.
  intros Hc Hk w Hw. unfold bind.
  destruct (Hc w Hw) as [o1 [r [-> H1]]].
  destruct r as [a|e].
  - destruct (Hk a (printed w o1) Hw) as [o2 [r' [-> H2]]].
    exists (o1 ++ o2), r'. rewrite printed_app.
    split; [reflexivity | now apply Forall_app].
  - now exists o1, (Raise e).
Qed.

Lemma prints_only_bind_result {A B} (P : output -> Prop) (app : WeatherApp)
  (r : result A) (k : A -> IO B) :
  (forall a, r = Ok a -> prints_only P app (k a)) ->
  prints_only P app (bind (lift r) k).
Proof.
  intros Hk w Hw. unfold bind, lift. destruct r as [a|e].
  - now apply Hk.
  - exists [], (Raise e). rewrite printed_nil. split; [reflexivity | constructor].
Qed.

Lemma prints_only_bind_self {B} (P : output -> Prop) (app : WeatherApp)
  (k : WeatherApp -> IO B) :
  prints_only P app (k app) -> prints_only P app (bind get_self k).
Proof.
  intros Hk w Hw. unfold bind, get_self. rewrite Hw. now apply Hk.
Qed.

Lemma prints_only_if {A} (P : output -> Prop) (app : WeatherApp) (b : bool)
  (c1 c2 : IO A) :
  prints_only P app c1 -> prints_only P app c2 ->
  prints_only P app (if b then c1 else c2).
Proof. now destruct b. Qed.

(** Walks through a computation; [line] is to prove the property of each
    printed line.  A step whose result is known is taken with that result. *)
Ltac prints_only_step line :=
  lazymatch goal with
  | |- prints_only _ _ (bind get_self _) => apply prints_only_bind_self
  | |- prints_only _ _ (bind (lift (Ok _)) _) =>
      apply prints_only_bind_result;
      let a := fresh "a" in
      let E := fresh "E" in
      intros a E; injection E as <-
  | |- prints_only _ _ (bind (lift (Raise _)) _) =>
      apply prints_only_bind_result;
      let a := fresh "a" in
      let E := fresh "E" in
      intros a E; discriminate E
  | |- prints_only _ _ (bind _ _) => apply prints_only_bind; [|intros ?]
  | |- prints_only _ _ (if _ then _ else _) => apply prints_only_if
  | |- prints_only _ _ (lift _) => apply prints_only_lift
  | |- prints_only _ _ (ret _) => apply prints_only_ret
  | |- prints_only _ _ (print _) => apply prints_only_print; line
  end.

Ltac prints_only_steps line := repeat (prints_only_step line).

(** For a line that is no temperature line. *)
Ltac other_line :=
  let l := fresh "l" in
  let E := fresh "E" in
  let H := fresh "H" in
  intros l E H; injection E as <-;
  repeat match type of H with
         | context [if ?b then _ else _] => destruct b
         end;
  discriminate H.

(** ** Input classification *)

Section Classification.

Context (rt : Runtime).

Lemma str_replace_hyphen (s : str) :
  str_replace hyphen [] s = without_hyphens s.
Proof.
  unfold str_replace, without_hyphens, char_eqb.
  induction s as [|c s IH]; simpl; [reflexivity|].
  rewrite IH. now destruct (N.eqb c hyphen).
Qed.

Lemma isspace_blank (s : str) :
  (match s with [] => true | _ => false end || isspace rt s) = true <-> blank rt s.
Proof.
  unfold blank. destruct s as [|c s]; simpl.
  - split; [constructor | reflexivity].
  - rewrite Forall_forall. split.
    + intros H x Hx. apply andb_true_iff in H. destruct H as [Hc Hs].
      destruct Hx as [<-|Hx]; [assumption|].
      rewrite forallb_forall in Hs. now apply Hs.
    + intros H. apply andb_true_iff. split.
      * apply H. now left.
      * apply forallb_forall. intros x Hx. apply H. now right.
Qed.

Lemma forallb_digits_without_hyphens (s : str) :
  forallb (char_isdigit rt) (without_hyphens s) = true <-> digits_and_hyphens rt s.
Proof.
  unfold digits_and_hyphens, without_hyphens.
  induction s as [|c s IH]; simpl.
  - split; [constructor | reflexivity].
  - destruct (N.eqb_spec c hyphen) as [->|Hne]; simpl.
    + rewrite IH. split.
      * intros H. constructor; [now right | assumption].
      * intros H. now inversion H.
    + rewrite andb_true_iff, IH. split.
      * intros [Hc Hs]. constructor; [now left | assumption].
      * intros H. inversion H as [|? ? [Hd|He] Hs]; subst; [now split | contradiction].
Qed.

Lemma isdigit_forallb (s : str) :
  isdigit rt s = true <-> (s <> [] /\ forallb (char_isdigit rt) s = true).
Proof.
  destruct s as [|c s]; simpl.
  - split; [discriminate | intros [H _]; now elim H].
  - split; [intros H; split; [discriminate | exact H] | intros [_ H]; exact H].
Qed.

(** C1.  An input that is empty or whitespace-only is rejected; any other
    input made of digits and hyphens only, with at least five characters left
    once the hyphens are taken out, is a postal code; every other non-empty
    input is a city. *)
Theorem validate_input_classification (s : str) :
  (blank rt s -> validate_input rt s = (false, lit "Input cannot be empty."))
  /\ (~ blank rt s ->
      digits_and_hyphens rt s ->
      (5 <= List.length (without_hyphens s))%nat ->
      validate_input rt s = (true, lit "zip"))
  /\ (~ blank rt s ->
      ~ (digits_and_hyphens rt s /\ (5 <= List.length (without_hyphens s))%nat) ->
      validate_input rt s = (true, lit "city")).
Proof.
  unfold validate_input. rewrite str_replace_hyphen.
  destruct (match s with [] => true | _ => false end || isspace rt s) eqn:Hb.
  - apply isspace_blank in Hb.
    split; [reflexivity | split; intros Hnb; contradiction].
  - assert (Hnb : ~ blank rt s).
    { intros H. apply isspace_blank in H. congruence. }
    split; [intros H; contradiction|].
    destruct (isdigit rt (without_hyphens s)) eqn:Hd.
    + apply isdigit_forallb in Hd. destruct Hd as [_ Hd].
      apply forallb_digits_without_hyphens in Hd.
      destruct (5 <=? Z.of_nat (List.length (without_hyphens s))) eqn:Hl.
      * apply Z.leb_le in Hl. split; intros; [reflexivity|].
        exfalso. apply H0. split; [assumption | lia].
      * apply Z.leb_gt in Hl. split; intros; [lia | reflexivity].
    + split; intros _ H; [|reflexivity].
      intros Hl. exfalso.
      assert (Hne : without_hyphens s <> []).
      { intros E. rewrite E in Hl. simpl in Hl. lia. }
      apply forallb_digits_without_hyphens in H.
      assert (isdigit rt (without_hyphens s) = true)
        by (apply isdigit_forallb; now split).
      congruence.
Qed.

End Classification.

(** ** Wind direction *)

Section Compass.

Lemma div_half_even_unique (a b k : Z) :
  0 < b -> 2 * Z.abs (a - k * b) < b -> div_half_even a b = k.
Proof.
  intros Hb H. unfold div_half_even.
  pose proof (Z.div_mod a b ltac:(lia)) as E.
  pose proof (Z.mod_pos_bound a b Hb) as Hr.
  remember (a / b) as q. remember (a mod b) as r.
  assert (Hj : q - k = 0 \/ q - k = -1).
  { assert (- 2 < q - k < 1); [|lia].
    replace (a - k * b) with (b * (q - k) + r) in H by lia. nia. }
  destruct Hj as [Hj|Hj].
  - assert (k = q) by lia. subst k.
    replace (a - q * b) with r in H by lia.
    destruct (Z.ltb_spec (2 * r) b); [reflexivity | lia].
  - assert (k = q + 1) by lia. subst k.
    replace (a - (q + 1) * b) with (r - b) in H by lia.
    destruct (Z.ltb_spec (2 * r) b); [lia|].
    destruct (Z.ltb_spec b (2 * r)); [reflexivity | lia].
Qed.

Lemma div_half_even_45 (a : Z) :
  2 * Z.abs (a - div_half_even a 45 * 45) < 45.
Proof.
  unfold div_half_even.
  pose proof (Z.div_mod a 45 ltac:(lia)) as E.
  pose proof (Z.mod_pos_bound a 45 ltac:(lia)) as Hr.
  remember (a / 45) as q. remember (a mod 45) as r.
  destruct (Z.ltb_spec (2 * r) 45); [lia|].
  destruct (Z.ltb_spec 45 (2 * r)); lia.
Qed.

Lemma div_half_even_45_opp (a : Z) :
  div_half_even (- a) 45 = - div_half_even a 45.
Proof.
  apply div_half_even_unique; [lia|].
  pose proof (div_half_even_45 a). lia.
Qed.

Lemma div_half_even_45_turn (a : Z) :
  div_half_even (a + 360) 45 = div_half_even a 45 + 8.
Proof.
  apply div_half_even_unique; [lia|].
  pose proof (div_half_even_45 a). lia.
Qed.

(** Rounding the quotient by 45 to a multiple of [1/P] first, with [P] above
    44, does not change the integer it rounds to. *)
Lemma div_half_even_twice (a P : Z) :
  44 < P ->
  div_half_even (div_half_even (a * P) 45) P = div_half_even a 45.
Proof.
  intros HP. apply div_half_even_unique; [lia|].
  pose proof (div_half_even_45 (a * P)) as H1.
  pose proof (div_half_even_45 a) as H2.
  remember (div_half_even (a * P) 45) as m.
  remember (div_half_even a 45) as k.
  assert (E : 45 * (m - k * P) = (45 * m - a * P) + P * (a - 45 * k)) by ring.
  assert (- 22 <= a - 45 * k <= 22) by lia.
  assert (- 22 <= 45 * m - a * P <= 22) by lia.
  assert (- 22 * P <= P * (a - 45 * k) <= 22 * P) by nia.
  lia.
Qed.

Lemma binade_45 (n : Z) :
  0 < n < 45 * 2 ^ 47 -> binade n 45 <= 46.
Proof.
  intros Hn. unfold binade.
  change (Z.log2 45) with 5.
  assert (Hl : Z.log2 n < 53).
  { apply Z.log2_lt_pow2; [lia|].
    change (2 ^ 53) with 9007199254740992.
    change (45 * 2 ^ 47) with 6333186975989760 in Hn. lia. }
  remember (Z.log2 n - 5) as s.
  destruct (Z.ltb_spec (n * 2 ^ Z.max 0 (- s)) (45 * 2 ^ Z.max 0 s)) as [_|Hge];
    [lia|].
  destruct (Z.eq_dec s 47) as [->|]; [|lia].
  exfalso. rewrite Z.max_r, Z.max_l in Hge by lia.
  change (45 * 2 ^ 47) with 6333186975989760 in Hn, Hge.
  change (2 ^ 0) with 1 in Hge. lia.
Qed.

(** Below [45 * 2^47] the rounded quotient [d / 45] rounds to the integer
    nearest to the exact quotient. *)
Lemma truediv_45_round (d : Z) :
  Z.abs d < 45 * 2 ^ 47 ->
  exists x, int_truediv d 45 = Ok x /\ py_round x = Ok (div_half_even d 45).
Proof.
  intros Hd. unfold int_truediv. change (45 =? 0) with false. cbv iota.
  destruct (Z.eqb_spec d 0) as [->|Hnz].
  { eexists. split; [reflexivity|]. reflexivity. }
  unfold round_binary64.
  pose proof (binade_45 (Z.abs d) ltac:(lia)) as Hb.
  change (Z.abs 45) with 45.
  remember (Z.max (binade (Z.abs d) 45 - 52) (- 1074)) as e.
  assert (He : e <= - 6) by lia.
  rewrite (Z.max_r 0 (- e)) by lia. rewrite (Z.max_l 0 e) by lia.
  change (2 ^ 0) with 1. rewrite Z.mul_1_r.
  assert (Hlarge : forall m, too_large m e = false).
  { intros m. unfold too_large.
    destruct (Z.ltb_spec 971 e); [lia|].
    destruct (Z.eqb_spec e 971); [lia | reflexivity]. }
  rewrite Hlarge. eexists. split; [reflexivity|].
  unfold py_round. destruct (Z.leb_spec 0 e); [lia|].
  assert (HP : 44 < 2 ^ (- e)).
  { assert (2 ^ 6 <= 2 ^ (- e)) by (apply Z.pow_le_mono_r; lia).
    change (2 ^ 6) with 64 in *. lia. }
  rewrite div_half_even_twice by exact HP.
  change (45 <? 0) with false. rewrite xorb_false_r.
  destruct (Z.ltb_spec d 0).
  - rewrite <- div_half_even_45_opp. f_equal. f_equal. lia.
  - f_equal. f_equal. lia.
Qed.

Lemma compass_exact (d : Z) :
  Z.abs d < 45 * 2 ^ 47 ->
  compass d = Ok (nth (Z.to_nat (div_half_even d 45 mod 8)) directions []).
Proof.
  intros Hd. unfold compass, wind_direction, py_truediv.
  destruct (truediv_45_round d Hd) as [x [-> ->]].
  pose proof (Z.mod_pos_bound (div_half_even d 45) 8 ltac:(lia)) as Hm.
  remember (div_half_even d 45 mod 8) as i.
  assert (Hi : (Z.to_nat i < 8)%nat) by lia.
  remember (Z.to_nat i) as j.
  do 8 (destruct j as [|j]; [reflexivity|]). lia.
Qed.

(** C2, as the code has it.  On whole degrees below [45 * 2^47 - 360] in
    absolute value the mapping has period 360, and 0, 45, 315, 360 and 400
    degrees map to N, NE, NW, N and NE. *)
Theorem compass_periodic_in_range (d : Z) :
  - compass_range < d < compass_range ->
  (exists point, compass d = Ok point /\ compass (d + 360) = Ok point)
  /\ compass 0 = Ok (lit "N")
  /\ compass 45 = Ok (lit "NE")
  /\ compass 315 = Ok (lit "NW")
  /\ compass 360 = Ok (lit "N")
  /\ compass 400 = Ok (lit "NE").
Proof.
  intros Hd. unfold compass_range in Hd.
  assert (E : 45 * 2 ^ 47 = 6333186975989760) by reflexivity.
  split; [|repeat split; reflexivity].
  eexists. split.
  - apply compass_exact. lia.
  - rewrite compass_exact by lia.
    rewrite div_half_even_45_turn.
    replace ((div_half_even d 45 + 8) mod 8) with (div_half_even d 45 mod 8);
      [reflexivity|].
    rewrite <- (Z.add_mod_idemp_r _ 8 8) by lia.
    change (8 mod 8) with 0. now rewrite Z.add_0_r.
Qed.

(** C2 as it is stated fails: at 6333186975989467 degrees the quotient by 45
    is rounded to a binary64 value below the half, and one turn further to
    the half itself, so the two compass points differ. *)
Lemma compass_not_periodic :
  compass 6333186975989467 = Ok (lit "NE")
  /\ compass (6333186975989467 + 360) = Ok (lit "E")
  /\ compass 6333186975989467 <> compass (6333186975989467 + 360).
Proof.
  split; [vm_compute; reflexivity|].
  split; [vm_compute; reflexivity|].
  vm_compute. discriminate.
Qed.

End Compass.

(** ** Rendering *)

Section Rendering.

Context (rt : Runtime).

Lemma emits_lift {A} (r : result A) (app : WeatherApp) : emits (lift r) app [] r.
Proof. intros w _. unfold lift. now rewrite printed_nil. Qed.

Lemma emits_ret {A} (a : A) (app : WeatherApp) : emits (ret a) app [] (Ok a).
Proof. intros w _. unfold ret. now rewrite printed_nil. Qed.

Lemma emits_print (l : str) (app : WeatherApp) :
  emits (print l) app [Print l] (Ok tt).
Proof. intros w _. reflexivity. Qed.

Lemma emits_get_self (app : WeatherApp) : emits get_self app [] (Ok app).
Proof. intros w <-. unfold get_self. now rewrite printed_nil. Qed.

Lemma emits_bind {A B} (c : IO A) (k : A -> IO B) app o1 a o2 r :
  emits c app o1 (Ok a) -> emits (k a) app o2 r ->
  emits (bind c k) app (o1 ++ o2) r.
Proof.
  intros Hc Hk w Hw. unfold bind. rewrite (Hc w Hw).
  rewrite (Hk (printed w o1) Hw). now rewrite printed_app.
Qed.

Lemma py_get_dict (d : pdict) (key : str) (default : pyval) :
  py_get (PDict d) key default = Ok (or_default (dict_get key d) default).
Proof. unfold py_get. now destruct (dict_get key d). Qed.

Lemma py_get2_field (d : pdict) (outer inner : str) (default : pyval) :
  absent_or is_dict (dict_get outer d) = true ->
  py_get2 (PDict d) outer inner default
  = Ok (or_default (field d outer inner) default).
Proof.
  unfold py_get2, field. rewrite py_get_dict.
  destruct (dict_get outer d) as [[]|]; simpl; try discriminate; intros _.
  - apply py_get_dict.
  - reflexivity.
Qed.

Lemma py_str_shown (o : option pyval) :
  py_str rt (or_default o NA) = shown rt o.
Proof. now destruct o. Qed.

Lemma successful_truthy (d : pdict) :
  successful d = true -> truthy (PDict d) = true.
Proof. unfold successful. now destruct d. Qed.

(** What the two reads of the [weather] member give. *)
Lemma weather_steps (d : pdict) :
  description_ok d = true ->
  exists c,
    py_item0 (or_default (dict_get (lit "weather") d) (PList [PDict []]))
    = Ok (PDict c)
    /\ (forall key, dict_get key c = condition d key)
    /\ absent_or is_str (condition d (lit "description")) = true.
Proof.
  unfold description_ok, condition.
  destruct (dict_get (lit "weather") d) as [v|]; simpl.
  - destruct v as [| | | | |l|]; try discriminate.
    destruct l as [|[| | | | | |c] l]; try discriminate.
    intros H. now exists c.
  - intros _. exists []. repeat split.
Qed.

Lemma title_step (o : option pyval) :
  absent_or is_str o = true ->
  py_title rt (or_default o NA)
  = Ok (match o with Some (PStr s) => title rt s | _ => lit "N/A" end).
Proof.
  destruct o as [[]|]; simpl; try discriminate; reflexivity.
Qed.

Lemma lower_step (o : option pyval) :
  absent_or is_str o = true ->
  exists s, py_lower rt (or_default o (PStr [])) = Ok s
    /\ icons_get s icons rainbow
       = match o with
         | Some (PStr s) => icons_get (lower rt s) icons rainbow
         | _ => rainbow
         end.
Proof.
  destruct o as [[]|]; simpl; try discriminate; intros _; eexists; split;
    reflexivity.
Qed.

Lemma time_step (o : option pyval) (app : WeatherApp) :
  time_ok rt o = true ->
  emits (if truthy (or_default o PNone) then
           lift (fromtimestamp_HMS rt (or_default o PNone))
         else ret (lit "N/A")) app [] (Ok (shown_time rt o)).
Proof.
  unfold time_ok, shown_time. destruct o as [v|]; simpl.
  - destruct (truthy v); simpl; [|intros _; apply emits_ret].
    destruct (fromtimestamp_HMS rt v); [intros _; apply emits_lift | discriminate].
  - intros _. apply emits_ret.
Qed.

Lemma wind_step (o : option pyval) (app : WeatherApp) :
  degrees_ok o = true ->
  emits (if negb (py_eq_str (or_default o NA) (lit "N/A")) then
           bind (lift (wind_direction (or_default o NA)))
             (fun direction =>
                print ([0x1F9ED]%N ++ lit " Wind Direction: " ++ direction
                       ++ lit " (" ++ py_str rt (or_default o NA)
                       ++ degree_sign ++ lit ")"))
         else ret tt) app
    (match o with
     | None => []
     | Some v =>
         if py_eq_str v (lit "N/A") then []
         else [Print (wind_direction_line
                        (match wind_direction v with Ok p => p | Raise _ => [] end)
                        (py_str rt v))]
     end) (Ok tt).
Proof.
  unfold degrees_ok. destruct o as [v|]; simpl.
  - destruct (py_eq_str v (lit "N/A")); simpl.
    + intros _. apply emits_ret.
    + destruct (wind_direction v) as [p|]; [intros _ | discriminate].
      change [Print (wind_direction_line p (py_str rt v))]
        with ([] ++ [Print (wind_direction_line p (py_str rt v))]).
      eapply emits_bind; [apply emits_lift | apply emits_print].
  - intros _. apply emits_ret.
Qed.

Lemma emits_out {A} (c : IO A) app o out r :
  emits c app o r -> o = out -> emits c app out r.
Proof. now intros H <-. Qed.

Ltac emit_step :=
  eapply emits_bind;
  [ first [ apply emits_lift | apply emits_print | apply emits_get_self
          | apply time_step; assumption | apply wind_step; assumption
          | apply emits_ret ]
  | cbv beta ].

(** A renderable successful response is rendered to the end, as the full
    report. *)
Lemma display_weather_report (app : WeatherApp) (d : pdict) :
  successful d = true ->
  renderable rt d = true ->
  emits (display_weather rt (PDict d)) app (report rt app d) (Ok tt).
Proof.
  intros Hs Hw. unfold renderable, extractable in Hw.
  repeat (let H := fresh "Hw" in
          apply andb_true_iff in Hw; destruct Hw as [Hw H]).
  match goal with
  | H : description_ok d = true |- _ =>
      destruct (weather_steps d H) as [c [Hitem [Hc Hdesc]]]
  end.
  match goal with
  | H : absent_or is_str (condition d (lit "main")) = true |- _ =>
      destruct (lower_step (condition d (lit "main")) H) as [kw [Hlow Hicon]]
  end.
  assert (Hcod : py_eq_int (or_default (dict_get (lit "cod") d) PNone) 200 = true).
  { unfold successful in Hs.
    destruct (dict_get (lit "cod") d); [exact Hs | discriminate]. }
  unfold display_weather.
  rewrite (successful_truthy d Hs). cbn [negb].
  rewrite !py_get_dict.
  rewrite !py_get2_field by assumption.
  eapply emits_out.
  - emit_step. rewrite Hcod. cbn [negb].
    repeat emit_step. rewrite Hitem.
    emit_step. rewrite py_get_dict, Hc.
    emit_step. rewrite (title_step _ Hdesc).
    repeat emit_step. rewrite Hitem.
    emit_step. rewrite py_get_dict, Hc.
    emit_step. rewrite Hlow.
    repeat emit_step.
    apply emits_print.
  - unfold report, icon_line. cbn [List.app]. rewrite !py_str_shown.
    change [127752%N] with rainbow. rewrite Hicon.
    unfold unit_symbol.
    destruct (dict_get (lit "name") d), (field d (lit "sys") (lit "country")),
      (dict_get (lit "visibility") d) as [v|];
      cbn [or_default]; try destruct (py_eq_str v (lit "N/A")); reflexivity.
Qed.

(** C3.  A response whose [cod] is not 200 (or that has members but no
    [cod]) is rendered as one line, the error line with the response's
    [message] or, without one, with "Unknown error"; nothing else is
    printed. *)
Theorem display_weather_error_only (d : pdict) (w : world) :
  let line :=
    match dict_get (lit "message") d with
    | Some m => error_line (py_str rt m)
    | None => error_line (lit "Unknown error")
    end in
  (forall c, dict_get (lit "cod") d = Some c -> py_eq_int c 200 = false ->
             display_weather rt (PDict d) w = (printed w [Print line], Ok tt))
  /\ (d <> [] -> dict_get (lit "cod") d = None ->
      display_weather rt (PDict d) w = (printed w [Print line], Ok tt)).
Proof.
  assert (H : d <> [] ->
              py_eq_int (or_default (dict_get (lit "cod") d) PNone) 200 = false ->
              display_weather rt (PDict d) w
              = (printed w
                   [Print match dict_get (lit "message") d with
                          | Some m => error_line (py_str rt m)
                          | None => error_line (lit "Unknown error")
                          end], Ok tt)).
  { intros Hd Hc. unfold display_weather.
    replace (truthy (PDict d)) with true by (now destruct d).
    cbn [negb]. rewrite !py_get_dict.
    unfold bind at 1. unfold lift at 1. rewrite Hc. cbn [negb].
    unfold bind, lift, print, printed.
    now destruct (dict_get (lit "message") d). }
  split.
  - intros c Hc Hne. apply H.
    + intros ->. discriminate.
    + now rewrite Hc.
  - intros Hd Hc. apply H; [exact Hd | now rewrite Hc].
Qed.

Lemma well_shaped_renderable (d : pdict) :
  well_shaped rt d = true -> renderable rt d = true.
Proof.
  unfold well_shaped. intros H.
  apply andb_true_iff in H. destruct H as [H _].
  apply andb_true_iff in H. now destruct H.
Qed.

Ltac find_line :=
  cbn [In List.app];
  repeat first [ left; reflexivity | right | apply in_or_app; right; cbn [In] ].

Lemma report_without_wind_direction (app : WeatherApp) (d : pdict) :
  field d (lit "wind") (lit "deg") = None ->
  existsb is_wind_direction_line (report rt app d) = false.
Proof.
  intros H. unfold report. rewrite H.
  destruct (dict_get (lit "visibility") d) as [v|];
    [destruct (py_eq_str v (lit "N/A"))|]; reflexivity.
Qed.

(** C4, as the code has it.  A successful response whose sections have the
    shape the renderer counts on is rendered to the end whatever members are
    absent.  An absent temperature, feels-like temperature, humidity,
    pressure, description, wind speed, visibility, cloud coverage, sunrise or
    sunset is shown as "N/A"; an absent city as "Unknown", an absent country
    as the empty text, an absent keyword by the default icon, and an absent
    wind degree by no line at all. *)
Theorem display_weather_placeholders (d : pdict) (w : world) :
  successful d = true ->
  well_shaped rt d = true ->
  exists lines,
    display_weather rt (PDict d) w = (printed w lines, Ok tt)
    /\ lines = report rt (self w) d
    /\ (field d (lit "main") (lit "temp") = None ->
        In (Print (temperature_line (lit "N/A") (unit_symbol (self w))
                     (shown rt (field d (lit "main") (lit "feels_like")))))
           lines)
    /\ (field d (lit "main") (lit "feels_like") = None ->
        In (Print (temperature_line (shown rt (field d (lit "main") (lit "temp")))
                     (unit_symbol (self w)) (lit "N/A")))
           lines)
    /\ (field d (lit "main") (lit "humidity") = None ->
        In (Print (humidity_line (lit "N/A"))) lines)
    /\ (field d (lit "main") (lit "pressure") = None ->
        In (Print (pressure_line (lit "N/A"))) lines)
    /\ (condition d (lit "description") = None ->
        In (Print (conditions_line (lit "N/A"))) lines)
    /\ (field d (lit "wind") (lit "speed") = None ->
        In (Print (wind_speed_line (lit "N/A"))) lines)
    /\ (dict_get (lit "visibility") d = None ->
        In (Print (visibility_line (lit "N/A"))) lines)
    /\ (field d (lit "clouds") (lit "all") = None ->
        In (Print (cloud_line (lit "N/A"))) lines)
    /\ (field d (lit "sys") (lit "sunrise") = None ->
        In (Print (sunrise_line (lit "N/A"))) lines)
    /\ (field d (lit "sys") (lit "sunset") = None ->
        In (Print (sunset_line (lit "N/A"))) lines)
    /\ (dict_get (lit "name") d = None ->
        exists country, In (Print (forecast_line (lit "Unknown") country)) lines)
    /\ (field d (lit "sys") (lit "country") = None ->
        exists city, In (Print (forecast_line city [])) lines)
    /\ (condition d (lit "main") = None ->
        In (Print (icon_line rainbow)) lines)
    /\ (field d (lit "wind") (lit "deg") = None ->
        existsb is_wind_direction_line lines = false).
Proof.
  intros Hs Hw. apply well_shaped_renderable in Hw.
  exists (report rt (self w) d).
  split; [now apply display_weather_report|].
  split; [reflexivity|].
  repeat split; intros H; try eexists;
    first [ now apply report_without_wind_direction
          | unfold report, shown, shown_time; rewrite H; find_line ].
Qed.

(** C4 as it is stated fails: a successful response without a city name is
    rendered with "Unknown" for the city and nothing for the country, not
    with "N/A". *)
Lemma absent_city_is_not_placeholder :
  let d := [(lit "cod", PInt 200)] in
  successful d = true
  /\ dict_get (lit "name") d = None
  /\ nth_error
       (stdout (fst (display_weather sample_runtime (PDict d) (sample_world []))))
       1
     = Some (Print (lit "WEATHER FORECAST - Unknown, ")).
Proof. repeat split; vm_compute; reflexivity. Qed.

Lemma py_get2_absent (d : pdict) (outer inner : str) (default : pyval) :
  field d outer inner = None ->
  py_get2 (PDict d) outer inner default = Ok default
  \/ py_get2 (PDict d) outer inner default = Raise AttributeError.
Proof.
  unfold field, py_get2. rewrite py_get_dict.
  destruct (dict_get outer d) as [[]|]; simpl; auto.
  intros ->. now left.
Qed.

Lemma existsb_false {A} (f : A -> bool) (l : list A) :
  Forall (fun x => f x = false) l -> existsb f l = false.
Proof.
  induction 1 as [|x l Hx _ IH]; simpl; [reflexivity | now rewrite Hx, IH].
Qed.

(** For a line that is no wind-direction line. *)
Ltac wind_free_line :=
  repeat match goal with
         | |- context [if ?b then _ else _] =>
             lazymatch b with
             | true => fail
             | false => fail
             | _ => destruct b; cbv iota
             end
         end;
  reflexivity.

(** Without a wind degree no wind-direction line is printed, however far the
    rendering gets. *)
Lemma display_weather_no_wind_direction (app : WeatherApp) (d : pdict) :
  field d (lit "wind") (lit "deg") = None ->
  prints_only (fun o => is_wind_direction_line o = false) app
    (display_weather rt (PDict d)).
Proof.
  intros Hdeg. unfold display_weather.
  destruct (py_get2_absent d (lit "wind") (lit "deg") NA Hdeg) as [E|E];
    rewrite E; clear E;
    repeat first
      [ match goal with
        | |- context [negb (py_eq_str NA (lit "N/A"))] =>
            change (negb (py_eq_str NA (lit "N/A"))) with false; cbv iota
        end
      | prints_only_step ltac:(wind_free_line) ].
Qed.

Lemma emits_first_bind {A B} (P : output -> Prop) (c : IO A) (k : A -> IO B)
  app o1 a o2 :
  emits c app o1 (Ok a) -> emits_first P (k a) app o2 ->
  emits_first P (bind c k) app (o1 ++ o2).
Proof.
  intros Hc Hk w Hw. unfold bind. rewrite (Hc w Hw).
  destruct (Hk (printed w o1) Hw) as [more [r [-> Hmore]]].
  exists more, r. now rewrite printed_app, app_assoc.
Qed.

Lemma emits_first_rest {A} (P : output -> Prop) (c : IO A) app :
  prints_only P app c -> emits_first P c app [].
Proof. exact (fun H => H). Qed.

Lemma emits_first_out {A} (P : output -> Prop) (c : IO A) app o out :
  emits_first P c app o -> o = out -> emits_first P c app out.
Proof. now intros H <-. Qed.

Ltac emits_first_step :=
  eapply emits_first_bind;
  [ first [ apply emits_lift | apply emits_print | apply emits_get_self
          | apply time_step; assumption | apply emits_ret ]
  | cbv beta ].

(** A successful response whose fields can be extracted, with no wind
    degree, is rendered at least up to the wind-speed line, and what follows
    has no wind-direction line. *)
Lemma display_weather_up_to_wind_speed (app : WeatherApp) (d : pdict) :
  successful d = true ->
  extractable rt d = true ->
  field d (lit "wind") (lit "deg") = None ->
  emits_first (fun o => is_wind_direction_line o = false)
    (display_weather rt (PDict d)) app (firstn 8 (report rt app d)).
Proof.
  intros Hs Hw Hdeg. unfold extractable in Hw.
  repeat (let H := fresh "Hw" in
          apply andb_true_iff in Hw; destruct Hw as [Hw H]).
  match goal with
  | H : description_ok d = true |- _ =>
      destruct (weather_steps d H) as [c [Hitem [Hc Hdesc]]]
  end.
  assert (Hcod : py_eq_int (or_default (dict_get (lit "cod") d) PNone) 200 = true).
  { unfold successful in Hs.
    destruct (dict_get (lit "cod") d); [exact Hs | discriminate]. }
  unfold display_weather.
  rewrite (successful_truthy d Hs). cbn [negb].
  rewrite !py_get_dict.
  rewrite !(py_get2_field d (lit "sys")) by assumption.
  rewrite !(py_get2_field d (lit "main")) by assumption.
  rewrite !(py_get2_field d (lit "wind")) by assumption.
  rewrite Hdeg. cbn [or_default].
  eapply emits_first_out.
  - emits_first_step. rewrite Hcod. cbn [negb].
    repeat emits_first_step. rewrite Hitem.
    emits_first_step. rewrite py_get_dict, Hc.
    emits_first_step. rewrite (title_step _ Hdesc).
    do 17 emits_first_step.
    apply emits_first_rest.
    repeat first
      [ match goal with
        | |- context [negb (py_eq_str NA (lit "N/A"))] =>
            change (negb (py_eq_str NA (lit "N/A"))) with false; cbv iota
        end
      | prints_only_step ltac:(wind_free_line) ].
  - unfold report. cbn [List.app firstn]. rewrite !py_str_shown.
    unfold unit_symbol.
    destruct (dict_get (lit "name") d), (field d (lit "sys") (lit "country"));
      reflexivity.
Qed.

(** C8 at the epoch: a successful response whose sunrise and sunset are both
    present with the value 0 is rendered with "N/A" for both, on every
    platform, because the timestamp is tested for its truth value. *)
Theorem sunrise_at_epoch_shows_placeholder (w : world) :
  let d := [ (lit "cod", PInt 200);
             (lit "sys", PDict [(lit "sunrise", PInt 0); (lit "sunset", PInt 0)]) ] in
  field d (lit "sys") (lit "sunrise") = Some (PInt 0)
  /\ field d (lit "sys") (lit "sunset") = Some (PInt 0)
  /\ exists lines,
       display_weather rt (PDict d) w = (printed w lines, Ok tt)
       /\ nth_error lines 9 = Some (Print (sunrise_line (lit "N/A")))
       /\ nth_error lines 10 = Some (Print (sunset_line (lit "N/A"))).
Proof.
  split; [reflexivity|]. split; [reflexivity|].
  eexists. split.
  - now apply display_weather_report.
  - split; reflexivity.
Qed.

(** A sunrise that is a whole number of seconds other than 0 is shown as the
    local time of that instant, hours, minutes and seconds in two digits;
    likewise a sunset. *)
Lemma timestamps_shown_as_local_time (d : pdict) (w : world)
  (key : str) (n h m sec : Z) :
  successful d = true ->
  renderable rt d = true ->
  field d (lit "sys") key = Some (PInt n) ->
  n <> 0 ->
  localtime rt n = Ok (h, m, sec) ->
  let time := two_digits h ++ lit ":" ++ two_digits m ++ lit ":" ++ two_digits sec in
  exists lines,
    display_weather rt (PDict d) w = (printed w lines, Ok tt)
    /\ (key = lit "sunrise" -> In (Print (sunrise_line time)) lines)
    /\ (key = lit "sunset" -> In (Print (sunset_line time)) lines).
Proof.
  intros Hs Hw Hfield Hn Hlocal time.
  exists (report rt (self w) d).
  split; [now apply display_weather_report|].
  assert (Hshown : shown_time rt (Some (PInt n)) = time).
  { unfold shown_time, truthy, fromtimestamp_HMS.
    destruct (Z.eqb_spec n 0) as [|_]; [contradiction|].
    cbn [negb]. now rewrite Hlocal. }
  split; intros ->; unfold report; rewrite Hfield, Hshown; find_line.
Qed.

End Rendering.

(** ** Fetching *)

Section Fetching.

Context (rt : Runtime).

Lemma fetch_failure_none (params : list (str * str)) (w : world) :
  let rq := {| req_url := base_url (self w); req_params := params |} in
  fetch_failure rt (network rt (sent w) rq) ->
  fetch rt params w
  = (printed (requested w rq)
       [Print (lit "Error fetching weather data: "
               ++ error_text rt rq (network rt (sent w) rq))],
     Ok PNone).
Proof.
  intros rq H. unfold fetch. fold rq.
  destruct H as [message | status reason body Hs | status reason body Hb Hr].
  - reflexivity.
  - replace ((400 <=? status) && (status <? 600)) with true; [reflexivity|].
    symmetry. apply andb_true_iff. split; [apply Z.leb_le | apply Z.ltb_lt]; lia.
  - rewrite Hb, Hr. now destruct ((400 <=? status) && (status <? 600)).
Qed.

(** C6, as the code has it.  Whichever way a fetch fails with a
    [RequestException] (no connection, an error status, a body that is not
    JSON and makes [json] raise its [JSONDecodeError]), by city or by postal
    code, the caller gets [None]. *)
Theorem fetch_failures_return_none (w : world) :
  (forall city_name,
     let rq := city_request (self w) city_name in
     fetch_failure rt (network rt (sent w) rq) ->
     get_weather_by_city rt city_name w
     = (printed (requested w rq)
          [Print (lit "Error fetching weather data: "
                  ++ error_text rt rq (network rt (sent w) rq))],
        Ok PNone))
  /\ (forall zip_code country_code,
        let rq := zip_request (self w) zip_code country_code in
        fetch_failure rt (network rt (sent w) rq) ->
        get_weather_by_zip rt zip_code country_code w
        = (printed (requested w rq)
             [Print (lit "Error fetching weather data: "
                     ++ error_text rt rq (network rt (sent w) rq))],
           Ok PNone)).
Proof.
  split; intros; unfold get_weather_by_city, get_weather_by_zip, bind, get_self;
    now apply fetch_failure_none.
Qed.

(** C6 as it is stated fails: a body that is not JSON need not give [None].
    When [json] raises an exception that is no [RequestException] (here the
    [ValueError] for a number of more digits than [int] takes from text),
    the handler does not catch it, and the method raises it: nothing is
    printed, and the caller gets no result at all. *)
Lemma unparseable_body_escapes :
  let body := long_number_body in
  let choking :=
    runtime_choking (Responded 200 (lit "OK") body) body ValueError in
  json_loads choking body = None
  /\ get_weather_by_city choking (lit "London") (sample_world [])
     = (requested (sample_world [])
          (city_request (self (sample_world [])) (lit "London")),
        Raise ValueError)
  /\ snd (get_weather_by_zip choking (lit "10001") (lit "US") (sample_world []))
     <> Ok PNone.
Proof.
  intros body choking. split; [reflexivity|].
  split; [vm_compute; reflexivity|]. vm_compute. discriminate.
Qed.

(** A fetch sends one request, with the parameters it was given, whether it
    returns or raises. *)
Lemma fetch_sends (params : list (str * str)) (w : world) :
  exists out r,
    fetch rt params w
    = (printed (requested w {| req_url := base_url (self w);
                               req_params := params |}) out, r)
    /\ forall app, Forall (line_ok app) out.
Proof.
  unfold fetch.
  set (rq := {| req_url := base_url (self w); req_params := params |}).
  assert (Hline : forall app text,
             Forall (line_ok app)
               [Print (lit "Error fetching weather data: " ++ text)]).
  { intros app text. constructor; [|constructor].
    intros l E H. injection E as <-. discriminate H. }
  assert (Hfail : forall r,
    exists out r',
      bind (print (lit "Error fetching weather data: " ++ error_text rt rq r))
        (fun _ => ret PNone) (requested w rq)
      = (printed (requested w rq) out, r')
      /\ forall app, Forall (line_ok app) out).
  { intros r. eexists. eexists. split; [reflexivity | intros; apply Hline]. }
  assert (Hok : forall r : result pyval,
    exists out r',
      (requested w rq, r) = (printed (requested w rq) out, r')
      /\ forall app, Forall (line_ok app) out).
  { intros r. exists [], r. rewrite printed_nil. split; [reflexivity|].
    constructor. }
  destruct (network rt (sent w) rq) as [message | status reason body | e].
  - apply Hfail.
  - destruct ((400 <=? status) && (status <? 600)); [apply Hfail|].
    destruct (json_loads rt body); [apply Hok|].
    destruct (json_raises rt body); [apply Hok | apply Hfail].
  - apply Hok.
Qed.

End Fetching.

(** ** What stays as it is between two changes of units *)

Section Invariance.

Context (rt : Runtime).

(** Whatever the response, rendering only prints, and a temperature line it
    prints carries the unit symbol of the object. *)
Lemma display_weather_prints_ok (app : WeatherApp) (weather_data : pyval) :
  prints_only (line_ok app) app (display_weather rt weather_data).
Proof.
  unfold display_weather. prints_only_steps ltac:(other_line).
  apply prints_only_print. intros l E _. injection E as <-.
  eexists. eexists. reflexivity.
Qed.

Lemma keeps_refl (app : WeatherApp) (w : world) : self w = app -> keeps app w w.
Proof.
  intros H. split; [exact H|]. exists [], [].
  rewrite !app_nil_r. repeat split; constructor.
Qed.

Lemma keeps_trans (app : WeatherApp) (w1 w2 w3 : world) :
  keeps app w1 w2 -> keeps app w2 w3 -> keeps app w1 w3.
Proof.
  intros [_ [o1 [r1 [Ho1 [Hr1 [Hl1 Hq1]]]]]] [H3 [o2 [r2 [Ho2 [Hr2 [Hl2 Hq2]]]]]].
  split; [exact H3|]. exists (o1 ++ o2), (r1 ++ r2).
  rewrite Ho2, Ho1, Hr2, Hr1, !app_assoc.
  repeat split; now apply Forall_app.
Qed.

Lemma safe_of_prints_ok {A} (app : WeatherApp) (c : IO A) :
  prints_only (line_ok app) app c -> safe app c.
Proof.
  intros H w Hw. destruct (H w Hw) as [out [r [-> Hout]]].
  split; [exact Hw|]. exists out, []. simpl. rewrite app_nil_r.
  repeat split; [assumption | constructor].
Qed.

Lemma safe_bind {A B} (app : WeatherApp) (c : IO A) (k : A -> IO B) :
  safe app c -> (forall a, safe app (k a)) -> safe app (bind c k).
Proof.
  intros Hc Hk w Hw. unfold bind. specialize (Hc w Hw).
  destruct (c w) as [w' [a|e]]; simpl in *; [|exact Hc].
  eapply keeps_trans; [exact Hc|]. apply Hk. now destruct Hc.
Qed.

Lemma safe_bind_self {B} (app : WeatherApp) (k : WeatherApp -> IO B) :
  safe app (k app) -> safe app (bind get_self k).
Proof.
  intros Hk w Hw. unfold bind, get_self. rewrite Hw. now apply Hk.
Qed.

Lemma safe_input (app : WeatherApp) (prompt : str) : safe app (input prompt).
Proof.
  intros w Hw. unfold input.
  assert (Hp : Forall (line_ok app) [Prompt prompt]).
  { constructor; [|constructor]. intros l E. discriminate E. }
  destruct (stdin w); (split; [exact Hw|]); exists [Prompt prompt], [];
    simpl; rewrite app_nil_r; repeat split; try assumption; constructor.
Qed.

Lemma safe_fetch (app : WeatherApp) (params : list (str * str)) :
  In (lit "units", units app) params -> safe app (fetch rt params).
Proof.
  intros Hin w Hw.
  destruct (fetch_sends rt params w) as [out [data [-> Hout]]].
  split; [exact Hw|].
  exists out, [{| req_url := base_url (self w); req_params := params |}].
  repeat split; [apply Hout|]. constructor; [exact Hin | constructor].
Qed.

Lemma get_weather_by_city_safe (app : WeatherApp) (city_name : str) :
  safe app (get_weather_by_city rt city_name).
Proof.
  unfold get_weather_by_city. apply safe_bind_self, safe_fetch.
  cbn [In]. auto.
Qed.

Lemma get_weather_by_zip_safe (app : WeatherApp) (zip_code country_code : str) :
  safe app (get_weather_by_zip rt zip_code country_code).
Proof.
  unfold get_weather_by_zip. apply safe_bind_self, safe_fetch.
  cbn [In]. auto.
Qed.

Lemma print_safe (app : WeatherApp) (l : str) :
  starts_with thermometer l = false -> safe app (print l).
Proof.
  intros H. apply safe_of_prints_ok, prints_only_print.
  intros l' E H'. injection E as <-. congruence.
Qed.

Lemma check_weather_safe (app : WeatherApp) : safe app (check_weather rt).
Proof.
  unfold check_weather. apply safe_bind; [apply safe_input|]. intros line.
  destruct (validate_input rt (strip rt line)) as [is_valid input_type].
  destruct is_valid; cbn [negb]; [|now apply print_safe].
  apply safe_bind.
  - destruct (str_eqb input_type (lit "zip")).
    + apply safe_bind; [apply safe_input|]. intros answer.
      apply get_weather_by_zip_safe.
    + apply get_weather_by_city_safe.
  - intros weather_data. destruct (truthy weather_data).
    + apply safe_of_prints_ok, display_weather_prints_ok.
    + now apply print_safe.
Qed.

Lemma perform_safe (app : WeatherApp) (c : call) :
  changes_units c = false -> safe app (perform rt c).
Proof.
  destruct c; cbn [changes_units perform]; try discriminate; intros _.
  - apply safe_bind; [apply get_weather_by_city_safe|].
    intros _. apply safe_of_prints_ok, prints_only_ret.
  - apply safe_bind; [apply get_weather_by_zip_safe|].
    intros _. apply safe_of_prints_ok, prints_only_ret.
  - apply safe_of_prints_ok, display_weather_prints_ok.
  - apply check_weather_safe.
Qed.

Lemma session_keeps (app : WeatherApp) (calls : list call) (w : world) :
  forallb (fun c => negb (changes_units c)) calls = true ->
  self w = app -> keeps app w (session rt calls w).
Proof.
  revert w. induction calls as [|c calls IH]; intros w Hc Hw; cbn [session].
  - now apply keeps_refl.
  - cbn [forallb] in Hc. apply andb_true_iff in Hc. destruct Hc as [Hc Hcs].
    apply negb_true_iff in Hc.
    pose proof (perform_safe app c Hc w Hw) as Hk.
    eapply keeps_trans; [exact Hk|]. apply IH; [exact Hcs | now destruct Hk].
Qed.

Lemma str_eqb_eq (a b : str) : str_eqb a b = true <-> a = b.
Proof.
  revert b. induction a as [|x a IH]; intros [|y b]; simpl; split;
    try easy.
  - intros H. apply andb_true_iff in H. destruct H as [Hx Ha].
    apply N.eqb_eq in Hx. apply IH in Ha. now subst.
  - intros H. injection H as -> ->. apply andb_true_iff. split.
    + apply N.eqb_refl.
    + now apply IH.
Qed.

Lemma set_units_imperial (u : str) (w : world) :
  str_in (lower rt u) [lit "f"; lit "fahrenheit"; lit "imperial"] = true ->
  set_units rt u w = set_self_units (lit "imperial") w.
Proof.
  intros H. unfold set_units, str_in in *. cbn [existsb] in H.
  rewrite orb_false_r in H.
  apply orb_true_iff in H. destruct H as [H|H];
    [|apply orb_true_iff in H; destruct H as [H|H]];
    apply str_eqb_eq in H; rewrite H; reflexivity.
Qed.

Lemma set_units_metric (u : str) (w : world) :
  str_in (lower rt u) [lit "c"; lit "celsius"; lit "metric"] = true ->
  set_units rt u w = set_self_units (lit "metric") w.
Proof. intros H. unfold set_units. now rewrite H. Qed.

Lemma display_weather_sent (weather_data : pyval) (w : world) :
  sent (fst (display_weather rt weather_data w)) = sent w.
Proof.
  destruct (display_weather_prints_ok (self w) weather_data w eq_refl)
    as [out [r [-> _]]]. reflexivity.
Qed.

Lemma get_weather_by_city_sends (city_name : str) (w : world) :
  sent (fst (get_weather_by_city rt city_name w))
  = sent w ++ [city_request (self w) city_name].
Proof.
  unfold get_weather_by_city, bind, get_self.
  destruct (fetch_sends rt (req_params (city_request (self w) city_name)) w)
    as [out [data [E _]]].
  cbn [req_params city_request] in E. now rewrite E.
Qed.

Lemma get_weather_by_zip_sends (zip_code country_code : str) (w : world) :
  sent (fst (get_weather_by_zip rt zip_code country_code w))
  = sent w ++ [zip_request (self w) zip_code country_code].
Proof.
  unfold get_weather_by_zip, bind, get_self.
  destruct (fetch_sends rt
              (req_params (zip_request (self w) zip_code country_code)) w)
    as [out [data [E _]]].
  cbn [req_params zip_request] in E. now rewrite E.
Qed.

Lemma preference_holds_from (unit_name symbol : str) (w1 : world)
  (calls : list call) :
  units (self w1) = unit_name ->
  unit_symbol (self w1) = symbol ->
  forallb (fun c => negb (changes_units c)) calls = true ->
  preference_holds rt unit_name symbol w1 calls.
Proof.
  intros Hu Hsym Hcalls. unfold preference_holds.
  destruct (session_keeps (self w1) calls w1 Hcalls eq_refl)
    as [Hself [out [rqs [Hout [Hsent [Hlines Hreqs]]]]]].
  rewrite Hself.
  split; [exact Hu|]. split.
  { exists out, rqs. rewrite <- Hu, <- Hsym. now repeat split. }
  split.
  { intros city_name. eexists. split; [apply get_weather_by_city_sends|].
    rewrite Hself, <- Hu. cbn [In req_params city_request]. auto. }
  split.
  { intros zip_code country_code. eexists.
    split; [apply get_weather_by_zip_sends|].
    rewrite Hself, <- Hu. cbn [In req_params zip_request]. auto. }
  intros d Hs Hw. apply well_shaped_renderable in Hw.
  eexists. eexists. exists (report rt (self w1) d).
  split; [apply display_weather_report; assumption|].
  rewrite <- Hsym. unfold report. cbn [In List.app]. do 4 right. left. reflexivity.
Qed.

Lemma change_units_choice (w : world) (line : str) (rest : list str) :
  stdin w = line :: rest ->
  (strip rt line = lit "1" ->
   units (self (fst (change_units rt w))) = lit "metric")
  /\ (strip rt line = lit "2" ->
      units (self (fst (change_units rt w))) = lit "imperial").
Proof.
  intros Hin.
  split; intros H; unfold change_units;
    do 5 (unfold bind at 1; unfold print at 1);
    unfold bind at 1; unfold input at 1; cbn [stdin]; rewrite Hin, H;
    reflexivity.
Qed.

(** C5.  A new object asks for metric units.  Setting the units to
    Fahrenheit, by [set_units] or by choice 2 of [change_units], leaves the
    object with "imperial", and from then on, through any calls other than a
    change of units, it keeps it: every request sent asks for
    [units=imperial] and every temperature line printed shows the Fahrenheit
    sign.  The same holds with Celsius, "metric" and the Celsius sign. *)
Theorem unit_preference_round_trip :
  (forall key, units (init key) = lit "metric")
  /\ (forall w u,
        str_in (lower rt u) [lit "f"; lit "fahrenheit"; lit "imperial"] = true ->
        units (self (fst (set_units rt u w))) = lit "imperial")
  /\ (forall w u,
        str_in (lower rt u) [lit "c"; lit "celsius"; lit "metric"] = true ->
        units (self (fst (set_units rt u w))) = lit "metric")
  /\ (forall w line rest,
        stdin w = line :: rest -> strip rt line = lit "2" ->
        units (self (fst (change_units rt w))) = lit "imperial")
  /\ (forall w line rest,
        stdin w = line :: rest -> strip rt line = lit "1" ->
        units (self (fst (change_units rt w))) = lit "metric")
  /\ (forall w calls,
        units (self w) = lit "imperial" ->
        forallb (fun c => negb (changes_units c)) calls = true ->
        preference_holds rt (lit "imperial") fahrenheit_sign w calls)
  /\ (forall w calls,
        units (self w) = lit "metric" ->
        forallb (fun c => negb (changes_units c)) calls = true ->
        preference_holds rt (lit "metric") celsius_sign w calls).
Proof.
  split; [reflexivity|].
  split; [intros w u Hu; now rewrite (set_units_imperial u w Hu)|].
  split; [intros w u Hu; now rewrite (set_units_metric u w Hu)|].
  split; [intros w line rest Hin; apply (change_units_choice w line rest Hin)|].
  split; [intros w line rest Hin; apply (change_units_choice w line rest Hin)|].
  split; intros w calls Hu Hcalls;
    (apply preference_holds_from; [exact Hu | | exact Hcalls]);
    unfold unit_symbol; now rewrite Hu.
Qed.

End Invariance.

(** ** Checking the weather for a postal code *)

Section PostalCodes.

Context (rt : Runtime).

(** When the location typed in is classified as a postal code, what is sent
    is that location as typed, a comma and the country. *)
Lemma check_weather_zip_request (w : world) (line answer : str)
  (rest : list str) :
  stdin w = line :: answer :: rest ->
  validate_input rt (strip rt line) = (true, lit "zip") ->
  sent (fst (check_weather rt w))
  = sent w ++ [zip_request (self w) (strip rt line) (country_of rt answer)].
Proof.
  intros Hin Hzip. unfold check_weather.
  unfold bind at 1. unfold input at 1. rewrite Hin.
  rewrite Hzip. cbn [negb].
  change (str_eqb (lit "zip") (lit "zip")) with true. cbv iota.
  unfold bind at 1. unfold bind at 1. unfold input at 1. cbn [stdin].
  fold (country_of rt answer).
  remember (get_weather_by_zip rt (strip rt line) (country_of rt answer)) as g.
  match goal with |- context [g ?w1] => remember w1 as w' end.
  assert (Hs : sent (fst (g w'))
               = sent w ++ [zip_request (self w) (strip rt line) (country_of rt answer)]).
  { subst g. rewrite get_weather_by_zip_sends. now subst w'. }
  destruct (g w') as [w'' [data|e]]; cbn [fst] in *; [|exact Hs].
  destruct (truthy data).
  - now rewrite display_weather_sent.
  - exact Hs.
Qed.

(** C9.  For the input "10001" and no country given: the input is classified
    as a postal code, and the request sent has [zip=10001,US] (next to the
    key, the units and the language). *)
Theorem check_weather_10001 (w : world) (answer : str) (rest : list str) :
  stdin w = lit "10001" :: answer :: rest ->
  strip rt answer = [] ->
  validate_input rt (lit "10001") = (true, lit "zip")
  /\ country_of rt answer = lit "US"
  /\ sent (fst (check_weather rt w))
     = sent w ++ [{| req_url := base_url (self w);
                     req_params := [ (lit "zip", lit "10001,US");
                                     (lit "appid", api_key (self w));
                                     (lit "units", units (self w));
                                     (lit "lang", lit "en") ] |}].
Proof.
  intros Hin Hanswer.
  split; [reflexivity|].
  assert (Hc : country_of rt answer = lit "US").
  { unfold country_of. now rewrite Hanswer. }
  split; [exact Hc|].
  rewrite (check_weather_zip_request w (lit "10001") answer rest Hin);
    [|reflexivity].
  rewrite Hc. reflexivity.
Qed.

Lemma lstrip_no_space (s : str) :
  Forall (fun c => char_isspace rt c = false) s -> lstrip rt s = s.
Proof. intros H. destruct H as [|c s Hc _]; simpl; [reflexivity | now rewrite Hc]. Qed.

Lemma strip_no_space (s : str) :
  Forall (fun c => char_isspace rt c = false) s -> strip rt s = s.
Proof.
  intros H. unfold strip. rewrite (lstrip_no_space s H).
  rewrite lstrip_no_space; [apply rev_involutive|].
  apply Forall_forall. intros c Hc. apply in_rev in Hc.
  revert c Hc. now apply Forall_forall.
Qed.

Lemma validate_input_zip_chars (s : str) :
  validate_input rt s = (true, lit "zip") -> digits_and_hyphens rt s.
Proof.
  unfold validate_input. rewrite str_replace_hyphen.
  destruct (match s with [] => true | _ => false end || isspace rt s);
    [discriminate|].
  destruct (isdigit rt (without_hyphens s)) eqn:Hd; [|discriminate].
  intros _. apply isdigit_forallb in Hd.
  now apply forallb_digits_without_hyphens.
Qed.

(** A location classified as a postal code has nothing for [strip] to take
    away. *)
Lemma strip_zip (s : str) :
  digits_are_not_spaces rt ->
  validate_input rt s = (true, lit "zip") -> strip rt s = s.
Proof.
  intros Hds Hzip. apply strip_no_space.
  apply validate_input_zip_chars in Hzip.
  eapply Forall_impl; [|exact Hzip].
  intros c [Hd| ->]; [now apply Hds | reflexivity].
Qed.

(** C10.  For every input classified as a postal code, the [zip] parameter
    of the request is that input as it is, hyphens included, then a comma and
    the country: so it is for the location [check_weather] classifies (the
    line typed in, without the whitespace around it), and for the line typed
    in itself when it is classified as a postal code.  "12345-6789" is sent
    as [zip=12345-6789,US]. *)
Theorem zip_code_sent_verbatim (w : world) (line answer : str)
  (rest : list str) :
  stdin w = line :: answer :: rest ->
  (validate_input rt (strip rt line) = (true, lit "zip") ->
   exists rq,
     sent (fst (check_weather rt w)) = sent w ++ [rq]
     /\ req_params rq
        = [ (lit "zip", strip rt line ++ lit "," ++ country_of rt answer);
            (lit "appid", api_key (self w));
            (lit "units", units (self w));
            (lit "lang", lit "en") ])
  /\ (digits_are_not_spaces rt ->
      validate_input rt line = (true, lit "zip") ->
      exists rq,
        sent (fst (check_weather rt w)) = sent w ++ [rq]
        /\ req_params rq
           = [ (lit "zip", line ++ lit "," ++ country_of rt answer);
               (lit "appid", api_key (self w));
               (lit "units", units (self w));
               (lit "lang", lit "en") ])
  /\ (forall zip_code country_code w',
        exists rq,
          sent (fst (get_weather_by_zip rt zip_code country_code w'))
          = sent w' ++ [rq]
          /\ In (lit "zip", zip_code ++ lit "," ++ country_code) (req_params rq))
  /\ validate_input rt (lit "12345-6789") = (true, lit "zip")
  /\ lit "12345-6789" ++ lit "," ++ lit "US" = lit "12345-6789,US".
Proof.
  intros Hin. split; [|split].
  - intros Hzip. eexists.
    split; [now apply (check_weather_zip_request w line answer rest)|].
    reflexivity.
  - intros Hds Hzip. eexists. split.
    + apply (check_weather_zip_request w line answer rest Hin).
      now rewrite (strip_zip line Hds Hzip).
    + rewrite (strip_zip line Hds Hzip). reflexivity.
  - split; [|split; reflexivity].
    intros zip_code country_code w'. eexists.
    split; [apply get_weather_by_zip_sends|].
    cbn [In req_params zip_request]. auto.
Qed.

End PostalCodes.

(** * More of the program *)

(** ** Checking the weather: the other paths *)

Section CheckWeather.

Context (rt : Runtime).

Lemma lstrip_blank (s : str) : lstrip rt s = [] <-> blank rt s.
Proof.
  unfold blank. induction s as [|c s IH]; simpl.
  - split; [constructor | reflexivity].
  - destruct (char_isspace rt c) eqn:Hc.
    + rewrite IH. split; [now constructor | now inversion 1].
    + split; [discriminate | inversion 1; congruence].
Qed.

Lemma lstrip_head (s : str) :
  match lstrip rt s with
  | [] => True
  | c :: _ => char_isspace rt c = false
  end.
Proof.
  induction s as [|c s IH]; simpl; [exact I|].
  destruct (char_isspace rt c) eqn:Hc; [exact IH | exact Hc].
Qed.

Lemma strip_blank (s : str) : strip rt s = [] <-> blank rt s.
Proof.
  unfold strip. split.
  - intros H. apply lstrip_blank.
    assert (Hr : lstrip rt (rev (lstrip rt s)) = []).
    { apply (f_equal (@rev char)) in H. now rewrite rev_involutive in H. }
    apply lstrip_blank in Hr.
    pose proof (lstrip_head s) as Hh.
    destruct (lstrip rt s) as [|c t]; [reflexivity|].
    exfalso. unfold blank in Hr. rewrite Forall_forall in Hr.
    assert (char_isspace rt c = true)
      by (apply Hr, in_rev; rewrite rev_involutive; now left).
    congruence.
  - intros H. apply lstrip_blank in H. now rewrite H.
Qed.

(** The first character of a stripped line is no whitespace. *)
Lemma strip_head (s : str) :
  match strip rt s with
  | [] => True
  | c :: _ => char_isspace rt c = false
  end.
Proof.
  unfold strip.
  pose proof (lstrip_head s) as Hh.
  pose proof (lstrip_head (rev (lstrip rt s))) as Hl.
  destruct (lstrip rt s) as [|c t] eqn:E; [exact I|].
  remember (lstrip rt (rev (c :: t))) as u eqn:Eu.
  assert (Hsuffix : exists v, rev (c :: t) = v ++ u).
  { rewrite Eu. clear. generalize (rev (c :: t)). intros l.
    induction l as [|x l IH]; simpl; [now exists []|].
    destruct (char_isspace rt x).
    - destruct IH as [v Hv]. exists (x :: v). simpl. now f_equal.
    - now exists []. }
  destruct Hsuffix as [v Hv].
  apply (f_equal (@rev char)) in Hv. rewrite rev_involutive, rev_app_distr in Hv.
  destruct (rev u) as [|y z] eqn:Er.
  - exact I.
  - simpl in Hv. injection Hv as <- _. exact Hh.
Qed.

(** X1.  [check_weather] rejects exactly the lines that are empty or made of
    whitespace: such a line is answered with "Invalid input. Please try
    again.", nothing is sent and nothing more is read; any other line passes
    the validation. *)
Theorem check_weather_rejects_blank_lines (w : world) (line : str)
  (rest : list str) :
  stdin w = line :: rest ->
  (blank rt line <-> fst (validate_input rt (strip rt line)) = false)
  /\ (blank rt line ->
      check_weather rt w
      = ({| self := self w; stdin := rest;
            stdout := stdout w
                      ++ [ Prompt (newline ++ lit "Enter city name or ZIP code: ");
                           Print (lit "Invalid input. Please try again.") ];
            sent := sent w |}, Ok tt)).
Proof.
  intros Hin. split.
  - split.
    + intros H. apply strip_blank in H. now rewrite H.
    + intros H. apply strip_blank.
      pose proof (strip_head line) as Hh.
      destruct (strip rt line) as [|c t] eqn:E; [reflexivity|].
      exfalso. unfold validate_input in H.
      cbn [isspace forallb] in H. rewrite Hh in H. cbn [andb orb] in H.
      destruct (isdigit rt (str_replace hyphen [] (c :: t)));
        [destruct (5 <=? _)|]; discriminate H.
  - intros H. apply strip_blank in H.
    unfold check_weather. unfold bind at 1. unfold input at 1. rewrite Hin, H.
    change (validate_input rt []) with (false, lit "Input cannot be empty.").
    cbv iota. cbn [negb]. unfold print. cbn [stdout self stdin sent].
    now rewrite <- app_assoc.
Qed.

(** The rest of [check_weather] once the location is read and taken for a
    city. *)
Lemma check_weather_city_steps (w : world) (line : str) (rest : list str) :
  stdin w = line :: rest ->
  validate_input rt (strip rt line) = (true, lit "city") ->
  check_weather rt w
  = bind (get_weather_by_city rt (strip rt line))
      (fun weather_data =>
         if truthy weather_data then display_weather rt weather_data
         else print (lit "Could not retrieve weather data. Please check your input and try again."))
      {| self := self w; stdin := rest;
         stdout := stdout w
                   ++ [Prompt (newline ++ lit "Enter city name or ZIP code: ")];
         sent := sent w |}.
Proof.
  intros Hin Hcity. unfold check_weather.
  unfold bind at 1. unfold input at 1. rewrite Hin, Hcity. reflexivity.
Qed.

(** X2.  A location taken for a city is looked up at once: one line is read
    (there is no country prompt), one request is sent, with [q] the line
    without the whitespace around it, and the object stays as it is. *)
Theorem check_weather_city_request (w : world) (line : str) (rest : list str) :
  stdin w = line :: rest ->
  validate_input rt (strip rt line) = (true, lit "city") ->
  stdin (fst (check_weather rt w)) = rest
  /\ self (fst (check_weather rt w)) = self w
  /\ exists rq,
       sent (fst (check_weather rt w)) = sent w ++ [rq]
       /\ req_url rq = base_url (self w)
       /\ req_params rq
          = [ (lit "q", strip rt line); (lit "appid", api_key (self w));
              (lit "units", units (self w)); (lit "lang", lit "en") ].
Proof.
  intros Hin Hcity. rewrite (check_weather_city_steps w line rest Hin Hcity).
  match goal with |- context [bind _ _ ?w0] => set (w1 := w0) end.
  assert (Hc : forall data w2, exists o r,
             (if truthy data then display_weather rt data
              else print (lit "Could not retrieve weather data. Please check your input and try again."))
               w2 = (printed w2 o, r)).
  { intros data w2. destruct (truthy data).
    - destruct (display_weather_prints_ok rt (self w2) data w2 eq_refl)
        as [o [r [-> _]]]. now exists o, r.
    - now exists [Print (lit "Could not retrieve weather data. Please check your input and try again.")],
        (Ok tt). }
  unfold get_weather_by_city, get_self. unfold bind. cbv beta iota.
  destruct (fetch_sends rt (req_params (city_request (self w1) (strip rt line))) w1)
    as [out [[data|e] [E _]]];
    cbn [req_params city_request] in E; rewrite E; cbv beta iota.
  - match goal with
    | |- context [(if truthy data then _ else _) ?w2] =>
        destruct (Hc data w2) as [o [r E2]]
    end.
    rewrite E2. subst w1. cbn [fst stdin self sent printed requested].
    split; [reflexivity|]. split; [reflexivity|].
    eexists. split; [reflexivity|]. now split.
  - subst w1. cbn [fst stdin self sent printed requested].
    split; [reflexivity|]. split; [reflexivity|].
    eexists. split; [reflexivity|]. now split.
Qed.

(** X3.  From the line typed in to the report: when the answer to the city
    request has a status outside 400..599 and a body that parses to a
    successful response the renderer gets through, [check_weather] prints the
    prompt and then exactly the report of that response, and returns. *)
Theorem check_weather_city_report (w : world) (line : str) (rest : list str)
  (status : Z) (reason body : str) (d : pdict) :
  stdin w = line :: rest ->
  validate_input rt (strip rt line) = (true, lit "city") ->
  network rt (sent w) (city_request (self w) (strip rt line))
  = Responded status reason body ->
  (400 <=? status) && (status <? 600) = false ->
  json_loads rt body = Some (PDict d) ->
  successful d = true ->
  renderable rt d = true ->
  check_weather rt w
  = ({| self := self w; stdin := rest;
        stdout := stdout w
                  ++ Prompt (newline ++ lit "Enter city name or ZIP code: ")
                     :: report rt (self w) d;
        sent := sent w ++ [city_request (self w) (strip rt line)] |}, Ok tt).
Proof.
  intros Hin Hcity Hnet Hstatus Hjson Hs Hr.
  rewrite (check_weather_city_steps w line rest Hin Hcity).
  unfold get_weather_by_city, get_self. unfold bind. cbv beta iota.
  unfold fetch. cbn [self sent stdin stdout].
  unfold city_request in Hnet. rewrite Hnet, Hstatus, Hjson.
  rewrite (successful_truthy d Hs).
  match goal with
  | |- display_weather rt (PDict d) ?w1 = _ =>
      rewrite (display_weather_report rt (self w) d Hs Hr w1 eq_refl)
  end.
  unfold printed, city_request. cbn [self sent stdin stdout].
  now rewrite <- app_assoc.
Qed.

(** The rest of [check_weather] once the location is read and taken for a
    postal code and the country is read. *)
Lemma check_weather_zip_steps (w : world) (line answer : str) (rest : list str) :
  stdin w = line :: answer :: rest ->
  validate_input rt (strip rt line) = (true, lit "zip") ->
  check_weather rt w
  = bind (get_weather_by_zip rt (strip rt line) (country_of rt answer))
      (fun weather_data =>
         if truthy weather_data then display_weather rt weather_data
         else print (lit "Could not retrieve weather data. Please check your input and try again."))
      {| self := self w; stdin := rest;
         stdout := (stdout w
                    ++ [Prompt (newline ++ lit "Enter city name or ZIP code: ")])
                   ++ [Prompt (lit "Enter country code (e.g., US, UK, IN) or press Enter for US: ")];
         sent := sent w |}.
Proof.
  intros Hin Hzip. unfold check_weather.
  unfold bind at 1. unfold input at 1. rewrite Hin, Hzip.
  cbn [negb]. change (str_eqb (lit "zip") (lit "zip")) with true. cbv iota.
  unfold bind at 1. unfold bind at 1. unfold input at 1. cbn [stdin].
  reflexivity.
Qed.

(** X4.  When the fetch fails with a [RequestException] (no connection, an
    error status, a body that makes [json] raise its [JSONDecodeError]),
    [check_weather] prints the error of the fetch and then "Could not
    retrieve weather data. Please check your input and try again.", and
    returns; so it does for a city and for a postal code.  When
    [requests.get] or [json] raises an exception that is no
    [RequestException], [check_weather] raises it after the request, and
    prints neither line. *)
Theorem check_weather_no_data (w : world) (line : str) :
  let sorry :=
    Print (lit "Could not retrieve weather data. Please check your input and try again.") in
  let failed rq :=
    Print (lit "Error fetching weather data: "
           ++ error_text rt rq (network rt (sent w) rq)) in
  (forall rest,
     stdin w = line :: rest ->
     validate_input rt (strip rt line) = (true, lit "city") ->
     let rq := city_request (self w) (strip rt line) in
     fetch_failure rt (network rt (sent w) rq) ->
     check_weather rt w
     = ({| self := self w; stdin := rest;
           stdout := stdout w
                     ++ [ Prompt (newline ++ lit "Enter city name or ZIP code: ");
                          failed rq; sorry ];
           sent := sent w ++ [rq] |}, Ok tt))
  /\ (forall answer rest,
        stdin w = line :: answer :: rest ->
        validate_input rt (strip rt line) = (true, lit "zip") ->
        let rq := zip_request (self w) (strip rt line) (country_of rt answer) in
        fetch_failure rt (network rt (sent w) rq) ->
        check_weather rt w
        = ({| self := self w; stdin := rest;
              stdout := stdout w
                        ++ [ Prompt (newline ++ lit "Enter city name or ZIP code: ");
                             Prompt (lit "Enter country code (e.g., US, UK, IN) or press Enter for US: ");
                             failed rq; sorry ];
              sent := sent w ++ [rq] |}, Ok tt))
  /\ (forall rest e,
        stdin w = line :: rest ->
        validate_input rt (strip rt line) = (true, lit "city") ->
        let rq := city_request (self w) (strip rt line) in
        (network rt (sent w) rq = Raised e
         \/ exists status reason body,
              network rt (sent w) rq = Responded status reason body
              /\ (400 <=? status) && (status <? 600) = false
              /\ json_loads rt body = None
              /\ json_raises rt body = Some e) ->
        check_weather rt w
        = ({| self := self w; stdin := rest;
              stdout := stdout w
                        ++ [Prompt (newline ++ lit "Enter city name or ZIP code: ")];
              sent := sent w ++ [rq] |}, Raise e)).
Proof.
  intros sorry failed. split; [|split].
  - intros rest Hin Hcity rq Hfail.
    rewrite (check_weather_city_steps w line rest Hin Hcity).
    unfold get_weather_by_city, get_self. unfold bind. cbv beta iota.
    match goal with
    | |- context [fetch rt ?ps ?w1] =>
        rewrite (fetch_failure_none rt ps w1 Hfail)
    end.
    unfold printed, requested, print, sorry, failed, rq, city_request.
    cbn [self sent stdin stdout truthy]. cbv iota.
    now rewrite <- !app_assoc.
  - intros answer rest Hin Hzip rq Hfail.
    rewrite (check_weather_zip_steps w line answer rest Hin Hzip).
    unfold get_weather_by_zip, get_self. unfold bind. cbv beta iota.
    match goal with
    | |- context [fetch rt ?ps ?w1] =>
        rewrite (fetch_failure_none rt ps w1 Hfail)
    end.
    unfold printed, requested, print, sorry, failed, rq, zip_request.
    cbn [self sent stdin stdout truthy]. cbv iota.
    now rewrite <- !app_assoc.
  - intros rest e Hin Hcity rq Hnet.
    rewrite (check_weather_city_steps w line rest Hin Hcity).
    unfold get_weather_by_city, get_self. unfold bind. cbv beta iota.
    unfold fetch. cbn [self sent stdin stdout].
    subst rq. unfold city_request in *.
    destruct Hnet as [Hnet | [status [reason [body [Hnet [Hs [Hj Hr]]]]]]].
    + now rewrite Hnet.
    + now rewrite Hnet, Hs, Hj, Hr.
Qed.

(** X5.  At the end of the input [check_weather] raises [EOFError] and sends
    nothing: so it does when there is no line at all, and when a postal code
    was read and no line is left for the country. *)
Theorem check_weather_end_of_input (w : world) :
  (stdin w = [] ->
   check_weather rt w
   = (printed w [Prompt (newline ++ lit "Enter city name or ZIP code: ")],
      Raise EOFError))
  /\ (forall line,
        stdin w = [line] ->
        validate_input rt (strip rt line) = (true, lit "zip") ->
        check_weather rt w
        = ({| self := self w; stdin := [];
              stdout := stdout w
                        ++ [ Prompt (newline ++ lit "Enter city name or ZIP code: ");
                             Prompt (lit "Enter country code (e.g., US, UK, IN) or press Enter for US: ") ];
              sent := sent w |}, Raise EOFError)).
Proof.
  split.
  - intros Hin. unfold check_weather, bind, input, printed. now rewrite Hin.
  - intros line Hin Hzip. unfold check_weather.
    unfold bind at 1. unfold input at 1. rewrite Hin, Hzip.
    cbn [negb]. change (str_eqb (lit "zip") (lit "zip")) with true. cbv iota.
    unfold bind, input. cbn [self sent stdin stdout].
    now rewrite <- app_assoc.
Qed.

(** The rest of [check_weather] once a city is read and the fetch gave
    [data]. *)
Lemma check_weather_city_fetched (w : world) (line : str) (rest : list str)
  (status : Z) (reason body : str) (data : pyval) :
  stdin w = line :: rest ->
  validate_input rt (strip rt line) = (true, lit "city") ->
  network rt (sent w) (city_request (self w) (strip rt line))
  = Responded status reason body ->
  (400 <=? status) && (status <? 600) = false ->
  json_loads rt body = Some data ->
  check_weather rt w
  = (if truthy data then display_weather rt data
     else print (lit "Could not retrieve weather data. Please check your input and try again."))
      {| self := self w; stdin := rest;
         stdout := stdout w
                   ++ [Prompt (newline ++ lit "Enter city name or ZIP code: ")];
         sent := sent w ++ [city_request (self w) (strip rt line)] |}.
Proof.
  intros Hin Hcity Hnet Hstatus Hjson.
  rewrite (check_weather_city_steps w line rest Hin Hcity).
  unfold get_weather_by_city, get_self. unfold bind. cbv beta iota.
  unfold fetch. cbn [self sent stdin stdout].
  unfold city_request in Hnet. rewrite Hnet, Hstatus, Hjson. reflexivity.
Qed.

(** X6.  A fetch that did not fail may still give no report.  When the
    body parses to something with a false truth value (an empty object,
    [null], zero, ...), [check_weather] prints "Could not retrieve weather
    data. Please check your input and try again." and no error before it.
    When it parses to something else that is not an object,
    [check_weather] raises [AttributeError] right after the request.  When
    it parses to an object whose [cod] is not 200, the one line printed is
    the error line with the message of the response. *)
Theorem check_weather_unusual_answers (w : world) (line : str)
  (rest : list str) (status : Z) (reason body : str) (data : pyval) :
  stdin w = line :: rest ->
  validate_input rt (strip rt line) = (true, lit "city") ->
  network rt (sent w) (city_request (self w) (strip rt line))
  = Responded status reason body ->
  (400 <=? status) && (status <? 600) = false ->
  json_loads rt body = Some data ->
  let w1 :=
    {| self := self w; stdin := rest;
       stdout := stdout w
                 ++ [Prompt (newline ++ lit "Enter city name or ZIP code: ")];
       sent := sent w ++ [city_request (self w) (strip rt line)] |} in
  (truthy data = false ->
   check_weather rt w
   = (printed w1
        [Print (lit "Could not retrieve weather data. Please check your input and try again.")],
      Ok tt))
  /\ (truthy data = true -> is_dict data = false ->
      check_weather rt w = (w1, Raise AttributeError))
  /\ (forall d, data = PDict d -> d <> [] -> successful d = false ->
      check_weather rt w
      = (printed w1
           [Print (error_line
                     (match dict_get (lit "message") d with
                      | Some m => py_str rt m
                      | None => lit "Unknown error"
                      end))],
         Ok tt)).
Proof.
  intros Hin Hcity Hnet Hstatus Hjson w1.
  rewrite (check_weather_city_fetched w line rest status reason body data
             Hin Hcity Hnet Hstatus Hjson).
  fold w1. split; [|split].
  - intros Ht. now rewrite Ht.
  - intros Ht Hd. rewrite Ht. unfold display_weather. rewrite Ht. cbn [negb].
    unfold bind at 1. unfold lift at 1.
    destruct data; try discriminate Hd; reflexivity.
  - intros d -> Hd Hs.
    replace (truthy (PDict d)) with true by (now destruct d).
    unfold display_weather.
    replace (truthy (PDict d)) with true by (now destruct d).
    cbn [negb]. rewrite !py_get_dict.
    unfold bind at 1. unfold lift at 1.
    replace (py_eq_int (or_default (dict_get (lit "cod") d) PNone) 200)
      with false
      by (unfold successful in Hs; now destruct (dict_get (lit "cod") d)).
    cbn [negb]. unfold bind, lift, print, printed, error_line.
    now destruct (dict_get (lit "message") d).
Qed.

End CheckWeather.

(** ** Changing the units *)

Section ChangeUnits.

Context (rt : Runtime).

(** X7.  [change_units] reads one line and returns.  The units become
    "metric" on the choice 1 and "imperial" on the choice 2 and stay as they
    are on any other line; key and endpoint stay, nothing is sent, and after
    the menu one line says what was done.  The warning of [set_units] about
    an unknown unit is never printed from here. *)
Theorem change_units_outcome (w : world) (line : str) (rest : list str) :
  stdin w = line :: rest ->
  let choice := strip rt line in
  let new_units :=
    if str_eqb choice (lit "1") then lit "metric"
    else if str_eqb choice (lit "2") then lit "imperial"
    else units (self w) in
  let said :=
    if str_eqb choice (lit "1") then
      lit "Temperature units changed to Celsius (" ++ celsius_sign ++ lit ")"
    else if str_eqb choice (lit "2") then
      lit "Temperature units changed to Fahrenheit (" ++ fahrenheit_sign ++ lit ")"
    else lit "Invalid choice. Keeping current units." in
  change_units rt w
  = ({| self := {| api_key := api_key (self w); base_url := base_url (self w);
                   units := new_units |};
        stdin := rest;
        stdout := stdout w ++ units_menu_lines ++ [Print said];
        sent := sent w |}, Ok tt).
Proof.
  intros Hin choice new_units said. unfold change_units.
  do 5 (unfold bind at 1; unfold print at 1).
  unfold bind at 1. unfold input at 1. cbn [stdin self stdout sent].
  rewrite Hin. cbv zeta. fold choice.
  subst new_units said.
  destruct (str_eqb choice (lit "1")).
  - unfold bind at 1.
    rewrite (set_units_metric rt (lit "celsius")) by reflexivity.
    unfold set_self_units, print.
    cbn [self stdin stdout sent api_key base_url units].
    rewrite <- !app_assoc. reflexivity.
  - destruct (str_eqb choice (lit "2")).
    + unfold bind at 1.
      rewrite (set_units_imperial rt (lit "fahrenheit")) by reflexivity.
      unfold set_self_units, print.
      cbn [self stdin stdout sent api_key base_url units].
      rewrite <- !app_assoc. reflexivity.
    + unfold print. cbn [stdin self stdout sent].
      rewrite <- !app_assoc. destruct w as [[k b u] i o q]. reflexivity.
Qed.

(** X8.  [set_units] always leaves one of the two unit names: "imperial"
    when the name given, in lower case, is "f", "fahrenheit" or "imperial",
    and "metric" otherwise.  A name that is none of these and none of "c",
    "celsius" and "metric" gets the warning "Invalid unit. Using Celsius
    (metric) by default."; nothing else is printed, and nothing is raised. *)
Theorem set_units_outcome (u : str) (w : world) :
  let known_c := str_in (lower rt u) [lit "c"; lit "celsius"; lit "metric"] in
  let known_f := str_in (lower rt u) [lit "f"; lit "fahrenheit"; lit "imperial"] in
  set_units rt u w
  = ({| self := {| api_key := api_key (self w); base_url := base_url (self w);
                   units := if known_f then lit "imperial" else lit "metric" |};
        stdin := stdin w;
        stdout := stdout w
                  ++ (if known_c || known_f then []
                      else [Print (lit "Invalid unit. Using Celsius (metric) by default.")]);
        sent := sent w |}, Ok tt).
Proof.
  intros known_c known_f. unfold set_units. fold known_c known_f.
  destruct known_c eqn:Ec.
  - assert (Ef : known_f = false).
    { subst known_c known_f. unfold str_in in *. cbn [existsb] in Ec.
      rewrite orb_false_r in Ec.
      apply orb_true_iff in Ec. destruct Ec as [H|H];
        [|apply orb_true_iff in H; destruct H as [H|H]];
        apply str_eqb_eq in H; rewrite H; reflexivity. }
    rewrite Ef. unfold set_self_units. cbn [orb]. now rewrite app_nil_r.
  - destruct known_f.
    + unfold set_self_units. cbn [orb]. now rewrite app_nil_r.
    + reflexivity.
Qed.

End ChangeUnits.

(** ** The outcomes of a fetch *)

Section FetchOutcomes.

Context (rt : Runtime).

(** A fetch fails in one of the three ways, or gives what a response with a
    status outside 400..599 parses to, or raises what [requests.get] or
    [json] raised. *)
Lemma fetch_outcome (params : list (str * str)) (w : world) :
  let rq := {| req_url := base_url (self w); req_params := params |} in
  (fetch_failure rt (network rt (sent w) rq)
   /\ fetch rt params w
      = (printed (requested w rq)
           [Print (lit "Error fetching weather data: "
                   ++ error_text rt rq (network rt (sent w) rq))],
         Ok PNone))
  \/ (exists status reason body data,
        network rt (sent w) rq = Responded status reason body
        /\ ~ 400 <= status < 600
        /\ json_loads rt body = Some data
        /\ fetch rt params w = (requested w rq, Ok data))
  \/ (exists e,
        (network rt (sent w) rq = Raised e
         \/ exists status reason body,
              network rt (sent w) rq = Responded status reason body
              /\ ~ 400 <= status < 600
              /\ json_loads rt body = None
              /\ json_raises rt body = Some e)
        /\ fetch rt params w = (requested w rq, Raise e)).
Proof.
  intros rq.
  assert (Hfail : fetch_failure rt (network rt (sent w) rq) ->
    fetch_failure rt (network rt (sent w) rq)
    /\ fetch rt params w
       = (printed (requested w rq)
            [Print (lit "Error fetching weather data: "
                    ++ error_text rt rq (network rt (sent w) rq))],
          Ok PNone)).
  { intros H. split; [exact H | now apply fetch_failure_none]. }
  destruct (network rt (sent w) rq) as [message | status reason body | e] eqn:E.
  - left. apply Hfail. constructor.
  - destruct ((400 <=? status) && (status <? 600)) eqn:Es.
    + left. apply Hfail. apply failure_status.
      apply andb_true_iff in Es. destruct Es as [H1 H2].
      apply Z.leb_le in H1. apply Z.ltb_lt in H2. lia.
    + assert (Hs : ~ 400 <= status < 600).
      { intros [H1 H2]. apply Z.leb_le in H1. apply Z.ltb_lt in H2.
        rewrite H1, H2 in Es. discriminate Es. }
      destruct (json_loads rt body) as [data|] eqn:Ej.
      * right. left. exists status, reason, body, data.
        split; [reflexivity|]. split; [exact Hs|]. split; [exact Ej|].
        unfold fetch. fold rq. now rewrite E, Es, Ej.
      * destruct (json_raises rt body) as [e|] eqn:Er.
        { right. right. exists e. split.
          - right. now exists status, reason, body.
          - unfold fetch. fold rq. now rewrite E, Es, Ej, Er. }
        left. apply Hfail. now apply failure_body.
  - right. right. exists e. split; [now left|].
    unfold fetch. fold rq. now rewrite E.
Qed.

(** X9.  The three outcomes of [get_weather_by_city] and of
    [get_weather_by_zip].  Either the fetch fails with a [RequestException]
    (no connection, a status from 400 to 599, a body that makes [json] raise
    its [JSONDecodeError]): one line is printed and the result is [None].
    Or the status is any other one and the body is JSON: the result is what
    the body parses to, and nothing is printed.  Or [requests.get] or [json]
    raises an exception that is no [RequestException]: the method raises it,
    and nothing is printed.  In each case exactly one request is made. *)
Theorem fetch_three_outcomes (w : world) :
  let outcome (rq : request) (run : world * result pyval) :=
    (fetch_failure rt (network rt (sent w) rq)
     /\ run = (printed (requested w rq)
                 [Print (lit "Error fetching weather data: "
                         ++ error_text rt rq (network rt (sent w) rq))],
               Ok PNone))
    \/ (exists status reason body data,
          network rt (sent w) rq = Responded status reason body
          /\ ~ 400 <= status < 600
          /\ json_loads rt body = Some data
          /\ run = (requested w rq, Ok data))
    \/ (exists e,
          (network rt (sent w) rq = Raised e
           \/ exists status reason body,
                network rt (sent w) rq = Responded status reason body
                /\ ~ 400 <= status < 600
                /\ json_loads rt body = None
                /\ json_raises rt body = Some e)
          /\ run = (requested w rq, Raise e)) in
  (forall city_name,
     outcome (city_request (self w) city_name)
       (get_weather_by_city rt city_name w))
  /\ (forall zip_code country_code,
        outcome (zip_request (self w) zip_code country_code)
          (get_weather_by_zip rt zip_code country_code w)).
Proof.
  intros outcome. split.
  - intros city_name.
    apply (fetch_outcome (req_params (city_request (self w) city_name)) w).
  - intros zip_code country_code.
    apply (fetch_outcome
             (req_params (zip_request (self w) zip_code country_code)) w).
Qed.

End FetchOutcomes.

(** ** Wind direction: the sectors *)

Section Sectors.

(** No whole number of degrees is halfway between two multiples of 45, so
    rounding the quotient is adding 22 and dividing. *)
Lemma div_half_even_45_floor (d : Z) : div_half_even d 45 = (d + 22) / 45.
Proof.
  unfold div_half_even.
  pose proof (Z.div_mod d 45 ltac:(lia)) as E.
  pose proof (Z.mod_pos_bound d 45 ltac:(lia)) as B.
  destruct (Z.ltb_spec (2 * (d mod 45)) 45) as [H|H].
  - apply (Z.div_unique _ _ _ (d mod 45 + 22)); lia.
  - destruct (Z.ltb_spec 45 (2 * (d mod 45))) as [H'|H']; [|lia].
    apply (Z.div_unique _ _ _ (d mod 45 - 23)); lia.
Qed.

Lemma compass_floor (d : Z) :
  Z.abs d < 45 * 2 ^ 47 ->
  compass d = Ok (nth (Z.to_nat ((d + 22) / 45 mod 8)) directions []).
Proof.
  intros Hd. rewrite (compass_exact d Hd). now rewrite div_half_even_45_floor.
Qed.

(** X10.  The compass point of a whole number of degrees [d], below
    [45 * 2^47] in absolute value: the entry number [(d + 22) / 45 mod 8] of
    the eight points.  So each point has a sector of 45 degrees around its
    own direction, from 22 below (23 for N) to 22 above: up to 22 degrees is
    N, from 23 to 67 is NE, and so on to 338 and more, which is N again;
    negative degrees count backwards from N. *)
Theorem compass_sectors (d : Z) :
  Z.abs d < 45 * 2 ^ 47 ->
  compass d = Ok (nth (Z.to_nat ((d + 22) / 45 mod 8)) directions [])
  /\ (forall k, 0 <= k < 8 -> 45 * k - 22 <= d mod 360 <= 45 * k + 22 ->
      compass d = Ok (nth (Z.to_nat k) directions []))
  /\ (338 <= d mod 360 -> compass d = Ok (lit "N")).
Proof.
  intros Hd. pose proof (compass_floor d Hd) as E.
  assert (Hm : forall k, 0 <= k <= 8 -> 45 * k - 22 <= d mod 360 <= 45 * k + 22 ->
               (d + 22) / 45 mod 8 = k mod 8).
  { intros k Hk Hs.
    pose proof (Z.div_mod d 360 ltac:(lia)) as Ed.
    replace (d + 22) with (d mod 360 + 22 + (d / 360 * 8) * 45) by lia.
    rewrite Z.div_add by lia.
    rewrite <- Zplus_mod_idemp_r.
    rewrite Z.mod_mul by lia.
    rewrite Z.add_0_r.
    replace ((d mod 360 + 22) / 45) with k; [reflexivity|].
    apply (Z.div_unique _ _ _ (d mod 360 + 22 - 45 * k)); lia. }
  split; [exact E|]. split.
  - intros k Hk Hs. rewrite E, (Hm k) by lia.
    now rewrite Z.mod_small by lia.
  - intros Hs. rewrite E.
    pose proof (Z.mod_pos_bound d 360 ltac:(lia)) as B.
    rewrite (Hm 8) by lia. reflexivity.
Qed.

End Sectors.

(** ** Rendering: when it gets through *)

Section Completion.

Context (rt : Runtime).

(** X11.  What is not an object is not rendered: data with a false truth
    value ([None], an empty object or list, zero, ...) gets the one line "No
    weather data to display.", and any other data that is not an object
    makes [display_weather] raise [AttributeError] before anything is
    printed. *)
Theorem display_weather_other_data (weather_data : pyval) (w : world) :
  (truthy weather_data = false ->
   display_weather rt weather_data w
   = (printed w [Print (lit "No weather data to display.")], Ok tt))
  /\ (truthy weather_data = true -> is_dict weather_data = false ->
      display_weather rt weather_data w = (w, Raise AttributeError)).
Proof.
  split.
  - intros Ht. unfold display_weather. now rewrite Ht.
  - intros Ht Hd. unfold display_weather. rewrite Ht. cbn [negb].
    unfold bind at 1. unfold lift at 1.
    destruct weather_data; try discriminate Hd; reflexivity.
Qed.

(** What a computation that returns went through. *)
Lemma ok_bind {A B} (c : IO A) (k : A -> IO B) (w : world) :
  is_ok (snd (bind c k w)) = true ->
  exists a w', c w = (w', Ok a) /\ is_ok (snd (k a w')) = true.
Proof.
  unfold bind. destruct (c w) as [w' [a|e]]; [|discriminate].
  intros H. now exists a, w'.
Qed.

Lemma ok_bind_lift {A B} (r : result A) (k : A -> IO B) (w : world) :
  is_ok (snd (bind (lift r) k w)) = true ->
  exists a, r = Ok a /\ is_ok (snd (k a w)) = true.
Proof.
  unfold bind, lift. destruct r as [a|e]; [|discriminate].
  intros H. now exists a.
Qed.

Lemma ok_bind_print {B} (l : str) (k : unit -> IO B) (w : world) :
  is_ok (snd (bind (print l) k w)) = true ->
  is_ok (snd (k tt (printed w [Print l]))) = true.
Proof. intros H. exact H. Qed.

Lemma ok_bind_self {B} (k : WeatherApp -> IO B) (w : world) :
  is_ok (snd (bind get_self k w)) = true -> is_ok (snd (k (self w) w)) = true.
Proof. intros H. exact H. Qed.

Ltac ok_step H :=
  lazymatch type of H with
  | is_ok (snd (bind (lift _) _ _)) = true =>
      let a := fresh "a" in
      let E := fresh "E" in
      apply ok_bind_lift in H; destruct H as [a [E H]];
      try (injection E as <-)
  | is_ok (snd (bind (print _) _ _)) = true => apply ok_bind_print in H
  | is_ok (snd (bind get_self _ _)) = true => apply ok_bind_self in H
  | is_ok (snd (bind _ _ _)) = true =>
      let a := fresh "a" in
      let w' := fresh "w" in
      let E := fresh "E" in
      apply ok_bind in H; destruct H as [a [w' [E H]]]
  end;
  cbv beta in H.

(** A section that was read is an object, or is not there. *)
Lemma py_get2_section (d : pdict) (outer inner : str) (default v : pyval) :
  py_get2 (PDict d) outer inner default = Ok v ->
  absent_or is_dict (dict_get outer d) = true.
Proof.
  unfold py_get2. rewrite py_get_dict.
  destruct (dict_get outer d) as [[]|]; simpl; try discriminate; reflexivity.
Qed.

Lemma py_get2_value (d : pdict) (outer inner : str) (default v : pyval) :
  py_get2 (PDict d) outer inner default = Ok v ->
  v = or_default (field d outer inner) default.
Proof.
  intros H. pose proof (py_get2_section d outer inner default v H) as Hs.
  rewrite (py_get2_field d outer inner default Hs) in H. now injection H.
Qed.

Lemma description_read (d : pdict) (weather0 description : pyval) (t : str) :
  py_item0 (or_default (dict_get (lit "weather") d) (PList [PDict []]))
  = Ok weather0 ->
  py_get weather0 (lit "description") NA = Ok description ->
  py_title rt description = Ok t ->
  description_ok d = true.
Proof.
  unfold description_ok.
  destruct (dict_get (lit "weather") d) as [v|]; [|reflexivity].
  destruct v as [| | | |s|l|]; simpl; try discriminate.
  - destruct s; [discriminate|]. intros H. injection H as <-. discriminate.
  - destruct l as [|x l]; [discriminate|]. intros H. injection H as <-.
    destruct x; simpl; try discriminate.
    destruct (dict_get (lit "description") d0) as [v|]; intros H;
      injection H as <-; [destruct v|]; simpl; try discriminate; reflexivity.
Qed.

Lemma keyword_read (d : pdict) (weather0 main : pyval) (s : str) :
  py_item0 (or_default (dict_get (lit "weather") d) (PList [PDict []]))
  = Ok weather0 ->
  py_get weather0 (lit "main") (PStr []) = Ok main ->
  py_lower rt main = Ok s ->
  absent_or is_str (condition d (lit "main")) = true.
Proof.
  unfold condition.
  destruct (dict_get (lit "weather") d) as [v|]; [|reflexivity].
  destruct v as [| | | |t|l|]; simpl; try reflexivity.
  destruct l as [|x l]; [reflexivity|]. intros H. injection H as <-.
  destruct x; simpl; try reflexivity.
  destruct (dict_get (lit "main") d0) as [v|]; intros H;
    injection H as <-; [destruct v|]; simpl; try discriminate; reflexivity.
Qed.

Lemma time_read (d : pdict) (key : str) (v : pyval) (t : str) (w w' : world) :
  py_get2 (PDict d) (lit "sys") key PNone = Ok v ->
  (if truthy v then lift (fromtimestamp_HMS rt v) else ret (lit "N/A")) w
  = (w', Ok t) ->
  time_ok rt (field d (lit "sys") key) = true.
Proof.
  intros Hv. apply py_get2_value in Hv. subst v. unfold time_ok.
  destruct (field d (lit "sys") key) as [x|]; simpl; [|reflexivity].
  destruct (truthy x); simpl; [|reflexivity].
  unfold lift. intros H. injection H as _ ->. reflexivity.
Qed.

Lemma degrees_read (d : pdict) (v : pyval) (w w' : world) (r : unit) :
  py_get2 (PDict d) (lit "wind") (lit "deg") NA = Ok v ->
  (if negb (py_eq_str v (lit "N/A")) then
     bind (lift (wind_direction v))
       (fun direction =>
          print ([0x1F9ED]%N ++ lit " Wind Direction: " ++ direction
                 ++ lit " (" ++ py_str rt v ++ degree_sign ++ lit ")"))
   else ret tt) w
  = (w', Ok r) ->
  degrees_ok (field d (lit "wind") (lit "deg")) = true.
Proof.
  intros Hv. apply py_get2_value in Hv. subst v. unfold degrees_ok.
  destruct (field d (lit "wind") (lit "deg")) as [x|]; simpl; [|reflexivity].
  destruct (py_eq_str x (lit "N/A")); simpl; [reflexivity|].
  unfold bind, lift. destruct (wind_direction x); [reflexivity | discriminate].
Qed.

(** A successful response that is rendered to the end is a renderable
    one. *)
Lemma display_weather_returned (d : pdict) (w : world) :
  successful d = true ->
  is_ok (snd (display_weather rt (PDict d) w)) = true ->
  renderable rt d = true.
Proof.
  intros Hs H.
  assert (Hcod : py_eq_int (or_default (dict_get (lit "cod") d) PNone) 200 = true).
  { unfold successful in Hs.
    destruct (dict_get (lit "cod") d); [exact Hs | discriminate]. }
  unfold display_weather in H.
  rewrite (successful_truthy d Hs) in H. cbn [negb] in H.
  rewrite !py_get_dict in H.
  ok_step H. rewrite Hcod in H. cbn [negb] in H.
  repeat ok_step H.
  unfold renderable, extractable.
  repeat (apply andb_true_iff; split).
  - match goal with
    | E : py_get2 _ (lit "sys") (lit "country") _ = Ok _ |- _ =>
        exact (py_get2_section _ _ _ _ _ E)
    end.
  - match goal with
    | E : py_get2 _ (lit "main") (lit "temp") _ = Ok _ |- _ =>
        exact (py_get2_section _ _ _ _ _ E)
    end.
  - match goal with
    | E : py_get2 _ (lit "wind") (lit "speed") _ = Ok _ |- _ =>
        exact (py_get2_section _ _ _ _ _ E)
    end.
  - match goal with
    | E1 : py_item0 _ = Ok ?x, E2 : py_get ?x (lit "description") _ = Ok ?y,
      E3 : py_title rt ?y = Ok _ |- _ =>
        exact (description_read _ _ _ _ E1 E2 E3)
    end.
  - match goal with
    | E1 : py_get2 _ (lit "sys") (lit "sunrise") _ = Ok ?v,
      E2 : (if truthy ?v then _ else _) _ = _ |- _ =>
        exact (time_read _ _ _ _ _ _ E1 E2)
    end.
  - match goal with
    | E1 : py_get2 _ (lit "sys") (lit "sunset") _ = Ok ?v,
      E2 : (if truthy ?v then _ else _) _ = _ |- _ =>
        exact (time_read _ _ _ _ _ _ E1 E2)
    end.
  - match goal with
    | E1 : py_get2 _ (lit "wind") (lit "deg") _ = Ok ?v,
      E2 : (if negb (py_eq_str ?v _) then _ else _) _ = _ |- _ =>
        exact (degrees_read _ _ _ _ _ E1 E2)
    end.
  - match goal with
    | E1 : py_item0 _ = Ok ?x, E2 : py_get ?x (lit "main") _ = Ok ?y,
      E3 : py_lower rt ?y = Ok _ |- _ =>
        exact (keyword_read _ _ _ _ E1 E2 E3)
    end.
  - match goal with
    | E : py_get2 _ (lit "clouds") (lit "all") _ = Ok _ |- _ =>
        exact (py_get2_section _ _ _ _ _ E)
    end.
Qed.

(** What a computation that changed the world went through. *)
Lemma moved_bind_lift {A B} (r : result A) (k : A -> IO B) (w : world) :
  fst (bind (lift r) k w) <> w -> exists a, r = Ok a /\ fst (k a w) <> w.
Proof.
  unfold bind, lift. destruct r as [a|e].
  - intros H. now exists a.
  - intros H. now contradiction H.
Qed.

Lemma moved_bind_quiet {A B} (c : IO A) (k : A -> IO B) (w : world) :
  fst (c w) = w ->
  fst (bind c k w) <> w -> exists a, c w = (w, Ok a) /\ fst (k a w) <> w.
Proof.
  unfold bind. destruct (c w) as [w' [a|e]]; cbn [fst]; intros ->.
  - intros H. now exists a.
  - intros H. now contradiction H.
Qed.

Lemma moved_bind_self {B} (k : WeatherApp -> IO B) (w : world) :
  fst (bind get_self k w) <> w -> fst (k (self w) w) <> w.
Proof. intros H. exact H. Qed.

Ltac moved_step H :=
  lazymatch type of H with
  | fst (bind (lift _) _ _) <> _ =>
      let a := fresh "a" in
      let E := fresh "E" in
      apply moved_bind_lift in H; destruct H as [a [E H]];
      try (injection E as <-)
  | fst (bind get_self _ _) <> _ => apply moved_bind_self in H
  | fst (bind (if truthy ?v then _ else _) _ _) <> _ =>
      let a := fresh "a" in
      let E := fresh "E" in
      apply moved_bind_quiet in H;
      [ destruct H as [a [E H]] | destruct (truthy v); reflexivity ]
  end;
  cbv beta in H.

(** All the fields are extracted before the first line is printed: a
    successful response for which anything is printed is one whose fields
    can be extracted. *)
Lemma display_weather_printed_extractable (d : pdict) (w : world) :
  successful d = true ->
  fst (display_weather rt (PDict d) w) <> w ->
  extractable rt d = true.
Proof.
  intros Hs H.
  assert (Hcod : py_eq_int (or_default (dict_get (lit "cod") d) PNone) 200 = true).
  { unfold successful in Hs.
    destruct (dict_get (lit "cod") d); [exact Hs | discriminate]. }
  unfold display_weather in H.
  rewrite (successful_truthy d Hs) in H. cbn [negb] in H.
  rewrite !py_get_dict in H.
  moved_step H. rewrite Hcod in H. cbn [negb] in H.
  repeat moved_step H.
  unfold extractable.
  repeat (apply andb_true_iff; split).
  - match goal with
    | E : py_get2 _ (lit "sys") (lit "country") _ = Ok _ |- _ =>
        exact (py_get2_section _ _ _ _ _ E)
    end.
  - match goal with
    | E : py_get2 _ (lit "main") (lit "temp") _ = Ok _ |- _ =>
        exact (py_get2_section _ _ _ _ _ E)
    end.
  - match goal with
    | E : py_get2 _ (lit "wind") (lit "speed") _ = Ok _ |- _ =>
        exact (py_get2_section _ _ _ _ _ E)
    end.
  - match goal with
    | E1 : py_item0 _ = Ok ?x, E2 : py_get ?x (lit "description") _ = Ok ?y,
      E3 : py_title rt ?y = Ok _ |- _ =>
        exact (description_read _ _ _ _ E1 E2 E3)
    end.
  - match goal with
    | E1 : py_get2 _ (lit "sys") (lit "sunrise") _ = Ok ?v,
      E2 : (if truthy ?v then _ else _) _ = _ |- _ =>
        exact (time_read _ _ _ _ _ _ E1 E2)
    end.
  - match goal with
    | E1 : py_get2 _ (lit "sys") (lit "sunset") _ = Ok ?v,
      E2 : (if truthy ?v then _ else _) _ = _ |- _ =>
        exact (time_read _ _ _ _ _ _ E1 E2)
    end.
Qed.

Lemma printed_same (w : world) (out : list output) :
  printed w out = w -> out = [].
Proof.
  intros H. apply (f_equal stdout) in H. cbn [printed stdout] in H.
  rewrite <- (app_nil_r (stdout w)) in H at 2. now apply app_inv_head in H.
Qed.

Lemma printed_inj (w : world) (a b : list output) :
  printed w a = printed w b -> a = b.
Proof.
  intros H. apply (f_equal stdout) in H. cbn [printed stdout] in H.
  now apply app_inv_head in H.
Qed.

(** A successful response whose fields cannot be extracted makes
    [display_weather] raise before anything is printed. *)
Lemma display_weather_unextractable (d : pdict) (w : world) :
  successful d = true ->
  extractable rt d = false ->
  exists e, display_weather rt (PDict d) w = (w, Raise e).
Proof.
  intros Hs He.
  destruct (display_weather rt (PDict d) w) as [w' r] eqn:E.
  assert (Hw : w' = w).
  { destruct (display_weather_prints_ok rt (self w) (PDict d) w eq_refl)
      as [out [r' [E' _]]].
    rewrite E in E'. injection E' as -> _.
    destruct out as [|o out]; [apply printed_nil|].
    assert (Hx : extractable rt d = true).
    { apply (display_weather_printed_extractable d w Hs). rewrite E. cbn [fst].
      intros H. apply printed_same in H. discriminate H. }
    rewrite Hx in He. discriminate He. }
  subst w'. destruct r as [[]|e]; [|now exists e].
  assert (Hr : renderable rt d = true).
  { apply (display_weather_returned d w Hs). now rewrite E. }
  unfold renderable in Hr. rewrite He in Hr. discriminate Hr.
Qed.

(** C7.  For a successful response with no wind degree, no wind-direction
    line is printed, however far the rendering gets, and whenever the
    response is rendered the wind-speed line is.  All the fields are
    extracted before the first line is printed: either nothing is printed at
    all (the fields cannot be extracted, and [display_weather] raises), or
    the report is printed at least up to the wind-speed line, its eighth
    line.  When the renderer gets through the whole response, the line after
    the wind-speed line is the visibility line. *)
Theorem display_weather_without_wind_degree (d : pdict) (w : world) :
  successful d = true ->
  field d (lit "wind") (lit "deg") = None ->
  exists lines r,
    display_weather rt (PDict d) w = (printed w lines, r)
    /\ existsb is_wind_direction_line lines = false
    /\ (lines <> [] ->
        nth_error lines 7
        = Some (Print (wind_speed_line
                         (shown rt (field d (lit "wind") (lit "speed"))))))
    /\ (lines <> [] <-> extractable rt d = true)
    /\ (renderable rt d = true ->
        r = Ok tt
        /\ exists visibility,
             nth_error lines 8 = Some (Print (visibility_line visibility))).
Proof.
  intros Hs Hdeg. destruct (extractable rt d) eqn:Hx.
  - destruct (display_weather_up_to_wind_speed rt (self w) d Hs Hx Hdeg w eq_refl)
      as [more [r [E Hmore]]].
    exists (firstn 8 (report rt (self w) d) ++ more), r.
    split; [exact E|]. split.
    { rewrite existsb_app, (existsb_false _ _ Hmore). reflexivity. }
    split; [reflexivity|]. split.
    { split; [reflexivity | discriminate]. }
    intros Hr.
    pose proof (display_weather_report rt (self w) d Hs Hr w eq_refl) as E'.
    rewrite E in E'.
    pose proof (f_equal fst E') as Hl. pose proof (f_equal snd E') as Hok.
    cbn [fst snd] in Hl, Hok. apply printed_inj in Hl.
    split; [exact Hok|]. rewrite Hl. unfold report. rewrite Hdeg. cbn [List.app nth_error].
    destruct (dict_get (lit "visibility") d) as [v|];
      [destruct (py_eq_str v (lit "N/A"))|]; eexists; reflexivity.
  - destruct (display_weather_unextractable d w Hs Hx) as [e E].
    exists [], (Raise e). rewrite printed_nil.
    split; [exact E|]. split; [reflexivity|].
    split; [intros H; now contradiction H|]. split.
    { split; [intros H; now contradiction H | discriminate]. }
    intros Hr. unfold renderable in Hr. rewrite Hx in Hr. discriminate Hr.
Qed.

(** X12.  When [display_weather] raises on a successful response: on every
    one that is not renderable, that is, with a section read that is not an
    object, a [weather] member that is not a list starting with an object,
    a description or a keyword that is not a string, a timestamp taken for
    present that does not convert, or a wind degree that is neither the
    placeholder text nor a number with a compass point.  When the fields
    cannot be extracted, it raises before anything is printed.  So when
    [display_weather] returns, the response was renderable, and what was
    printed is the full report. *)
Theorem display_weather_raises_unless_renderable (d : pdict) (w : world) :
  successful d = true ->
  (renderable rt d = false ->
   exists e, snd (display_weather rt (PDict d) w) = Raise e)
  /\ (extractable rt d = false ->
      exists e, display_weather rt (PDict d) w = (w, Raise e))
  /\ (snd (display_weather rt (PDict d) w) = Ok tt ->
      renderable rt d = true
      /\ display_weather rt (PDict d) w
         = (printed w (report rt (self w) d), Ok tt)).
Proof.
  intros Hs.
  assert (Hback : is_ok (snd (display_weather rt (PDict d) w)) = true ->
                  renderable rt d = true)
    by apply (display_weather_returned d w Hs).
  split; [|split].
  - intros Hr. destruct (snd (display_weather rt (PDict d) w)) as [[]|e] eqn:E.
    + rewrite Hback in Hr; [discriminate | reflexivity].
    + now exists e.
  - apply (display_weather_unextractable d w Hs).
  - intros H.
    assert (Hr : renderable rt d = true) by (apply Hback; now rewrite H).
    split; [exact Hr|].
    now apply (display_weather_report rt (self w) d Hs Hr w).
Qed.

(** X13.  With a whole number of degrees as the wind degree, the ninth line
    of the report is the wind direction: the compass point of the sector the
    degrees fall in, and the degrees as they came. *)
Theorem display_weather_wind_direction_line (d : pdict) (n : Z) (w : world) :
  successful d = true ->
  renderable rt d = true ->
  field d (lit "wind") (lit "deg") = Some (PInt n) ->
  Z.abs n < 45 * 2 ^ 47 ->
  exists lines,
    display_weather rt (PDict d) w = (printed w lines, Ok tt)
    /\ nth_error lines 8
       = Some (Print (wind_direction_line
                        (nth (Z.to_nat ((n + 22) / 45 mod 8)) directions [])
                        (str_of_int n)))
    /\ nth_error lines 7
       = Some (Print (wind_speed_line
                        (shown rt (field d (lit "wind") (lit "speed"))))).
Proof.
  intros Hs Hr Hdeg Hn. exists (report rt (self w) d).
  split; [now apply (display_weather_report rt (self w) d Hs Hr w)|].
  unfold report. rewrite Hdeg.
  change (wind_direction (PInt n)) with (compass n).
  rewrite (compass_floor n Hn). split; reflexivity.
Qed.

(** X25.  Rendering only prints, whatever the data and however far it
    gets: the object, the lines left to read and the requests sent are as
    before, also when [display_weather] raises; and a temperature line among
    what it printed carries the unit symbol of the object. *)
Theorem display_weather_only_prints (weather_data : pyval) (w : world) :
  exists out r,
    display_weather rt weather_data w
    = ({| self := self w; stdin := stdin w; stdout := stdout w ++ out;
          sent := sent w |}, r)
    /\ forall temperature_text,
         In (Print temperature_text) out ->
         starts_with thermometer temperature_text = true ->
         exists temp feels_like,
           temperature_text
           = temperature_line temp (unit_symbol (self w)) feels_like.
Proof.
  destruct (display_weather_prints_ok rt (self w) weather_data w eq_refl)
    as [out [r [E Hout]]].
  exists out, r. split; [exact E|].
  intros l Hin Hl. rewrite Forall_forall in Hout.
  exact (Hout (Print l) Hin l eq_refl Hl).
Qed.

End Completion.

(** ** The menu loop *)

Section Loop.

Context (rt : Runtime) (host : Host).

Lemma bind_print {B} (l : str) (k : unit -> IO B) (w : world) :
  bind (print l) k w = k tt (printed w [Print l]).
Proof. reflexivity. Qed.

Lemma input_line (prompt : str) (w : world) (line : str) (rest : list str) :
  stdin w = line :: rest ->
  input prompt w = (reading (printed w [Prompt prompt]) rest, Ok line).
Proof. intros H. unfold input. now rewrite H. Qed.

Lemma input_end (prompt : str) (w : world) :
  stdin w = [] -> input prompt w = (printed w [Prompt prompt], Raise EOFError).
Proof. intros H. unfold input, printed. now rewrite H. Qed.

Lemma try_print {A} (l : str) (k : unit -> IO A) (h : exn -> IO A) (w : world) :
  try_except (bind (print l) k) h w = try_except (k tt) h (printed w [Print l]).
Proof. reflexivity. Qed.

Lemma try_input_line {A} (prompt : str) (k : str -> IO A) (h : exn -> IO A)
  (w : world) (line : str) (rest : list str) :
  stdin w = line :: rest ->
  try_except (bind (input prompt) k) h w
  = try_except (k line) h (reading (printed w [Prompt prompt]) rest).
Proof.
  intros H. unfold try_except, bind. now rewrite (input_line prompt w line rest H).
Qed.

Lemma try_input_end {A} (prompt : str) (k : str -> IO A) (h : exn -> IO A)
  (w : world) :
  stdin w = [] ->
  try_except (bind (input prompt) k) h w = h EOFError (printed w [Prompt prompt]).
Proof.
  intros H. unfold try_except, bind. now rewrite (input_end prompt w H).
Qed.

(** A turn that is interrupted. *)
Lemma run_turn_interrupted (w : world) :
  interrupted host w = true ->
  run_turn rt host w
  = (printed w (menu_lines ++ [Print interrupted_line]), Ok true).
Proof.
  intros H. unfold run_turn. rewrite H.
  unfold bind, print, interrupted_input, ret, printed.
  cbn [self stdin stdout sent]. now rewrite <- !app_assoc.
Qed.

(** A turn at the end of the input. *)
Lemma run_turn_end (w : world) :
  interrupted host w = false -> stdin w = [] ->
  run_turn rt host w
  = (printed w (menu_lines
                ++ [Print (unexpected_error_line (exception_text host EOFError))]),
     Ok false).
Proof.
  intros H Hin. unfold run_turn. rewrite H.
  rewrite !try_print. rewrite try_input_end by exact Hin.
  rewrite bind_print. unfold ret. rewrite !printed_app. reflexivity.
Qed.

(** A turn that reads a line: what is left is the branch on the choice. *)
Lemma run_turn_line (w : world) (line : str) (rest : list str) :
  interrupted host w = false -> stdin w = line :: rest ->
  run_turn rt host w
  = try_except
      (if str_eqb (strip rt line) (lit "1") then
         bind (check_weather rt) (fun _ => ret false)
       else if str_eqb (strip rt line) (lit "2") then
         bind (change_units rt) (fun _ => ret false)
       else if str_eqb (strip rt line) (lit "3") then
         bind (print farewell_line) (fun _ => ret true)
       else
         bind (print invalid_choice_line) (fun _ => ret false))
      (fun e =>
         bind (print (unexpected_error_line (exception_text host e)))
           (fun _ => ret false))
      (reading (printed w menu_lines) rest).
Proof.
  intros H Hin. unfold run_turn. rewrite H.
  rewrite !try_print.
  rewrite (try_input_line _ _ _ _ line rest) by exact Hin.
  rewrite !printed_app. reflexivity.
Qed.

Lemma str_eqb_refl (a : str) : str_eqb a a = true.
Proof. now apply str_eqb_eq. Qed.

Lemma str_eqb_neq (a b : str) : a <> b -> str_eqb a b = false.
Proof.
  intros H. destruct (str_eqb a b) eqn:E; [|reflexivity].
  now apply str_eqb_eq in E.
Qed.

Lemma run_turn_exit (w : world) (line : str) (rest : list str) :
  interrupted host w = false -> stdin w = line :: rest ->
  strip rt line = lit "3" ->
  run_turn rt host w
  = (reading (printed w (menu_lines ++ [Print farewell_line])) rest, Ok true).
Proof.
  intros H Hin Hc. rewrite (run_turn_line w line rest H Hin), Hc.
  change (str_eqb (lit "3") (lit "1")) with false.
  change (str_eqb (lit "3") (lit "2")) with false.
  change (str_eqb (lit "3") (lit "3")) with true. cbv iota.
  unfold try_except, reading, printed. cbn [self stdin stdout sent].
  rewrite bind_print. unfold ret, printed. cbn [self stdin stdout sent].
  now rewrite <- app_assoc.
Qed.

Lemma run_turn_invalid (w : world) (line : str) (rest : list str) :
  interrupted host w = false -> stdin w = line :: rest ->
  no_choice rt line ->
  run_turn rt host w
  = (reading (printed w (menu_lines ++ [Print invalid_choice_line])) rest,
     Ok false).
Proof.
  intros H Hin [H1 [H2 H3]]. rewrite (run_turn_line w line rest H Hin).
  rewrite !str_eqb_neq by assumption.
  unfold try_except, reading, printed. cbn [self stdin stdout sent].
  rewrite bind_print. unfold ret, printed. cbn [self stdin stdout sent].
  now rewrite <- app_assoc.
Qed.

(** What a guarded action of the menu ends in: never an exception, and
    never the end of the loop. *)
Lemma try_action_goes_on (c : IO unit) (w : world) :
  snd (try_except (bind c (fun _ => ret false))
         (fun e =>
            bind (print (unexpected_error_line (exception_text host e)))
              (fun _ => ret false)) w)
  = Ok false.
Proof.
  unfold try_except, bind. destruct (c w) as [w' [[]|e]]; reflexivity.
Qed.

(** X14.  When a turn of the menu loop leaves the loop.  A turn in which
    the user interrupts at the prompt for the choice prints "Program
    interrupted. Exiting..." and leaves it.  A turn in which no interrupt
    arrives does not raise, and leaves the loop exactly when the line read
    is the choice 3: another choice, an action that raises an exception and
    the end of the input all keep the loop going. *)
Theorem run_turn_leaves_loop (w : world) :
  (interrupted host w = true ->
   run_turn rt host w
   = (printed w (menu_lines ++ [Print interrupted_line]), Ok true))
  /\ (interrupted host w = false ->
      (snd (run_turn rt host w) = Ok true
       \/ snd (run_turn rt host w) = Ok false)
      /\ (snd (run_turn rt host w) = Ok true <->
          exists line rest, stdin w = line :: rest /\ strip rt line = lit "3")).
Proof.
  split; [apply run_turn_interrupted|]. intros Hi.
  destruct (stdin w) as [|line rest] eqn:Hin.
  { rewrite (run_turn_end w Hi Hin). cbn [snd].
    split; [now right|]. split; [discriminate|].
    intros [line [rest [H _]]]. discriminate H. }
  assert (Hno : snd (run_turn rt host w) = Ok false ->
    strip rt line <> lit "3" ->
    (snd (run_turn rt host w) = Ok true \/ snd (run_turn rt host w) = Ok false)
    /\ (snd (run_turn rt host w) = Ok true <->
        exists line0 rest0, line :: rest = line0 :: rest0
                            /\ strip rt line0 = lit "3")).
  { intros -> Hc. split; [now right|]. split; [discriminate|].
    intros [line0 [rest0 [H H3]]].
    injection H as <- <-. contradiction. }
  destruct (str_eqb (strip rt line) (lit "1")) eqn:E1.
  { apply Hno.
    - rewrite (run_turn_line w line rest Hi Hin), E1. apply try_action_goes_on.
    - apply str_eqb_eq in E1. rewrite E1. discriminate. }
  destruct (str_eqb (strip rt line) (lit "2")) eqn:E2.
  { apply Hno.
    - rewrite (run_turn_line w line rest Hi Hin), E1, E2.
      apply try_action_goes_on.
    - apply str_eqb_eq in E2. rewrite E2. discriminate. }
  destruct (str_eqb (strip rt line) (lit "3")) eqn:E3.
  - apply str_eqb_eq in E3. rewrite (run_turn_exit w line rest Hi Hin E3).
    cbn [snd]. split; [now left|]. split; [|reflexivity].
    intros _. now exists line, rest.
  - apply Hno.
    + rewrite (run_turn_line w line rest Hi Hin), E1, E2, E3. reflexivity.
    + intros H. rewrite H in E3. discriminate E3.
Qed.

(** X15.  At the end of the input the menu loop does not end: each turn
    shows the menu, reports the [EOFError] of its [input] as an unexpected
    error and goes on; nothing is sent, and the loop is never left, however
    many turns it is given. *)
Theorem run_loop_end_of_input (w : world) (turns : nat) :
  (forall w', interrupted host w' = false) ->
  stdin w = [] ->
  run_loop rt host turns w
  = (printed w
       (List.concat
          (repeat (menu_lines
                   ++ [Print (unexpected_error_line
                                (exception_text host EOFError))]) turns)),
     Ok false).
Proof.
  intros Hi. revert w. induction turns as [|turns IH]; intros w Hin.
  - cbn [run_loop repeat List.concat]. unfold ret. now rewrite printed_nil.
  - cbn [run_loop repeat List.concat]. unfold bind.
    rewrite (run_turn_end w (Hi w) Hin).
    rewrite IH by exact Hin. now rewrite printed_app.
Qed.

(** The loop over lines that are no choice of the menu. *)
Lemma run_loop_invalid (junk : list str) (w : world) (rest : list str)
  (more : nat) :
  (forall w', interrupted host w' = false) ->
  stdin w = junk ++ rest ->
  Forall (no_choice rt) junk ->
  run_loop rt host (List.length junk + more) w
  = run_loop rt host more
      (reading
         (printed w
            (List.concat
               (map (fun _ => menu_lines ++ [Print invalid_choice_line]) junk)))
         rest).
Proof.
  intros Hi. revert w. induction junk as [|line junk IH]; intros w Hin Hj.
  - cbn [List.length map List.concat Nat.add]. rewrite printed_nil.
    cbn [List.app] in Hin. unfold reading. rewrite <- Hin. now destruct w.
  - cbn [List.length map List.concat Nat.add run_loop].
    inversion Hj as [|l j Hl Hjunk]; subst.
    unfold bind at 1.
    rewrite (run_turn_invalid w line (junk ++ rest) (Hi w) Hin Hl).
    rewrite IH; [|reflexivity | exact Hjunk].
    unfold reading, printed. cbn [self stdin stdout sent].
    now rewrite <- !app_assoc.
Qed.

Lemma run_loop_exit_steps (junk : list str) (line : str) (rest : list str)
  (w : world) (more : nat) :
  (forall w', interrupted host w' = false) ->
  stdin w = junk ++ line :: rest ->
  Forall (no_choice rt) junk ->
  strip rt line = lit "3" ->
  run_loop rt host (List.length junk + S more) w
  = ({| self := self w; stdin := rest;
        stdout := stdout w
                  ++ List.concat
                       (map (fun _ => menu_lines ++ [Print invalid_choice_line])
                          junk)
                  ++ menu_lines ++ [Print farewell_line];
        sent := sent w |}, Ok true).
Proof.
  intros Hi Hin Hj Hc.
  rewrite (run_loop_invalid junk w (line :: rest) (S more) Hi Hin Hj).
  cbn [run_loop]. unfold bind.
  match goal with
  | |- context [run_turn rt host ?w1] =>
      rewrite (run_turn_exit w1 line rest (Hi w1) eq_refl Hc)
  end.
  unfold ret, reading, printed. cbn [self stdin stdout sent].
  now rewrite <- !app_assoc.
Qed.

(** X16.  Lines that are no choice of the menu are each answered by
    "Invalid choice. Please enter 1, 2, or 3." and the menu again; the
    choice 3 after them ends the loop with the farewell.  Nothing is sent
    meanwhile, the object stays as it is, and the lines after the choice 3
    are left unread. *)
Theorem run_loop_exit (junk : list str) (line : str) (rest : list str)
  (w : world) (more : nat) :
  (forall w', interrupted host w' = false) ->
  stdin w = junk ++ line :: rest ->
  Forall (no_choice rt) junk ->
  strip rt line = lit "3" ->
  run_loop rt host (List.length junk + S more) w
  = ({| self := self w; stdin := rest;
        stdout := stdout w
                  ++ List.concat
                       (map (fun _ => menu_lines ++ [Print invalid_choice_line])
                          junk)
                  ++ menu_lines ++ [Print farewell_line];
        sent := sent w |}, Ok true).
Proof. apply run_loop_exit_steps. Qed.

(** X17.  The choices 1 and 2 of the menu run [check_weather] and
    [change_units].  When the action returns, the turn leaves the world as
    the action left it; when it raises, the turn reports the exception as
    "An unexpected error occurred: ..." after what the action printed.
    Either way the loop goes on. *)
Theorem run_turn_action (w : world) (line : str) (rest : list str) :
  interrupted host w = false ->
  stdin w = line :: rest ->
  let guarded (action : IO unit) :=
    match action (reading (printed w menu_lines) rest) with
    | (w', Ok _) => (w', Ok false)
    | (w', Raise e) =>
        (printed w' [Print (unexpected_error_line (exception_text host e))],
         Ok false)
    end in
  (strip rt line = lit "1" -> run_turn rt host w = guarded (check_weather rt))
  /\ (strip rt line = lit "2" -> run_turn rt host w = guarded (change_units rt)).
Proof.
  intros Hi Hin guarded. subst guarded. cbv beta.
  rewrite (run_turn_line w line rest Hi Hin).
  split; intros ->.
  - change (str_eqb (lit "1") (lit "1")) with true. cbv iota.
    unfold try_except, bind at 1.
    now destruct (check_weather rt (reading (printed w menu_lines) rest))
      as [w' [[]|e]].
  - change (str_eqb (lit "2") (lit "1")) with false.
    change (str_eqb (lit "2") (lit "2")) with true. cbv iota.
    unfold try_except, bind at 1.
    now destruct (change_units rt (reading (printed w menu_lines) rest))
      as [w' [[]|e]].
Qed.

End Loop.

(** ** What the program sends *)

Section Requests.

Context (rt : Runtime) (host : Host).

Lemma steady_refl (key : str) (w : world) :
  app_ok key (self w) -> steady key w w.
Proof.
  intros H. split; [exact H|]. exists []. now rewrite app_nil_r.
Qed.

Lemma steady_trans (key : str) (w1 w2 w3 : world) :
  steady key w1 w2 -> steady key w2 w3 -> steady key w1 w3.
Proof.
  intros [_ [r1 [E1 F1]]] [H3 [r2 [E2 F2]]]. split; [exact H3|].
  exists (r1 ++ r2). rewrite E2, E1, app_assoc. split; [reflexivity|].
  now apply Forall_app.
Qed.

Lemma orderly_bind {A B} (key : str) (c : IO A) (k : A -> IO B) :
  orderly key c -> (forall a, orderly key (k a)) -> orderly key (bind c k).
Proof.
  intros Hc Hk w Hw. unfold bind. specialize (Hc w Hw).
  destruct (c w) as [w' [a|e]]; cbn [fst] in *; [|exact Hc].
  eapply steady_trans; [exact Hc|]. apply Hk. now destruct Hc.
Qed.

Lemma orderly_bind_self {B} (key : str) (k : WeatherApp -> IO B) :
  (forall app, app_ok key app -> orderly key (k app)) ->
  orderly key (bind get_self k).
Proof. intros Hk w Hw. unfold bind, get_self. now apply Hk. Qed.

Lemma orderly_prints {A} (key : str) (c : IO A) :
  (forall app, prints_only (line_ok app) app c) -> orderly key c.
Proof.
  intros H w Hw. destruct (H (self w) w eq_refl) as [out [r [-> _]]].
  split; [exact Hw|]. exists []. cbn [fst printed sent]. now rewrite app_nil_r.
Qed.

Lemma orderly_print (key : str) (l : str) : orderly key (print l).
Proof. intros w Hw. split; [exact Hw|]. exists []. cbn. now rewrite app_nil_r. Qed.

Lemma orderly_ret {A} (key : str) (a : A) : orderly key (ret a).
Proof. intros w Hw. now apply steady_refl. Qed.

Lemma orderly_input (key : str) (prompt : str) : orderly key (input prompt).
Proof.
  intros w Hw. unfold input.
  destruct (stdin w); (split; [exact Hw|]); exists []; cbn;
    now rewrite app_nil_r.
Qed.

Lemma orderly_fetch (key selector location unit_name : str) :
  selector = lit "q" \/ selector = lit "zip" ->
  unit_name = lit "metric" \/ unit_name = lit "imperial" ->
  orderly key (fetch rt [ (selector, location); (lit "appid", key);
                          (lit "units", unit_name); (lit "lang", lit "en") ]).
Proof.
  intros Hsel Hu w Hw.
  match goal with
  | |- steady _ _ (fst (fetch rt ?ps w)) =>
      destruct (fetch_sends rt ps w) as [out [data [-> _]]]
  end.
  split; [exact Hw|]. eexists. split; [reflexivity|].
  constructor; [|constructor]. split.
  - cbn [req_url]. now destruct Hw as [_ [Hb _]].
  - exists selector, location, unit_name. now repeat split.
Qed.

Lemma get_weather_by_city_orderly (key city_name : str) :
  orderly key (get_weather_by_city rt city_name).
Proof.
  unfold get_weather_by_city. apply orderly_bind_self.
  intros app [Hk [_ Hu]]. rewrite Hk. apply orderly_fetch; [now left | exact Hu].
Qed.

Lemma get_weather_by_zip_orderly (key zip_code country_code : str) :
  orderly key (get_weather_by_zip rt zip_code country_code).
Proof.
  unfold get_weather_by_zip. apply orderly_bind_self.
  intros app [Hk [_ Hu]]. rewrite Hk. apply orderly_fetch; [now right | exact Hu].
Qed.

Lemma set_self_units_orderly (key u : str) :
  u = lit "metric" \/ u = lit "imperial" -> orderly key (set_self_units u).
Proof.
  intros Hu w [Hk [Hb _]]. split.
  - cbn. now repeat split.
  - exists []. cbn. now rewrite app_nil_r.
Qed.

Lemma set_units_orderly (key u : str) : orderly key (set_units rt u).
Proof.
  unfold set_units.
  destruct (str_in (lower rt u) [lit "c"; lit "celsius"; lit "metric"]).
  - apply set_self_units_orderly. now left.
  - destruct (str_in (lower rt u) [lit "f"; lit "fahrenheit"; lit "imperial"]).
    + apply set_self_units_orderly. now right.
    + apply orderly_bind; [apply orderly_print|].
      intros _. apply set_self_units_orderly. now left.
Qed.

Lemma display_weather_orderly (key : str) (weather_data : pyval) :
  orderly key (display_weather rt weather_data).
Proof.
  apply orderly_prints. intros app. apply display_weather_prints_ok.
Qed.

Lemma check_weather_orderly (key : str) : orderly key (check_weather rt).
Proof.
  unfold check_weather. apply orderly_bind; [apply orderly_input|]. intros line.
  destruct (validate_input rt (strip rt line)) as [is_valid input_type].
  destruct is_valid; cbn [negb]; [|apply orderly_print].
  apply orderly_bind.
  - destruct (str_eqb input_type (lit "zip")).
    + apply orderly_bind; [apply orderly_input|]. intros answer.
      apply get_weather_by_zip_orderly.
    + apply get_weather_by_city_orderly.
  - intros weather_data. destruct (truthy weather_data).
    + apply display_weather_orderly.
    + apply orderly_print.
Qed.

Lemma change_units_orderly (key : str) : orderly key (change_units rt).
Proof.
  unfold change_units.
  do 5 (apply orderly_bind; [apply orderly_print | intros _]).
  apply orderly_bind; [apply orderly_input|]. intros line. cbv zeta.
  destruct (str_eqb (strip rt line) (lit "1")).
  - apply orderly_bind; [apply set_units_orderly | intros _; apply orderly_print].
  - destruct (str_eqb (strip rt line) (lit "2")).
    + apply orderly_bind; [apply set_units_orderly | intros _; apply orderly_print].
    + apply orderly_print.
Qed.

Lemma try_except_orderly {A} (key : str) (c : IO A) (h : exn -> IO A) :
  orderly key c -> (forall e, orderly key (h e)) -> orderly key (try_except c h).
Proof.
  intros Hc Hh w Hw. unfold try_except. specialize (Hc w Hw).
  destruct (c w) as [w' [a|e]]; cbn [fst] in *; [exact Hc|].
  eapply steady_trans; [exact Hc|]. apply Hh. now destruct Hc.
Qed.

Lemma interrupted_input_orderly (key prompt : str) :
  orderly key (interrupted_input prompt).
Proof. intros w Hw. split; [exact Hw|]. exists []. cbn. now rewrite app_nil_r. Qed.

Lemma run_turn_orderly (key : str) : orderly key (run_turn rt host).
Proof.
  intros w Hw. unfold run_turn. destruct (interrupted host w).
  - revert w Hw. fold (orderly (A := bool) key).
    do 6 (apply orderly_bind; [apply orderly_print | intros _]).
    apply orderly_bind; [apply interrupted_input_orderly | intros _].
    apply orderly_bind; [apply orderly_print | intros _]. apply orderly_ret.
  - revert w Hw. fold (orderly (A := bool) key).
    apply try_except_orderly.
    + do 6 (apply orderly_bind; [apply orderly_print | intros _]).
      apply orderly_bind; [apply orderly_input|]. intros line. cbv zeta.
      destruct (str_eqb (strip rt line) (lit "1")).
      { apply orderly_bind; [apply check_weather_orderly|].
        intros _. apply orderly_ret. }
      destruct (str_eqb (strip rt line) (lit "2")).
      { apply orderly_bind; [apply change_units_orderly|].
        intros _. apply orderly_ret. }
      destruct (str_eqb (strip rt line) (lit "3"));
        (apply orderly_bind; [apply orderly_print | intros _; apply orderly_ret]).
    + intros e. apply orderly_bind; [apply orderly_print|].
      intros _. apply orderly_ret.
Qed.

Lemma run_loop_orderly (key : str) (turns : nat) :
  orderly key (run_loop rt host turns).
Proof.
  induction turns as [|turns IH]; cbn [run_loop]; [apply orderly_ret|].
  apply orderly_bind; [apply run_turn_orderly|].
  intros [|]; [apply orderly_ret | exact IH].
Qed.

Lemma run_orderly (key : str) (turns : nat) : orderly key (run rt host turns).
Proof.
  unfold run. do 5 (apply orderly_bind; [apply orderly_print | intros _]).
  apply run_loop_orderly.
Qed.

(** The loop does not raise. *)
Lemma try_handled {A} (c : IO A) (h : exn -> IO A) (w : world) :
  (forall e w', exists a, snd (h e w') = Ok a) ->
  exists a, snd (try_except c h w) = Ok a.
Proof.
  intros Hh. unfold try_except. destruct (c w) as [w' [a|e]].
  - now exists a.
  - apply Hh.
Qed.

Lemma run_turn_returns (w : world) : exists b, snd (run_turn rt host w) = Ok b.
Proof.
  unfold run_turn. destruct (interrupted host w).
  - now exists true.
  - apply try_handled. intros e w'. now exists false.
Qed.

Lemma run_loop_returns (turns : nat) (w : world) :
  exists b, snd (run_loop rt host turns w) = Ok b.
Proof.
  revert w. induction turns as [|turns IH]; intros w; cbn [run_loop].
  - now exists false.
  - unfold bind. destruct (run_turn_returns w) as [b Hb].
    destruct (run_turn rt host w) as [w' r]. cbn [snd] in Hb. subst r.
    destruct b; [now exists true | apply IH].
Qed.

Lemma run_returns (turns : nat) (w : world) :
  exists b, snd (run rt host turns w) = Ok b.
Proof.
  unfold run. rewrite !bind_print. apply run_loop_returns.
Qed.

(** X18.  Whatever is typed and whatever the network answers, [run] does
    not raise, and what it sends are requests for the weather only: to the
    endpoint, with the city ([q]) or the postal code ([zip]), the key of the
    object, the units "metric" or "imperial" and the language "en".  The
    object keeps its key and its endpoint, and its units stay one of the two
    names. *)
Theorem run_sends_weather_requests (key : str) (w : world) (turns : nat) :
  app_ok key (self w) ->
  (exists b, snd (run rt host turns w) = Ok b)
  /\ app_ok key (self (fst (run rt host turns w)))
  /\ exists rqs,
       sent (fst (run rt host turns w)) = sent w ++ rqs
       /\ Forall (weather_request key) rqs.
Proof.
  intros Hw. split; [apply run_returns|]. exact (run_orderly key turns w Hw).
Qed.

End Requests.

(** ** The start of the program *)

Section Start.

Context (rt : Runtime) (host : Host).

Lemma print_printed (l : str) (w : world) :
  print l w = (printed w [Print l], Ok tt).
Proof. reflexivity. Qed.

Lemma display_demo_weather_prints (w : world) :
  display_demo_weather w = (printed w demo_lines, Ok tt).
Proof.
  unfold display_demo_weather. rewrite !bind_print, print_printed.
  rewrite !printed_app. reflexivity.
Qed.

(** The last handler of [main]. *)
Lemma fallback_prints (text : str) (w : world) :
  bind (print ([0x274C]%N ++ lit " Error: " ++ text))
    (fun _ => bind (print (newline ++ lit "Trying demo mode..."))
       (fun _ => bind display_demo_weather (fun _ => ret true))) w
  = (printed w (fallback_lines text), Ok true).
Proof.
  rewrite !bind_print. unfold bind. rewrite display_demo_weather_prints.
  unfold ret. rewrite !printed_app. reflexivity.
Qed.

(** [main] after a response to the probe. *)
Lemma main_responded (w : world) (turns : nat) (status : Z) (reason body : str) :
  network rt (sent w) probe_request = Responded status reason body ->
  main rt host turns w
  = try_except
      (if status =? 200 then
         bind (print ([0x2705]%N ++ lit " API key is VALID and working!"))
           (fun _ => bind (print (lit "Starting Weather App..." ++ newline))
              (fun _ => bind (new_app API_KEY) (fun _ => run rt host turns)))
       else if status =? 401 then
         bind (print ([0x274C]%N ++ lit " ERROR 401: Invalid API Key"))
           (fun _ => bind (print (newline ++ lit "Don't worry! This usually means:"))
           (fun _ => bind (print (lit "1. Your key needs 10-15 minutes to activate (just wait)"))
           (fun _ => bind (print (lit "2. Check if you verified your email"))
           (fun _ => bind (print (lit "3. Make sure you're using HTTP (not HTTPS)"))
           (fun _ => bind (print (newline ++ lit "Your key: YOUR_API_KEY_HERE"))
           (fun _ => bind (print (lit "Key length: 32 characters " ++ [0x2713]%N))
           (fun _ => bind (print (newline ++ [0x1F4A1]%N ++ lit " Quick test in browser:"))
           (fun _ => bind (print (lit "Open: http://api.openweathermap.org/data/2.5/weather?q=London&appid=" ++ API_KEY))
           (fun _ => bind (input (newline ++ lit "Use demo mode while waiting? (yes/no): "))
           (fun line =>
              if str_eqb (lower rt (strip rt line)) (lit "yes") then
                bind display_demo_weather (fun _ => ret true)
              else ret true))))))))))
       else
         bind (print (status_line status body)) (fun _ => ret true))
      (fun e =>
         bind (print ([0x274C]%N ++ lit " Error: " ++ exception_text host e))
           (fun _ => bind (print (newline ++ lit "Trying demo mode..."))
              (fun _ => bind display_demo_weather (fun _ => ret true))))
      (requested (printed w [Print probe_line]) probe_request).
Proof.
  intros Hnet. unfold main. rewrite bind_print. cbv beta zeta.
  cbn [sent printed]. rewrite Hnet. reflexivity.
Qed.

Lemma main_invalid_key_steps (w : world) (turns : nat) (reason body : str) :
  network rt (sent w) probe_request = Responded 401 reason body ->
  (forall line rest,
     stdin w = line :: rest ->
     main rt host turns w
     = ({| self := self w; stdin := rest;
           stdout := stdout w
                     ++ Print probe_line :: invalid_key_lines
                     ++ (if str_eqb (lower rt (strip rt line)) (lit "yes")
                         then demo_lines else []);
           sent := sent w ++ [probe_request] |}, Ok true))
  /\ (stdin w = [] ->
      main rt host turns w
      = ({| self := self w; stdin := [];
            stdout := stdout w
                      ++ Print probe_line :: invalid_key_lines
                      ++ fallback_lines (exception_text host EOFError);
            sent := sent w ++ [probe_request] |}, Ok true)).
Proof.
  intros Hnet. rewrite (main_responded w turns 401 reason body Hnet).
  change (401 =? 200) with false. change (401 =? 401) with true. cbv iota.
  rewrite !try_print. split.
  - intros line rest Hin.
    rewrite (try_input_line _ _ _ _ line rest) by exact Hin.
    rewrite !printed_app. unfold try_except.
    destruct (str_eqb (lower rt (strip rt line)) (lit "yes")).
    + unfold bind. rewrite display_demo_weather_prints.
      unfold ret, reading, requested, printed. cbn [self stdin stdout sent].
      rewrite <- !app_assoc. reflexivity.
    + unfold ret, reading, requested, printed. cbn [self stdin stdout sent].
      rewrite <- !app_assoc. reflexivity.
  - intros Hin. rewrite try_input_end by exact Hin.
    rewrite fallback_prints. rewrite !printed_app.
    unfold requested, printed. cbn [self stdin stdout sent].
    rewrite Hin, <- !app_assoc. reflexivity.
Qed.

Lemma main_other_status_steps (w : world) (turns : nat) (status : Z)
  (reason body : str) :
  network rt (sent w) probe_request = Responded status reason body ->
  status <> 200 -> status <> 401 ->
  main rt host turns w
  = ({| self := self w; stdin := stdin w;
        stdout := stdout w
                  ++ [ Print probe_line;
                       Print ([0x26A0; 0xFE0F]%N ++ lit "  Status "
                              ++ str_of_int status ++ lit ": "
                              ++ firstn 100 body) ];
        sent := sent w ++ [probe_request] |}, Ok true).
Proof.
  intros Hnet H200 H401.
  rewrite (main_responded w turns status reason body Hnet).
  rewrite (proj2 (Z.eqb_neq status 200) H200).
  rewrite (proj2 (Z.eqb_neq status 401) H401).
  rewrite try_print. unfold try_except, ret, requested, printed, status_line.
  cbn [self stdin stdout sent]. rewrite <- !app_assoc. reflexivity.
Qed.

Lemma main_without_response_steps (w : world) (turns : nat) (message : str) :
  network rt (sent w) probe_request = ConnectionFailed message ->
  main rt host turns w
  = ({| self := self w; stdin := stdin w;
        stdout := stdout w
                  ++ Print probe_line
                     :: (if is_connection_error host (ConnectionFailed message)
                         then [Print no_connection_line]
                         else fallback_lines
                                (error_text rt probe_request
                                   (ConnectionFailed message)));
        sent := sent w ++ [probe_request] |}, Ok true).
Proof.
  intros Hnet. unfold main. rewrite bind_print. cbv beta zeta.
  cbn [sent printed]. rewrite Hnet. cbv iota.
  destruct (is_connection_error host (ConnectionFailed message)).
  - rewrite bind_print. unfold ret, printed. cbn [self stdin stdout sent].
    rewrite <- !app_assoc. reflexivity.
  - rewrite fallback_prints. unfold printed. cbn [self stdin stdout sent].
    rewrite <- !app_assoc. reflexivity.
Qed.

(** X19.  The probe answered with the status 401: [main] prints the advice
    about the key and asks about the demo mode.  The demo report follows
    exactly when the answer, stripped and in lower case, is "yes"; on any
    other answer [main] ends there.  At the end of the input the [EOFError]
    of the prompt is reported as an error and the demo report follows.  In
    no case is the menu loop entered, and nothing but the probe is sent. *)
Theorem main_invalid_key (w : world) (turns : nat) (reason body : str) :
  network rt (sent w) probe_request = Responded 401 reason body ->
  (forall line rest,
     stdin w = line :: rest ->
     main rt host turns w
     = ({| self := self w; stdin := rest;
           stdout := stdout w
                     ++ Print probe_line :: invalid_key_lines
                     ++ (if str_eqb (lower rt (strip rt line)) (lit "yes")
                         then demo_lines else []);
           sent := sent w ++ [probe_request] |}, Ok true))
  /\ (stdin w = [] ->
      main rt host turns w
      = ({| self := self w; stdin := [];
            stdout := stdout w
                      ++ Print probe_line :: invalid_key_lines
                      ++ fallback_lines (exception_text host EOFError);
            sent := sent w ++ [probe_request] |}, Ok true)).
Proof. apply main_invalid_key_steps. Qed.

(** X20.  The probe answered with a status that is neither 200 nor 401:
    [main] prints one line, with the status and the first hundred characters
    of the body, and ends.  No demo report is shown, the menu loop is not
    entered, no line is read and nothing but the probe is sent. *)
Theorem main_other_status (w : world) (turns : nat) (status : Z)
  (reason body : str) :
  network rt (sent w) probe_request = Responded status reason body ->
  status <> 200 -> status <> 401 ->
  main rt host turns w
  = ({| self := self w; stdin := stdin w;
        stdout := stdout w
                  ++ [ Print probe_line;
                       Print ([0x26A0; 0xFE0F]%N ++ lit "  Status "
                              ++ str_of_int status ++ lit ": "
                              ++ firstn 100 body) ];
        sent := sent w ++ [probe_request] |}, Ok true).
Proof. apply main_other_status_steps. Qed.


(** [main] after the status 200. *)
Lemma main_valid (w : world) (turns : nat) (reason body : str) :
  network rt (sent w) probe_request = Responded 200 reason body ->
  main rt host turns w
  = run rt host turns
      {| self := init API_KEY; stdin := stdin w;
         stdout := stdout w
                   ++ [ Print probe_line;
                        Print ([0x2705]%N ++ lit " API key is VALID and working!");
                        Print (lit "Starting Weather App..." ++ newline) ];
         sent := sent w ++ [probe_request] |}.
Proof.
  intros Hnet. rewrite (main_responded w turns 200 reason body Hnet).
  change (200 =? 200) with true. cbv iota.
  rewrite !try_print. unfold try_except, bind at 1.
  unfold new_app at 1. unfold requested, printed, init.
  cbn [self stdin stdout sent]. rewrite <- !app_assoc. cbn [List.app].
  match goal with
  | |- context [run rt host turns ?w1] =>
      destruct (run_returns rt host turns w1) as [b Hb];
      destruct (run rt host turns w1) as [w2 r]
  end.
  cbn [snd] in Hb. now subst r.
Qed.

(** X22.  The probe answered with the status 200: from there [main] is the
    menu loop, on a new object with the key of the program, the endpoint and
    metric units, whatever the object was before. *)
Theorem main_valid_key (w : world) (turns : nat) (reason body : str) :
  network rt (sent w) probe_request = Responded 200 reason body ->
  main rt host turns w
  = run rt host turns
      {| self := {| api_key := lit "YOUR_API_KEY_HERE"; base_url := endpoint;
                    units := lit "metric" |};
         stdin := stdin w;
         stdout := stdout w
                   ++ [ Print probe_line;
                        Print ([0x2705]%N ++ lit " API key is VALID and working!");
                        Print (lit "Starting Weather App..." ++ newline) ];
         sent := sent w ++ [probe_request] |}.
Proof. apply main_valid. Qed.

(** [main] after a probe that raised an exception that is no
    [RequestException]. *)
Lemma main_raised (w : world) (turns : nat) (e : exn) :
  network rt (sent w) probe_request = Raised e ->
  main rt host turns w
  = ({| self := self w; stdin := stdin w;
        stdout := stdout w
                  ++ Print probe_line :: fallback_lines (exception_text host e);
        sent := sent w ++ [probe_request] |}, Ok true).
Proof.
  intros Hnet. unfold main. rewrite bind_print. cbv beta zeta.
  cbn [sent printed]. rewrite Hnet. cbv iota.
  rewrite fallback_prints. unfold printed. cbn [self stdin stdout sent].
  rewrite <- !app_assoc. reflexivity.
Qed.

(** X23.  What the whole program sends, whatever the network answers and
    whatever is typed: the probe first, and after it requests for the
    weather only, made with the key of the program and the units "metric" or
    "imperial"; and unless the probe is answered with the status 200, the
    probe is all that is sent. *)
Theorem main_sends (w : world) (turns : nat) :
  exists rqs,
    sent (fst (main rt host turns w)) = sent w ++ probe_request :: rqs
    /\ Forall (weather_request API_KEY) rqs
    /\ ((forall reason body,
           network rt (sent w) probe_request <> Responded 200 reason body) ->
        rqs = []).
Proof.
  assert (Hend : forall r,
            main rt host turns w = r ->
            sent (fst r) = sent w ++ [probe_request] ->
            exists rqs,
              sent (fst (main rt host turns w)) = sent w ++ probe_request :: rqs
              /\ Forall (weather_request API_KEY) rqs
              /\ ((forall reason body,
                     network rt (sent w) probe_request
                     <> Responded 200 reason body) -> rqs = [])).
  { intros r -> Hs. exists []. repeat split; [exact Hs|]. constructor. }
  destruct (network rt (sent w) probe_request)
    as [message | status reason body | e] eqn:Hnet.
  { eapply Hend;
      [apply (main_without_response_steps w turns message Hnet) | reflexivity]. }
  2: { eapply Hend; [apply (main_raised w turns e Hnet) | reflexivity]. }
  destruct (Z.eq_dec status 200) as [->|H200].
  { clear Hend. rewrite (main_valid w turns reason body Hnet).
    match goal with
    | |- context [run rt host turns ?w1] =>
        destruct (run_orderly rt host API_KEY turns w1) as [_ [rqs [Hs Hf]]];
        [repeat split; now left|]
    end.
    exists rqs. split.
    - rewrite Hs. cbn [sent]. now rewrite <- app_assoc.
    - split; [exact Hf|]. intros H. now destruct (H reason body). }
  destruct (Z.eq_dec status 401) as [->|H401].
  - destruct (stdin w) as [|line rest] eqn:Hin.
    + eapply Hend;
        [apply (proj2 (main_invalid_key_steps w turns reason body Hnet) Hin)
        | reflexivity].
    + eapply Hend;
        [apply (proj1 (main_invalid_key_steps w turns reason body Hnet)
                  line rest Hin)
        | reflexivity].
  - eapply Hend;
      [apply (main_other_status_steps w turns status reason body Hnet H200 H401)
      | reflexivity].
Qed.

(** X24.  A session without a query: the probe is answered with the
    status 200, the lines typed are no choice of the menu, and then comes
    the choice 3.  [main] prints the banner, the menu with "Invalid choice"
    for each of those lines, the menu once more and the farewell; it ends
    with the new object untouched, and the probe is all it sent. *)
Theorem main_session_without_query (w : world) (junk : list str) (line : str)
  (rest : list str) (more : nat) (reason body : str) :
  network rt (sent w) probe_request = Responded 200 reason body ->
  (forall w', interrupted host w' = false) ->
  stdin w = junk ++ line :: rest ->
  Forall (no_choice rt) junk ->
  strip rt line = lit "3" ->
  main rt host (List.length junk + S more) w
  = ({| self := init API_KEY; stdin := rest;
        stdout := stdout w
                  ++ [ Print probe_line;
                       Print ([0x2705]%N ++ lit " API key is VALID and working!");
                       Print (lit "Starting Weather App..." ++ newline) ]
                  ++ banner_lines
                  ++ List.concat
                       (map (fun _ => menu_lines ++ [Print invalid_choice_line])
                          junk)
                  ++ menu_lines ++ [Print farewell_line];
        sent := sent w ++ [probe_request] |}, Ok true).
Proof.
  intros Hnet Hi Hin Hj Hc.
  rewrite (main_valid w (List.length junk + S more) reason body Hnet).
  unfold run. rewrite !bind_print.
  match goal with
  | |- context [run_loop rt host _ ?w1] =>
      rewrite (run_loop_exit_steps rt host junk line rest w1 more Hi Hin Hj Hc)
  end.
  unfold printed. cbn [self stdin stdout sent].
  rewrite <- !app_assoc. reflexivity.
Qed.

End Start.

(** * The theorems at work on examples *)

Lemma validate_input_classification_witness :
  validate_input sample_runtime (lit "   ") = (false, lit "Input cannot be empty.")
  /\ validate_input sample_runtime (lit "12345-6789") = (true, lit "zip")
  /\ validate_input sample_runtime (lit "1234") = (true, lit "city")
  /\ validate_input sample_runtime (lit "New York") = (true, lit "city").
Proof.
  assert (Hspace : forall s, Forall (fun c => char_isspace sample_runtime c = true) s ->
                             forallb (char_isspace sample_runtime) s = true).
  { intros s H. apply forallb_forall. now apply Forall_forall. }
  split; [|split; [|split]].
  - apply (proj1 (validate_input_classification sample_runtime (lit "   "))).
    repeat constructor.
  - apply (proj1 (proj2 (validate_input_classification sample_runtime
                           (lit "12345-6789")))).
    + intros H. apply Hspace in H. discriminate H.
    + repeat (constructor; [first [left; reflexivity | right; reflexivity]|]).
      constructor.
    + vm_compute. lia.
  - apply (proj2 (proj2 (validate_input_classification sample_runtime
                           (lit "1234")))).
    + intros H. apply Hspace in H. discriminate H.
    + intros [_ H]. vm_compute in H. lia.
  - apply (proj2 (proj2 (validate_input_classification sample_runtime
                           (lit "New York")))).
    + intros H. apply Hspace in H. discriminate H.
    + intros [H _]. inversion H as [|c s [Hd|Hh] Hs]; discriminate.
Defined.

Lemma compass_periodic_in_range_witness :
  - compass_range < 40 < compass_range
  /\ exists point, compass 40 = Ok point /\ compass (40 + 360) = Ok point.
Proof.
  assert (H : - compass_range < 40 < compass_range)
    by (unfold compass_range; lia).
  split; [exact H|].
  exact (proj1 (compass_periodic_in_range 40 H)).
Defined.

Lemma display_weather_error_only_witness :
  let d := [ (lit "cod", PStr (lit "404"));
             (lit "message", PStr (lit "city not found")) ] in
  display_weather sample_runtime (PDict d) (sample_world [])
  = (printed (sample_world []) [Print (lit "Error: city not found")], Ok tt).
Proof.
  intros d.
  apply (proj1 (display_weather_error_only sample_runtime d (sample_world []))
           (PStr (lit "404"))); reflexivity.
Defined.

Lemma display_weather_placeholders_witness :
  let d := [ (lit "cod", PInt 200);
             (lit "main", PDict [(lit "temp", PInt 22)]) ] in
  successful d = true
  /\ well_shaped sample_runtime d = true
  /\ exists lines,
       display_weather sample_runtime (PDict d) (sample_world [])
       = (printed (sample_world []) lines, Ok tt)
       /\ In (Print (temperature_line (lit "22") celsius_sign (lit "N/A"))) lines
       /\ In (Print (humidity_line (lit "N/A"))) lines
       /\ In (Print (sunrise_line (lit "N/A"))) lines.
Proof.
  intros d. split; [reflexivity|]. split; [reflexivity|].
  destruct (display_weather_placeholders sample_runtime d (sample_world [])
              eq_refl eq_refl)
    as [lines [H [_ [_ [Hfeels [Hhumidity [_ [_ [_ [_ [_ [Hsunrise _]]]]]]]]]]]].
  exists lines. split; [exact H|].
  split; [exact (Hfeels eq_refl)|].
  split; [exact (Hhumidity eq_refl) | exact (Hsunrise eq_refl)].
Defined.

Lemma display_weather_without_wind_degree_witness :
  let d := [ (lit "cod", PInt 200);
             (lit "wind", PDict [(lit "speed", PInt 3)]);
             (lit "clouds", PNone) ] in
  successful d = true
  /\ field d (lit "wind") (lit "deg") = None
  /\ extractable sample_runtime d = true
  /\ exists lines r,
       display_weather sample_runtime (PDict d) (sample_world [])
       = (printed (sample_world []) lines, r)
       /\ existsb is_wind_direction_line lines = false
       /\ nth_error lines 7 = Some (Print (wind_speed_line (lit "3"))).
Proof.
  intros d. split; [reflexivity|]. split; [reflexivity|]. split; [reflexivity|].
  destruct (display_weather_without_wind_degree sample_runtime d
              (sample_world []) eq_refl eq_refl)
    as [lines [r [E [Hno [Hspeed [Hx _]]]]]].
  exists lines, r. split; [exact E|]. split; [exact Hno|].
  apply Hspeed. apply Hx. reflexivity.
Defined.

Lemma unit_preference_round_trip_witness :
  let w := fst (set_units sample_runtime (lit "Fahrenheit")
                  (sample_world [lit "London"; lit "10001"; lit ""])) in
  let calls := [ CheckWeather; DisplayWeather (PDict [(lit "cod", PInt 200)]);
                 CheckWeather ] in
  units (self w) = lit "imperial"
  /\ forallb (fun c => negb (changes_units c)) calls = true
  /\ preference_holds sample_runtime (lit "imperial") fahrenheit_sign w calls.
Proof.
  intros w calls.
  assert (Hu : units (self w) = lit "imperial").
  { apply (proj1 (proj2 (unit_preference_round_trip sample_runtime))).
    reflexivity. }
  split; [exact Hu|]. split; [reflexivity|].
  apply (proj1 (proj2 (proj2 (proj2 (proj2
           (proj2 (unit_preference_round_trip sample_runtime))))))).
  - exact Hu.
  - reflexivity.
Defined.

Lemma fetch_failures_return_none_witness :
  snd (get_weather_by_city sample_runtime (lit "London") (sample_world []))
  = Ok PNone
  /\ snd (get_weather_by_zip
            (runtime_answering (Responded 404 (lit "Not Found") (lit "{}")))
            (lit "10001") (lit "US") (sample_world []))
     = Ok PNone
  /\ snd (get_weather_by_city
            (runtime_answering (Responded 200 (lit "OK") (lit "<html>")))
            (lit "London") (sample_world []))
     = Ok PNone.
Proof.
  split; [|split].
  - rewrite (proj1 (fetch_failures_return_none sample_runtime (sample_world []))
               (lit "London")); [reflexivity|].
    apply failure_connection.
  - rewrite (proj2 (fetch_failures_return_none
                      (runtime_answering (Responded 404 (lit "Not Found") (lit "{}")))
                      (sample_world []))
               (lit "10001") (lit "US")); [reflexivity|].
    apply failure_status. cbn. lia.
  - rewrite (proj1 (fetch_failures_return_none
                      (runtime_answering (Responded 200 (lit "OK") (lit "<html>")))
                      (sample_world []))
               (lit "London")); [reflexivity|].
    apply failure_body; reflexivity.
Defined.

Lemma check_weather_10001_witness :
  let w := sample_world [lit "10001"; lit ""] in
  stdin w = [lit "10001"; lit ""]
  /\ strip sample_runtime (lit "") = []
  /\ sent (fst (check_weather sample_runtime w))
     = [{| req_url := lit "http://api.openweathermap.org/data/2.5/weather";
           req_params := [ (lit "zip", lit "10001,US");
                           (lit "appid", lit "KEY");
                           (lit "units", lit "metric");
                           (lit "lang", lit "en") ] |}].
Proof.
  intros w. split; [reflexivity|]. split; [reflexivity|].
  exact (proj2 (proj2 (check_weather_10001 sample_runtime w (lit "") []
                         eq_refl eq_refl))).
Defined.

Lemma zip_code_sent_verbatim_witness :
  let w := sample_world [lit "12345-6789"; lit "in "] in
  digits_are_not_spaces sample_runtime
  /\ validate_input sample_runtime (lit "12345-6789") = (true, lit "zip")
  /\ exists rq,
       sent (fst (check_weather sample_runtime w)) = sent w ++ [rq]
       /\ req_params rq
          = [ (lit "zip", lit "12345-6789,in");
              (lit "appid", lit "KEY");
              (lit "units", lit "metric");
              (lit "lang", lit "en") ].
Proof.
  intros w.
  assert (Hds : digits_are_not_spaces sample_runtime).
  { intros c. unfold char_isdigit, char_isspace, ascii_isdigit, ascii_isspace.
    destruct (is_ascii c); [|discriminate].
    intros H. apply andb_true_iff in H. destruct H as [H _].
    apply N.leb_le in H.
    destruct (N.leb_spec c 13); [lia|]. rewrite andb_false_r.
    destruct (N.leb_spec c 32); [lia|]. now rewrite andb_false_r. }
  split; [exact Hds|]. split; [reflexivity|].
  exact (proj1 (proj2 (zip_code_sent_verbatim sample_runtime w
                         (lit "12345-6789") (lit "in ") [] eq_refl))
           Hds eq_refl).
Defined.

Lemma check_weather_rejects_blank_lines_witness :
  let w := sample_world [lit "  "; lit "London"] in
  check_weather sample_runtime w
  = ({| self := init (lit "KEY"); stdin := [lit "London"];
        stdout := [ Prompt (newline ++ lit "Enter city name or ZIP code: ");
                    Print (lit "Invalid input. Please try again.") ];
        sent := [] |}, Ok tt).
Proof.
  intros w.
  apply (proj2 (check_weather_rejects_blank_lines sample_runtime w (lit "  ")
                  [lit "London"] eq_refl)).
  repeat constructor.
Defined.

Lemma check_weather_city_request_witness :
  let w := sample_world [lit " New York "; lit "3"] in
  validate_input sample_runtime (strip sample_runtime (lit " New York "))
  = (true, lit "city")
  /\ stdin (fst (check_weather sample_runtime w)) = [lit "3"]
  /\ exists rq,
       sent (fst (check_weather sample_runtime w)) = [rq]
       /\ req_params rq
          = [ (lit "q", lit "New York"); (lit "appid", lit "KEY");
              (lit "units", lit "metric"); (lit "lang", lit "en") ].
Proof.
  intros w. split; [reflexivity|].
  destruct (check_weather_city_request sample_runtime w (lit " New York ")
              [lit "3"] eq_refl eq_refl) as [Hin [_ [rq [Hs [_ Hp]]]]].
  split; [exact Hin|]. exists rq. split; [exact Hs | exact Hp].
Defined.

Lemma check_weather_city_report_witness :
  let d := [ (lit "cod", PInt 200); (lit "name", PStr (lit "London"));
             (lit "main", PDict [(lit "temp", PInt 22)]);
             (lit "wind", PDict [(lit "deg", PInt 315)]) ] in
  let rt := runtime_parsing (Responded 200 (lit "OK") (lit "{}")) (PDict d) in
  let w := sample_world [lit "London"] in
  check_weather rt w
  = ({| self := self w; stdin := [];
        stdout := Prompt (newline ++ lit "Enter city name or ZIP code: ")
                  :: report rt (self w) d;
        sent := [city_request (self w) (lit "London")] |}, Ok tt).
Proof.
  intros d rt w.
  exact (check_weather_city_report rt w (lit "London") [] 200 (lit "OK")
           (lit "{}") d eq_refl eq_refl eq_refl eq_refl eq_refl eq_refl eq_refl).
Defined.

Lemma check_weather_no_data_witness :
  let w := sample_world [lit "London"] in
  check_weather sample_runtime w
  = ({| self := self w; stdin := [];
        stdout := [ Prompt (newline ++ lit "Enter city name or ZIP code: ");
                    Print (lit "Error fetching weather data: request failed");
                    Print (lit "Could not retrieve weather data. Please check your input and try again.") ];
        sent := [city_request (self w) (lit "London")] |}, Ok tt)
  /\ check_weather
       (runtime_choking (Responded 200 (lit "OK") long_number_body)
          long_number_body ValueError) w
     = ({| self := self w; stdin := [];
           stdout := [Prompt (newline ++ lit "Enter city name or ZIP code: ")];
           sent := [city_request (self w) (lit "London")] |}, Raise ValueError).
Proof.
  intros w. split.
  - apply (proj1 (check_weather_no_data sample_runtime w (lit "London")) []
             eq_refl eq_refl).
    apply failure_connection.
  - apply (proj2 (proj2 (check_weather_no_data
                           (runtime_choking
                              (Responded 200 (lit "OK") long_number_body)
                              long_number_body ValueError)
                           w (lit "London")))
             [] ValueError eq_refl eq_refl).
    right. exists 200, (lit "OK"), long_number_body. now repeat split.
Defined.

Lemma run_turn_leaves_loop_witness :
  snd (run_turn sample_runtime sample_host (sample_world [lit " 3 "])) = Ok true
  /\ snd (run_turn sample_runtime sample_host (sample_world [lit "1"])) = Ok false.
Proof.
  split.
  - apply (proj2 (proj2 (run_turn_leaves_loop sample_runtime sample_host
                           (sample_world [lit " 3 "])) eq_refl)).
    now exists (lit " 3 "), [].
  - destruct (proj1 (proj2 (run_turn_leaves_loop sample_runtime sample_host
                              (sample_world [lit "1"])) eq_refl))
      as [H|H]; [|exact H].
    apply (proj2 (proj2 (run_turn_leaves_loop sample_runtime sample_host
                           (sample_world [lit "1"])) eq_refl)) in H.
    destruct H as [line [rest [Hin Hc]]]. injection Hin as <- <-.
    discriminate Hc.
Defined.

Lemma check_weather_end_of_input_witness :
  snd (check_weather sample_runtime (sample_world [])) = Raise EOFError
  /\ snd (check_weather sample_runtime (sample_world [lit "10001"]))
     = Raise EOFError
  /\ sent (fst (check_weather sample_runtime (sample_world [lit "10001"]))) = [].
Proof.
  split; [|split].
  - now rewrite (proj1 (check_weather_end_of_input sample_runtime
                          (sample_world [])) eq_refl).
  - now rewrite (proj2 (check_weather_end_of_input sample_runtime
                          (sample_world [lit "10001"]))
                   (lit "10001") eq_refl eq_refl).
  - now rewrite (proj2 (check_weather_end_of_input sample_runtime
                          (sample_world [lit "10001"]))
                   (lit "10001") eq_refl eq_refl).
Defined.

Lemma change_units_outcome_witness :
  units (self (fst (change_units sample_runtime (sample_world [lit " 2 "]))))
  = lit "imperial"
  /\ units (self (fst (change_units sample_runtime (sample_world [lit "F"]))))
     = lit "metric".
Proof.
  split.
  - now rewrite (change_units_outcome sample_runtime
                   (sample_world [lit " 2 "]) (lit " 2 ") [] eq_refl).
  - now rewrite (change_units_outcome sample_runtime
                   (sample_world [lit "F"]) (lit "F") [] eq_refl).
Defined.

Lemma compass_sectors_witness :
  compass 100 = Ok (lit "E") /\ compass (- 23) = Ok (lit "NW")
  /\ compass 700 = Ok (lit "N").
Proof.
  split; [|split].
  - apply (proj1 (proj2 (compass_sectors 100 eq_refl)) 2); cbn; lia.
  - apply (proj1 (proj2 (compass_sectors (- 23) eq_refl)) 7); cbn; lia.
  - apply (proj2 (proj2 (compass_sectors 700 eq_refl))). cbn. lia.
Defined.

Lemma display_weather_other_data_witness :
  display_weather sample_runtime (PList [PInt 1]) (sample_world [])
  = (sample_world [], Raise AttributeError)
  /\ display_weather sample_runtime (PDict []) (sample_world [])
     = (printed (sample_world []) [Print (lit "No weather data to display.")],
        Ok tt).
Proof.
  split.
  - apply (proj2 (display_weather_other_data sample_runtime (PList [PInt 1])
                    (sample_world []))); reflexivity.
  - apply (proj1 (display_weather_other_data sample_runtime (PDict [])
                    (sample_world []))); reflexivity.
Defined.

Lemma display_weather_raises_unless_renderable_witness :
  let d := [ (lit "cod", PInt 200); (lit "main", PInt 5) ] in
  successful d = true
  /\ extractable sample_runtime d = false
  /\ exists e,
       display_weather sample_runtime (PDict d) (sample_world [])
       = (sample_world [], Raise e).
Proof.
  intros d. split; [reflexivity|]. split; [reflexivity|].
  exact (proj1 (proj2 (display_weather_raises_unless_renderable sample_runtime d
                         (sample_world []) eq_refl)) eq_refl).
Defined.

Lemma display_weather_wind_direction_line_witness :
  let d := [ (lit "cod", PInt 200);
             (lit "wind", PDict [(lit "speed", PInt 3); (lit "deg", PInt 315)]) ] in
  exists lines,
    display_weather sample_runtime (PDict d) (sample_world [])
    = (printed (sample_world []) lines, Ok tt)
    /\ nth_error lines 8
       = Some (Print (wind_direction_line (lit "NW") (lit "315")))
    /\ nth_error lines 7 = Some (Print (wind_speed_line (lit "3"))).
Proof.
  intros d.
  exact (display_weather_wind_direction_line sample_runtime d 315
           (sample_world []) eq_refl eq_refl eq_refl eq_refl).
Defined.

Lemma run_loop_end_of_input_witness :
  run_loop sample_runtime sample_host 3 (sample_world [])
  = (printed (sample_world [])
       (List.concat
          (repeat (menu_lines
                   ++ [Print (lit "An unexpected error occurred: EOF when reading a line")])
             3)),
     Ok false).
Proof.
  exact (run_loop_end_of_input sample_runtime sample_host (sample_world []) 3
           (fun _ => eq_refl) eq_refl).
Defined.

Lemma run_loop_exit_witness :
  run_loop sample_runtime sample_host 5
    (sample_world [lit "7"; lit "weather"; lit " 3 "; lit "1"])
  = ({| self := init (lit "KEY"); stdin := [lit "1"];
        stdout := (menu_lines ++ [Print invalid_choice_line])
                  ++ (menu_lines ++ [Print invalid_choice_line])
                  ++ menu_lines ++ [Print farewell_line];
        sent := [] |}, Ok true).
Proof.
  apply (run_loop_exit sample_runtime sample_host [lit "7"; lit "weather"]
           (lit " 3 ") [lit "1"]
           (sample_world [lit "7"; lit "weather"; lit " 3 "; lit "1"]) 2
           (fun _ => eq_refl) eq_refl).
  - repeat (constructor;
            [repeat split; intros H; vm_compute in H; discriminate H|]).
    constructor.
  - reflexivity.
Defined.

Lemma run_sends_weather_requests_witness :
  let w := sample_world [lit "1"; lit "London"; lit "2"; lit "2"; lit "1";
                         lit "10001"; lit ""; lit "3"] in
  app_ok (lit "KEY") (self w)
  /\ exists rqs,
       sent (fst (run sample_runtime sample_host 9 w)) = sent w ++ rqs
       /\ Forall (weather_request (lit "KEY")) rqs.
Proof.
  intros w.
  assert (H : app_ok (lit "KEY") (self w))
    by (repeat split; left; reflexivity).
  split; [exact H|].
  exact (proj2 (proj2 (run_sends_weather_requests sample_runtime sample_host
                         (lit "KEY") w 9 H))).
Defined.

Lemma main_invalid_key_witness :
  let rt := runtime_answering (Responded 401 (lit "Unauthorized") (lit "{}")) in
  main rt sample_host 9 (sample_world [lit " YES "; lit "1"])
  = ({| self := init (lit "KEY"); stdin := [lit "1"];
        stdout := Print probe_line :: invalid_key_lines ++ demo_lines;
        sent := [probe_request] |}, Ok true)
  /\ main rt sample_host 9 (sample_world [lit "no"; lit "1"])
     = ({| self := init (lit "KEY"); stdin := [lit "1"];
           stdout := Print probe_line :: invalid_key_lines ++ [];
           sent := [probe_request] |}, Ok true).
Proof.
  intros rt. split.
  - exact (proj1 (main_invalid_key rt sample_host
                    (sample_world [lit " YES "; lit "1"]) 9
                    (lit "Unauthorized") (lit "{}") eq_refl)
             (lit " YES ") [lit "1"] eq_refl).
  - exact (proj1 (main_invalid_key rt sample_host
                    (sample_world [lit "no"; lit "1"]) 9
                    (lit "Unauthorized") (lit "{}") eq_refl)
             (lit "no") [lit "1"] eq_refl).
Defined.

Lemma main_other_status_witness :
  let rt := runtime_answering
              (Responded 503 (lit "Service Unavailable") (lit "busy")) in
  main rt sample_host 9 (sample_world [lit "1"])
  = ({| self := init (lit "KEY"); stdin := [lit "1"];
        stdout := [ Print probe_line;
                    Print ([0x26A0; 0xFE0F]%N ++ lit "  Status 503: busy") ];
        sent := [probe_request] |}, Ok true).
Proof.
  intros rt.
  apply (main_other_status rt sample_host (sample_world [lit "1"]) 9 503
           (lit "Service Unavailable") (lit "busy") eq_refl); discriminate.
Defined.


Lemma main_valid_key_witness :
  let rt := runtime_answering (Responded 200 (lit "OK") (lit "{}")) in
  main rt sample_host 9 (sample_world [lit "3"])
  = run rt sample_host 9
      {| self := init API_KEY; stdin := [lit "3"];
         stdout := [ Print probe_line;
                     Print ([0x2705]%N ++ lit " API key is VALID and working!");
                     Print (lit "Starting Weather App..." ++ newline) ];
         sent := [probe_request] |}.
Proof.
  intros rt.
  exact (main_valid_key rt sample_host (sample_world [lit "3"]) 9 (lit "OK")
           (lit "{}") eq_refl).
Defined.

Lemma check_weather_unusual_answers_witness :
  let answer := Responded 200 (lit "OK") (lit "{}") in
  let w := sample_world [lit "Atlantis"] in
  let w1 := {| self := self w; stdin := [];
               stdout := [Prompt (newline ++ lit "Enter city name or ZIP code: ")];
               sent := [city_request (self w) (lit "Atlantis")] |} in
  check_weather (runtime_parsing answer (PDict [])) w
  = (printed w1
       [Print (lit "Could not retrieve weather data. Please check your input and try again.")],
     Ok tt)
  /\ check_weather (runtime_parsing answer (PList [PInt 1])) w
     = (w1, Raise AttributeError)
  /\ check_weather
       (runtime_parsing answer
          (PDict [ (lit "cod", PStr (lit "404"));
                   (lit "message", PStr (lit "city not found")) ])) w
     = (printed w1 [Print (lit "Error: city not found")], Ok tt).
Proof.
  intros answer w w1. split; [|split].
  - apply (proj1 (check_weather_unusual_answers
                    (runtime_parsing answer (PDict [])) w (lit "Atlantis") []
                    200 (lit "OK") (lit "{}") (PDict [])
                    eq_refl eq_refl eq_refl eq_refl eq_refl)).
    reflexivity.
  - apply (proj1 (proj2 (check_weather_unusual_answers
                           (runtime_parsing answer (PList [PInt 1])) w
                           (lit "Atlantis") [] 200 (lit "OK") (lit "{}")
                           (PList [PInt 1])
                           eq_refl eq_refl eq_refl eq_refl eq_refl)));
      reflexivity.
  - apply (proj2 (proj2 (check_weather_unusual_answers
                           (runtime_parsing answer
                              (PDict [ (lit "cod", PStr (lit "404"));
                                       (lit "message", PStr (lit "city not found")) ]))
                           w (lit "Atlantis") [] 200 (lit "OK") (lit "{}")
                           (PDict [ (lit "cod", PStr (lit "404"));
                                    (lit "message", PStr (lit "city not found")) ])
                           eq_refl eq_refl eq_refl eq_refl eq_refl))
             [ (lit "cod", PStr (lit "404"));
               (lit "message", PStr (lit "city not found")) ]);
      [reflexivity | discriminate | reflexivity].
Defined.

Lemma run_turn_action_witness :
  let w := sample_world [lit " 2 "; lit "2"; lit "3"] in
  snd (run_turn sample_runtime sample_host w) = Ok false
  /\ units (self (fst (run_turn sample_runtime sample_host w))) = lit "imperial"
  /\ stdin (fst (run_turn sample_runtime sample_host w)) = [lit "3"].
Proof.
  intros w.
  rewrite (proj2 (run_turn_action sample_runtime sample_host w (lit " 2 ")
                    [lit "2"; lit "3"] eq_refl eq_refl) eq_refl).
  repeat split.
Defined.

Lemma main_session_without_query_witness :
  let rt := runtime_answering (Responded 200 (lit "OK") (lit "{}")) in
  let w := sample_world [lit "weather"; lit "3"; lit "1"] in
  sent (fst (main rt sample_host 9 w)) = [probe_request]
  /\ stdin (fst (main rt sample_host 9 w)) = [lit "1"]
  /\ snd (main rt sample_host 9 w) = Ok true.
Proof.
  intros rt w.
  assert (Hj : Forall (no_choice rt) [lit "weather"]).
  { constructor; [|constructor].
    repeat split; intros H; vm_compute in H; discriminate H. }
  pose proof (main_session_without_query rt sample_host w [lit "weather"]
                (lit "3") [lit "1"] 7 (lit "OK") (lit "{}") eq_refl
                (fun _ => eq_refl) eq_refl Hj eq_refl) as H.
  cbn [List.length Nat.add] in H. rewrite H. repeat split.
Defined.
